(** * S3-compatible object storage: physical store, metadata catalogue and
      object lifecycle engine

    A shallow embedding of the storage providers
    ([StorageProvider], [FileSystemProvider]), the identity service wrapper
    ([IAMService], with the simulated [IAMClient]), the bucket name
    validation, the [ObjectService] / [BucketService] lifecycle operations
    and the copy handler of the object controller.

    Stateful code is written in a state-and-exception monad [M]: an
    operation maps the state of the world (catalogue tables, files, UUID
    generator, clock) to a result, which is a value or a thrown exception,
    and the state it leaves behind.  A thrown exception keeps the effects
    made before it, as in the JavaScript source. *)

From Stdlib Require Import ZArith NArith String Ascii List Bool Lia.
From stdpp Require Import base option list gmap strings.
Import ListNotations.
Local Open Scope string_scope.
Local Open Scope list_scope.

(** ** JavaScript values used by the code *)

Abbreviation bytes := (list Byte.byte).

(** [a || d] on a possibly missing string: the empty string is falsy. *)
Definition or_str (o : option string) (d : string) : string :=
  match o with
  | Some s => if String.eqb s "" then d else s
  | None => d
  end.

(** [a || d] on a possibly missing number: zero is falsy. *)
Definition or_num (o : option N) (d : N) : N :=
  match o with
  | Some n => if N.eqb n 0 then d else n
  | None => d
  end.

(** [a || d] on a possibly missing object: every object is truthy. *)
Definition or_obj {A : Type} (o : option A) (d : A) : A :=
  match o with
  | Some a => a
  | None => d
  end.

(** A plain JavaScript object used as a string-to-string dictionary. *)
Abbreviation UserMetadata := (list (string * string)).

(** UUID values ([DataTypes.UUIDV4]); the generator is the counter
    [uuidCounter] of the state, so that a generated value has never been
    handed out before. *)
Abbreviation uuid := nat.

(** ** Exceptions *)

(** [error.code] of the errors thrown by the [fs] module. *)
Inductive Errno := ENOENT | EISDIR | EEXIST.

Inductive Exn :=
| AppError (message : string) (statusCode : nat) (code : string)
| TypeError (message : string)
| Error (message : string)
| SystemError (code : Errno)
| ValidationError (message : string)
| UniqueConstraintError (message : string).

#[global] Instance Errno_eq_dec : EqDecision Errno.
Proof. solve_decision. Defined.

Inductive Result (A : Type) :=
| Return (a : A)
| Throw (e : Exn).
Arguments Return {A} a.
Arguments Throw {A} e.

(** ** Records *)

(** The sidecar document written beside every stored object, and the
    [metadata] argument of [putObject] (a subset of its fields). *)
Module Metadata.
Record t := mk {
  size : option N;
  etag : option string;
  lastModified : option string;
  contentType : option string;
  userMetadata : option UserMetadata
}.
(** The empty object [{}]. *)
Definition empty : t := mk None None None None None.
End Metadata.

(** What a file holds.  The text produced by [JSON.stringify] for a sidecar
    document is kept as the document itself: [JSON.parse] gives it back. *)
Inductive FileContent :=
| Raw (data : bytes)
| Sidecar (doc : Metadata.t).

Inductive FsNode :=
| File (content : FileContent)
| Directory.

(** The [data] argument of [putObject]. *)
Inductive Data :=
| Buffer (data : bytes)
| Readable (chunks : list bytes)
| Unsupported.

(** What a read stream delivers when it is consumed. *)
Inductive ReadStream :=
| StreamOf (data : bytes)
| StreamError (code : Errno).

Module Grant.
Record t := mk {
  granteeId : string;
  granteeDisplayName : string;
  granteeType : string;
  permission : string
}.
End Grant.

Module Acl.
Record t := mk {
  ownerId : string;
  ownerDisplayName : string;
  grants : list Grant.t
}.
End Acl.

Module Bucket.
Record t := mk {
  id : uuid;
  name : string;
  region : string;
  versioningEnabled : bool;
  ownerId : string;
(** Set by [destroy]: the tables are paranoid (soft deletes). *)
deletedAt : option string
}.
Definition set_versioningEnabled (v : bool) (b : t) : t :=
  mk (id b) (name b) (region b) v (ownerId b) (deletedAt b).
Definition set_deletedAt (now : string) (b : t) : t :=
  mk (id b) (name b) (region b) (versioningEnabled b) (ownerId b) (Some now).
End Bucket.

Module S3Object.
Record t := mk {
  id : uuid;
  key : string;
  bucketId : uuid;
(** The virtual attribute [bucketName], as given to [create]. *)
bucketName : option string;
versionId : uuid;
isLatest : bool;
size : N;
contentType : string;
etag : string;
metadata : UserMetadata;
acl : option Acl.t;
storagePath : string;
ownerId : string;
updatedAt : string;
(** Set by [destroy]: the tables are paranoid (soft deletes). *)
deletedAt : option string
}.
Definition set_isLatest (v : bool) (now : string) (o : t) : t :=
  mk (id o) (key o) (bucketId o) (bucketName o) (versionId o) v (size o)
     (contentType o) (etag o) (metadata o) (acl o) (storagePath o)
     (ownerId o) now (deletedAt o).
Definition set_acl (a : option Acl.t) (now : string) (o : t) : t :=
  mk (id o) (key o) (bucketId o) (bucketName o) (versionId o) (isLatest o)
     (size o) (contentType o) (etag o) (metadata o) a (storagePath o)
     (ownerId o) now (deletedAt o).
Definition set_deletedAt (now : string) (o : t) : t :=
  mk (id o) (key o) (bucketId o) (bucketName o) (versionId o) (isLatest o)
     (size o) (contentType o) (etag o) (metadata o) (acl o) (storagePath o)
     (ownerId o) (updatedAt o) (Some now).
End S3Object.

Module AccessLog.
Record t := mk {
  userId : option string;
  action : option string;
  resource : option string;
  httpMethod : option string;
  httpStatus : option nat;
  allowed : option bool
}.
End AccessLog.

(** ** Library functions

    The functions of the Node.js runtime that the code calls and that are
    not part of the repository. *)
Class Platform := {
(** [crypto.createHash('md5').update(data).digest('hex')] *)
md5_hex : bytes -> string;
(** [path.join(...segments)] *)
path_join : list string -> string;
(** [path.dirname(p)] *)
path_dirname : string -> string;
(** [JSON.stringify] of a sidecar document, as bytes of the file. *)
JSON_stringify : Metadata.t -> bytes;
(** [JSON.parse] of a file that was not written as a sidecar document;
    [None] when it throws. *)
JSON_parse : bytes -> option Metadata.t;
(** The database's [LIKE] operator: [sql_like pattern value]. *)
sql_like : string -> string -> bool;
(** The database's [>] on text: [sql_gt value bound]. *)
sql_gt : string -> string -> bool;
(** The database's ordering of text, used by [ORDER BY key ASC]. *)
sql_leb : string -> string -> bool
}.

(** ** The state of the world *)

Record State := mkState {
  buckets : list Bucket.t;
  objects : list S3Object.t;
  files : gmap string FsNode;
  accessLogs : list AccessLog.t;
  uuidCounter : nat;
  clock : string
}.

Definition set_buckets (f : list Bucket.t -> list Bucket.t) (s : State) : State :=
  mkState (f (buckets s)) (objects s) (files s) (accessLogs s) (uuidCounter s) (clock s).
Definition set_objects (f : list S3Object.t -> list S3Object.t) (s : State) : State :=
  mkState (buckets s) (f (objects s)) (files s) (accessLogs s) (uuidCounter s) (clock s).
Definition set_files (f : gmap string FsNode -> gmap string FsNode) (s : State) : State :=
  mkState (buckets s) (objects s) (f (files s)) (accessLogs s) (uuidCounter s) (clock s).
Definition set_accessLogs (f : list AccessLog.t -> list AccessLog.t) (s : State) : State :=
  mkState (buckets s) (objects s) (files s) (f (accessLogs s)) (uuidCounter s) (clock s).
Definition set_uuidCounter (f : nat -> nat) (s : State) : State :=
  mkState (buckets s) (objects s) (files s) (accessLogs s) (f (uuidCounter s)) (clock s).

(** The state of a freshly installed service at wall-clock reading [now]. *)
Definition initial (now : string) : State :=
  mkState [] [] ∅ [] 0 now.

(** ** The monad of stateful, throwing computations *)

Definition M (A : Type) : Type := State -> Result A * State.

Definition ret {A : Type} (a : A) : M A := fun s => (Return a, s).
Definition throw {A : Type} (e : Exn) : M A := fun s => (Throw e, s).
Definition bind {A B : Type} (m : M A) (k : A -> M B) : M B :=
  fun s =>
    match m s with
    | (Return a, s') => k a s'
    | (Throw e, s') => (Throw e, s')
    end.
(** [try { m } catch (e) { h e }] *)
Definition try_catch {A : Type} (m : M A) (h : Exn -> M A) : M A :=
  fun s =>
    match m s with
    | (Return a, s') => (Return a, s')
    | (Throw e, s') => h e s'
    end.
Definition get_state : M State := fun s => (Return s, s).
Definition modify (f : State -> State) : M unit := fun s => (Return tt, f s).

Declare Scope monad_scope.
Delimit Scope monad_scope with monad.
Notation "'let!' x ':=' m 'in' k" := (bind m (fun x => k))
  (at level 10, x name, m at level 100, k at level 200) : monad_scope.
Notation "'do!' m 'in' k" := (bind m (fun _ => k))
  (at level 10, m at level 100, k at level 200) : monad_scope.
Local Open Scope monad_scope.

(** ** The [fs] module on the modelled file system

    The file system is a finite map from full path to node.  Errors that
    come from resolving intermediate path components are not modelled. *)

Definition fs_access (p : string) : M unit :=
  fun s =>
    match files s !! p with
    | Some _ => (Return tt, s)
    | None => (Throw (SystemError ENOENT), s)
    end.

Definition fs_readFile (p : string) : M FileContent :=
  fun s =>
    match files s !! p with
    | Some (File c) => (Return c, s)
    | Some Directory => (Throw (SystemError EISDIR), s)
    | None => (Throw (SystemError ENOENT), s)
    end.

Definition fs_writeFile (p : string) (c : FileContent) : M unit :=
  fun s =>
    match files s !! p with
    | Some Directory => (Throw (SystemError EISDIR), s)
    | _ => (Return tt, set_files (insert p (File c)) s)
    end.

Definition fs_unlink (p : string) : M unit :=
  fun s =>
    match files s !! p with
    | Some (File _) => (Return tt, set_files (delete p) s)
    | Some Directory => (Throw (SystemError EISDIR), s)
    | None => (Throw (SystemError ENOENT), s)
    end.

(** [fs.mkdir(p, { recursive: true })] *)
Definition fs_mkdir_recursive (p : string) : M unit :=
  fun s =>
    match files s !! p with
    | Some (File _) => (Throw (SystemError EEXIST), s)
    | Some Directory => (Return tt, s)
    | None => (Return tt, set_files (insert p Directory) s)
    end.

(** [fs.copyFile(src, dest)]: the destination is created or overwritten;
    the error codes are the ones that Linux gives. *)
Definition fs_copyFile (src dest : string) : M unit :=
  fun s =>
    match files s !! src with
    | Some (File c) =>
        match files s !! dest with
        | Some Directory => (Throw (SystemError EISDIR), s)
        | _ => (Return tt, set_files (insert dest (File c)) s)
        end
    | Some Directory => (Throw (SystemError EISDIR), s)
    | None => (Throw (SystemError ENOENT), s)
    end.

(** The bytes of a file. *)
Definition file_bytes `{Platform} (c : FileContent) : bytes :=
  match c with
  | Raw d => d
  | Sidecar doc => JSON_stringify doc
  end.

(** The document read from a file by [JSON.parse(await fs.readFile(p))]. *)
Definition file_json `{Platform} (c : FileContent) : option Metadata.t :=
  match c with
  | Raw d => JSON_parse d
  | Sidecar doc => Some doc
  end.

(** [createReadStream(p)], consumed at once. *)
Definition createReadStream `{Platform} (p : string) : M ReadStream :=
  fun s =>
    match files s !! p with
    | Some (File c) => (Return (StreamOf (file_bytes c)), s)
    | Some Directory => (Return (StreamError EISDIR), s)
    | None => (Return (StreamError ENOENT), s)
    end.

(** ** Storage providers *)

(** The object returned by [getObject] of both providers. *)
Module GetResult.
Record t := mk {
  stream : ReadStream;
  metadata : Metadata.t;
  size : N;
  etag : string;
  lastModified : string;
  contentType : string
}.
End GetResult.

(** [await pipeline(data, createWriteStream(p))], with the ['data']
    listener that adds up [size] and feeds the hash. *)
Definition pipeline_to_file (chunks : list bytes) (p : string) : M unit :=
  fs_writeFile p (Raw (concat chunks)).

(** [{ ...metadata, size, etag, lastModified, contentType:
      metadata.contentType || 'application/octet-stream' }] *)
Definition fullMetadata (metadata : Metadata.t) (size : N) (etag now : string)
  : Metadata.t :=
  Metadata.mk (Some size) (Some etag) (Some now)
    (Some (or_str (Metadata.contentType metadata) "application/octet-stream"))
    (Metadata.userMetadata metadata).

(** The [try { JSON.parse(await fs.readFile(metadataPath)) } catch { }] block
    of [getObject]: the empty object when the read or the parse throws. *)
Definition read_sidecar `{Platform} (metadataPath : string) : M Metadata.t :=
  try_catch
    (let! c := fs_readFile metadataPath in
     match file_json c with
     | Some doc => ret doc
     | None => throw (Error "Unexpected token in JSON")
     end)
    (fun _ => ret Metadata.empty).

(** The object built at the end of [getObject]. *)
Definition get_result (stream : ReadStream) (metadata : Metadata.t) : GetResult.t :=
  GetResult.mk stream metadata
    (or_num (Metadata.size metadata) 0)
    (or_str (Metadata.etag metadata) "")
    (or_str (Metadata.lastModified metadata) "")
    (or_str (Metadata.contentType metadata) "application/octet-stream").

(** The [catch] clause of [getObject]. *)
Definition not_found_on_ENOENT {A : Type} (bucketName objectKey : string)
  (e : Exn) : M A :=
  match e with
  | SystemError ENOENT =>
      throw (Error ("Object not found: " +:+ bucketName +:+ "/" +:+ objectKey))
  | _ => throw e
  end.

(** The two [try { await fs.unlink(...) }] blocks of [deleteObject]. *)
Definition unlink_object_and_sidecar (objectPath metadataPath : string) : M bool :=
  do! try_catch (fs_unlink objectPath)
        (fun e => match e with
                  | SystemError ENOENT => ret tt
                  | _ => throw e
                  end) in
  do! try_catch (fs_unlink metadataPath) (fun _ => ret tt) in
  ret true.

Module FileSystemProvider.
Record t := mk { basePath : string }.

Record PutResult := mkPutResult {
  etag : string;
  size : N;
  lastModified : string;
  path : string
}.

(** The character class of the first [replace]: less-than, greater-than,
    colon, double quote (code 34), bar, question mark and star. *)
Definition reserved (c : ascii) : bool :=
  existsb (Ascii.eqb c) ["<"; ">"; ":"; "034"; "|"; "?"; "*"]%char.

(** The first [replace] of [sanitizePath]: every such character becomes
    an underscore. *)
Fixpoint replace_reserved (s : string) : string :=
  match s with
  | EmptyString => EmptyString
  | String c r => String (if reserved c then "_"%char else c) (replace_reserved r)
  end.

(** [.replace(/\.\./g, '_')] *)
Fixpoint replace_dotdot (s : string) : string :=
  match s with
  | EmptyString => EmptyString
  | String c r =>
      match r with
      | String d r' =>
          if Ascii.eqb c "."%char && Ascii.eqb d "."%char
          then String "_"%char (replace_dotdot r')
          else String c (replace_dotdot r)
      | EmptyString => String c EmptyString
      end
  end.

Definition sanitizePath (pathStr : string) : string :=
  replace_dotdot (replace_reserved pathStr).

Section Methods.
Context `{Platform} (this : t).

Definition getObjectPath (bucketName objectKey : string) : string :=
  path_join [basePath this; sanitizePath bucketName; sanitizePath objectKey].

Definition getBucketPath (bucketName : string) : string :=
  path_join [basePath this; sanitizePath bucketName].

Definition calculateMD5 (data : bytes) : string := md5_hex data.

Definition putObject (bucketName objectKey : string) (data : Data)
  (metadata : Metadata.t) : M PutResult :=
  let objectPath := getObjectPath bucketName objectKey in
  let objectDir := path_dirname objectPath in
  do! fs_mkdir_recursive objectDir in
  let! size_etag :=
    match data with
    | Buffer d =>
        do! fs_writeFile objectPath (Raw d) in
        ret (N.of_nat (length d), calculateMD5 d)
    | Readable chunks =>
        do! pipeline_to_file chunks objectPath in
        ret (N.of_nat (length (concat chunks)), md5_hex (concat chunks))
    | Unsupported =>
        throw (Error "Unsupported data type. Expected Buffer or Stream")
    end in
  let metadataPath := objectPath +:+ ".meta" in
  let! s := get_state in
  let full := fullMetadata metadata (fst size_etag) (snd size_etag) (clock s) in
  do! fs_writeFile metadataPath (Sidecar full) in
  ret (mkPutResult (snd size_etag) (fst size_etag) (clock s) objectPath).

Definition getObject (bucketName objectKey : string) : M GetResult.t :=
  try_catch
    (let objectPath := getObjectPath bucketName objectKey in
     let metadataPath := objectPath +:+ ".meta" in
     do! fs_access objectPath in
     let! metadata := read_sidecar metadataPath in
     let! stream := createReadStream objectPath in
     ret (get_result stream metadata))
    (not_found_on_ENOENT bucketName objectKey).

Definition deleteObject (bucketName objectKey : string) : M bool :=
  let objectPath := getObjectPath bucketName objectKey in
  let metadataPath := objectPath +:+ ".meta" in
  unlink_object_and_sidecar objectPath metadataPath.

Definition objectExists (bucketName objectKey : string) : M bool :=
  try_catch
    (do! fs_access (getObjectPath bucketName objectKey) in ret true)
    (fun _ => ret false).

(** [copyObject]: the object file, then the sidecar; an error of the second
    copy is swallowed. *)
Definition copyObject (sourceBucket sourceKey destBucket destKey : string)
  : M bool :=
  let sourcePath := getObjectPath sourceBucket sourceKey in
  let destPath := getObjectPath destBucket destKey in
  let sourceMetaPath := sourcePath +:+ ".meta" in
  let destMetaPath := destPath +:+ ".meta" in
  let destDir := path_dirname destPath in
  do! fs_mkdir_recursive destDir in
  do! fs_copyFile sourcePath destPath in
  do! try_catch (fs_copyFile sourceMetaPath destMetaPath) (fun _ => ret tt) in
  ret true.
End Methods.
End FileSystemProvider.

Module StorageProvider.
Record t := mk { basePath : string }.

Record PutResult := mkPutResult {
  etag : string;
  size : N;
  lastModified : string;
  storageKey : string
}.

Section Methods.
Context `{Platform} (this : t).

Definition _generateStorageKey (bucketName objectKey : string) : string :=
  path_join [bucketName; objectKey].

Definition _getObjectPath (storageKey : string) : string :=
  path_join [basePath this; storageKey].

Definition _ensureDirectory (dir : string) : M unit :=
  try_catch (fs_access dir) (fun _ => fs_mkdir_recursive dir).

Definition _calculateHash (data : bytes) : string := md5_hex data.

Definition putObject (bucketName objectKey : string) (data : Data)
  (metadata : Metadata.t) : M PutResult :=
  let storageKey := _generateStorageKey bucketName objectKey in
  let objectPath := _getObjectPath storageKey in
  let metadataPath := objectPath +:+ ".meta" in
  do! _ensureDirectory (path_dirname objectPath) in
  let! size_etag :=
    match data with
    | Buffer d =>
        do! fs_writeFile objectPath (Raw d) in
        ret (N.of_nat (length d), _calculateHash d)
    | Readable chunks =>
        do! pipeline_to_file chunks objectPath in
        ret (N.of_nat (length (concat chunks)), md5_hex (concat chunks))
    | Unsupported =>
        throw (Error "Unsupported data type. Expected Buffer or Stream.")
    end in
  let! s := get_state in
  let full := fullMetadata metadata (fst size_etag) (snd size_etag) (clock s) in
  do! fs_writeFile metadataPath (Sidecar full) in
  ret (mkPutResult (snd size_etag) (fst size_etag) (clock s) storageKey).

Definition getObject (bucketName objectKey : string) : M GetResult.t :=
  try_catch
    (let storageKey := _generateStorageKey bucketName objectKey in
     let objectPath := _getObjectPath storageKey in
     let metadataPath := objectPath +:+ ".meta" in
     do! fs_access objectPath in
     let! metadata := read_sidecar metadataPath in
     let! stream := createReadStream objectPath in
     ret (get_result stream metadata))
    (not_found_on_ENOENT bucketName objectKey).

Definition deleteObject (bucketName objectKey : string) : M bool :=
  let storageKey := _generateStorageKey bucketName objectKey in
  let objectPath := _getObjectPath storageKey in
  let metadataPath := objectPath +:+ ".meta" in
  unlink_object_and_sidecar objectPath metadataPath.

Definition objectExists (bucketName objectKey : string) : M bool :=
  try_catch
    (let storageKey := _generateStorageKey bucketName objectKey in
     let objectPath := _getObjectPath storageKey in
     do! fs_access objectPath in
     ret true)
    (fun _ => ret false).

(** [getObjectMetadata]: the sidecar document alone; the object file is not
    looked at. *)
Definition getObjectMetadata (bucketName objectKey : string) : M Metadata.t :=
  let storageKey := _generateStorageKey bucketName objectKey in
  let objectPath := _getObjectPath storageKey in
  let metadataPath := objectPath +:+ ".meta" in
  try_catch
    (let! c := fs_readFile metadataPath in
     match file_json c with
     | Some doc => ret doc
     | None => throw (Error "Unexpected token in JSON")
     end)
    (fun error =>
       match error with
       | SystemError ENOENT =>
           throw (Error ("Object metadata not found: " +:+ bucketName +:+ "/"
                         +:+ objectKey))
       | _ => throw error
       end).

(** The names of the methods that the class defines; a call of any other
    name on an instance finds [undefined]. *)
Definition methods : list string :=
  ["putObject"; "getObject"; "deleteObject"; "objectExists";
   "getObjectMetadata"; "listObjects"; "createBucket"; "deleteBucket";
   "_generateStorageKey"; "_getObjectPath"; "_ensureDirectory";
   "_calculateHash"].
End Methods.
End StorageProvider.

(** ** The identity service *)

(** The fourth argument of [checkPermission]. *)
Inductive Context :=
| NoContext
| ContextText (text : string)
| ContextRequest (ip userAgent timestamp : string).

Module Decision.
Record t := mk {
  allowed : bool;
  policy : option string;
  reason : string;
  error : option string
}.
End Decision.

(** [error.message] *)
Definition message_of (e : Exn) : string :=
  match e with
  | AppError m _ _ => m
  | TypeError m => m
  | Error m => m
  | SystemError ENOENT => "ENOENT: no such file or directory"
  | SystemError EISDIR => "EISDIR: illegal operation on a directory"
  | SystemError EEXIST => "EEXIST: file already exists"
  | ValidationError m => m
  | UniqueConstraintError m => m
  end.

(** [str.startsWith(prefix)] *)
Fixpoint startsWith (str prefix : string) : bool :=
  match prefix, str with
  | EmptyString, _ => true
  | String p prefix', String c str' => Ascii.eqb c p && startsWith str' prefix'
  | String _ _, EmptyString => false
  end.

(** [str.endsWith('*')] and [str.slice(0, -1)] *)
Fixpoint endsWith_star (str : string) : bool :=
  match str with
  | EmptyString => false
  | String c EmptyString => Ascii.eqb c "*"%char
  | String _ rest => endsWith_star rest
  end.

Fixpoint slice_0_minus1 (str : string) : string :=
  match str with
  | EmptyString => EmptyString
  | String _ EmptyString => EmptyString
  | String c rest => String c (slice_0_minus1 rest)
  end.

(** The simulated client of the external identity service. *)
Module IAMClient.
Record Statement := mkStatement {
  Effect : string;
  Action : list string;
  Resource : list string
}.
Record Policy := mkPolicy {
  name : string;
  statements : list Statement
}.

Definition is_admin (userId : string) : bool :=
  String.eqb userId "admin-user" || String.eqb userId "admin-123"
  || String.eqb userId "2bff526c-82d0-4742-899c-9f5ff03ff447".

(** The property names that every object literal inherits: a lookup
    [roleAssignments[userId]] with one of them finds a value that is not a
    list of roles. *)
Definition inherited_property (name : string) : bool :=
  existsb (String.eqb name)
    ["constructor"; "toString"; "toLocaleString"; "valueOf";
     "hasOwnProperty"; "isPrototypeOf"; "propertyIsEnumerable";
     "__proto__"; "__defineGetter__"; "__defineSetter__";
     "__lookupGetter__"; "__lookupSetter__"].

(** [getUserRoles]: the names of the roles; [None] when the lookup gives
    an inherited property instead of a list. *)
Definition getUserRoles (userId : string) : option (list string) :=
  if is_admin userId then Some ["AdminRole"]
  else if String.eqb userId "test-user-123" then Some ["UserRole"]
  else if String.eqb userId "readonly-user" then Some ["ReadOnlyRole"]
  else if inherited_property userId then None
  else Some ["UserRole"].

Definition rolePolicies (userId roleName : string) : list Policy :=
  if String.eqb roleName "AdminRole" then
    [mkPolicy "S3FullAccess" [mkStatement "Allow" ["s3:*"] ["*"]]]
  else if String.eqb roleName "UserRole" then
    [mkPolicy "S3UserAccess"
       [mkStatement "Allow" ["s3:ListBuckets"; "s3:CreateBucket"] ["*"];
        mkStatement "Allow" ["s3:*"] ["arn:aws:s3:::" +:+ userId +:+ "/*"]]]
  else if String.eqb roleName "ReadOnlyRole" then
    [mkPolicy "S3ReadOnly"
       [mkStatement "Allow"
          ["s3:GetObject"; "s3:ListBuckets"; "s3:ListObjects"] ["*"]]]
  else [].

(** [getUserPolicies]; it throws when [roles.forEach] is not a function. *)
Definition getUserPolicies (userId : string) : Result (list Policy) :=
  match getUserRoles userId with
  | None => Throw (TypeError "roles.forEach is not a function")
  | Some roles =>
      let policies := flat_map (rolePolicies userId) roles in
      Return
        (if is_admin userId
         then policies ++
              [mkPolicy "DirectAdminPolicy" [mkStatement "Allow" ["*"] ["*"]]]
         else policies)
  end.

(** [_substituteVariables]: every [${name}] with a non-empty [name] free of
    closing braces is looked up in the context [{ userId }]; a name that
    does not resolve keeps its text. *)
Fixpoint substitute_scan (userId : string) (s : string) (open : option string)
  : string :=
  match open, s with
  | None, EmptyString => EmptyString
  | None, String c rest =>
      match rest with
      | String d rest' =>
          if Ascii.eqb c "$"%char && Ascii.eqb d "{"%char
          then substitute_scan userId rest' (Some EmptyString)
          else String c (substitute_scan userId rest None)
      | EmptyString => String c EmptyString
      end
  | Some var, EmptyString => "${" +:+ var
  | Some var, String c rest =>
      if Ascii.eqb c "}"%char then
        if String.eqb var "" then "${}" +:+ substitute_scan userId rest None
        else
          (if String.eqb var "userId" && negb (String.eqb userId "")
           then userId else "${" +:+ var +:+ "}")
          +:+ substitute_scan userId rest None
      else substitute_scan userId rest (Some (var +:+ String c EmptyString))
  end.

Definition _substituteVariables (str userId : string) : string :=
  substitute_scan userId str None.

Definition matches_pattern (pattern request : string) : bool :=
  String.eqb pattern "*" || String.eqb pattern request
  || (endsWith_star pattern && startsWith request (slice_0_minus1 pattern)).

Definition _checkActionMatch (policyActions : list string)
  (requestAction : string) : bool :=
  existsb (fun action => matches_pattern action requestAction) policyActions.

Definition _checkResourceMatch (policyResources : list string)
  (requestResource userId : string) : bool :=
  existsb
    (fun resource =>
       matches_pattern (_substituteVariables resource userId) requestResource)
    policyResources.

(** The two nested [for] loops of [checkPermission]: the first statement
    that matches decides, and ends the search. *)
Fixpoint first_match (userId s3Action resource : string)
  (stmts : list (string * Statement)) : option (string * Statement) :=
  match stmts with
  | [] => None
  | (pname, st) :: rest =>
      if _checkActionMatch (Action st) s3Action
         && _checkResourceMatch (Resource st) resource userId
      then Some (pname, st)
      else first_match userId s3Action resource rest
  end.

Definition service_error (e : Exn) : Decision.t :=
  Decision.mk false None "IAM service error" (Some (message_of e)).

Definition checkPermission (userId action resource : string)
  (context : Context) : Result (option Decision.t) :=
  match getUserPolicies userId with
  | Throw e => Return (Some (service_error e))
  | Return policies =>
      let s3Action := if startsWith action "s3:" then action else "s3:" +:+ action in
      if is_admin userId then
        Return (Some (Decision.mk true (Some "AdminPolicy")
                        "Administrative access granted" None))
      else
        let stmts :=
          flat_map (fun p => map (fun st => (name p, st)) (statements p)) policies in
        match first_match userId s3Action resource stmts with
        | Some (pname, st) =>
            let allowed := String.eqb (Effect st) "Allow" in
            Return (Some (Decision.mk allowed (Some pname)
                            (if allowed then "Permission granted by policy"
                             else "Permission denied by policy") None))
        | None =>
            Return (Some (Decision.mk false None "No matching policy found" None))
        end
  end.
End IAMClient.

(** The wrapper around a client; the client is any object with a
    [checkPermission] method, which may throw (transport error, timeout)
    or resolve to nothing. *)
Module IAMService.
Record t := mk {
  client : string -> string -> string -> Context -> Result (option Decision.t)
}.

(** The value that [checkPermission] resolves to: the client's answer, or
    the object built in the [catch] clause. *)
Definition answer (this : t) (userId action resource : string)
  (context : Context) : option Decision.t :=
  match client this userId action resource context with
  | Return d => d
  | Throw e =>
      Some (Decision.mk false None "IAM service error" (Some (message_of e)))
  end.

Definition checkPermission (this : t) (userId action resource : string)
  (context : Context) : M (option Decision.t) :=
  ret (answer this userId action resource context).
End IAMService.

(** [const iamService = new IAMService(iamClient)] *)
Definition simulated_iamService : IAMService.t :=
  IAMService.mk IAMClient.checkPermission.

(** [!permissionResult || !permissionResult.allowed] *)
Definition denied (permissionResult : option Decision.t) : bool :=
  match permissionResult with
  | None => true
  | Some d => negb (Decision.allowed d)
  end.

(** ** Bucket name validation ([utils/helpers]) *)

Definition is_digit (c : ascii) : bool :=
  let n := nat_of_ascii c in (48 <=? n)%nat && (n <=? 57)%nat.

Definition is_lower (c : ascii) : bool :=
  let n := nat_of_ascii c in (97 <=? n)%nat && (n <=? 122)%nat.

(** The class [[a-z0-9]] *)
Definition is_lower_alnum (c : ascii) : bool := is_lower c || is_digit c.

(** The class [[a-z0-9\-]] *)
Definition is_name_char (c : ascii) : bool :=
  is_lower_alnum c || Ascii.eqb c "-"%char.

(** [/^[a-z0-9][a-z0-9\-]*[a-z0-9]$/.test(name)] *)
Definition bucketNameRegex_test (name : string) : bool :=
  match list_ascii_of_string name with
  | [] => false
  | first :: rest =>
      is_lower_alnum first &&
      match rev rest with
      | [] => false
      | last :: middle => is_lower_alnum last && forallb is_name_char middle
      end
  end.

(** [str.includes(sub)] *)
Fixpoint includes (str sub : string) : bool :=
  startsWith str sub ||
  match str with
  | EmptyString => false
  | String _ rest => includes rest sub
  end.

(** [str.split(c)] for a one-character separator. *)
Fixpoint split_on (c : ascii) (str : string) : list string :=
  match str with
  | EmptyString => [EmptyString]
  | String d rest =>
      if Ascii.eqb d c then EmptyString :: split_on c rest
      else match split_on c rest with
           | [] => [String d EmptyString]
           | part :: parts => String d part :: parts
           end
  end.

(** [\d{1,3}] on a whole string *)
Definition digits_1_3 (part : string) : bool :=
  let cs := list_ascii_of_string part in
  (1 <=? length cs)%nat && (length cs <=? 3)%nat && forallb is_digit cs.

(** [/^\d{1,3}\.\d{1,3}\.\d{1,3}\.\d{1,3}$/.test(name)] *)
Definition ipRegex_test (name : string) : bool :=
  let parts := split_on "."%char name in
  (length parts =? 4)%nat && forallb digits_1_3 parts.

Definition validateBucketName (name : string) : bool :=
  if String.eqb name "" || (String.length name <? 3)%nat
     || (63 <? String.length name)%nat
  then false
  else if negb (bucketNameRegex_test name) then false
  else if includes name ".." || includes name "--" then false
  else if ipRegex_test name then false
  else true.

(** ** The utilities of the storage module ([StorageUtils]) *)

Module StorageUtils.

(** The class [[a-z0-9.\-]] *)
Definition is_storage_name_char (c : ascii) : bool :=
  is_lower_alnum c || Ascii.eqb c "."%char || Ascii.eqb c "-"%char.

(** [/^[a-z0-9.\-]+$/.test(name)] *)
Definition charsetRegex_test (name : string) : bool :=
  negb (String.eqb name "")
  && forallb is_storage_name_char (list_ascii_of_string name).

(** [/^[a-z0-9]/.test(name)] and [/[a-z0-9]$/.test(name)] *)
Definition startRegex_test (name : string) : bool :=
  match name with
  | String c _ => is_lower_alnum c
  | EmptyString => false
  end.

Definition endRegex_test (name : string) : bool :=
  match rev (list_ascii_of_string name) with
  | c :: _ => is_lower_alnum c
  | [] => false
  end.

(** [\d+] on a whole string *)
Definition digits (part : string) : bool :=
  negb (String.eqb part "") && forallb is_digit (list_ascii_of_string part).

(** [/^\d+\.\d+\.\d+\.\d+$/.test(name)] *)
Definition ipRegex_test (name : string) : bool :=
  let parts := split_on "."%char name in
  (length parts =? 4)%nat && forallb digits parts.

(** [validateBucketName]: it returns [true] or throws. *)
Definition validateBucketName (bucketName : string) : Result bool :=
  if String.eqb bucketName ""
  then Throw (Error "Bucket name must be a non-empty string")
  else if (String.length bucketName <? 3)%nat || (63 <? String.length bucketName)%nat
  then Throw (Error "Bucket name must be between 3 and 63 characters long")
  else if negb (charsetRegex_test bucketName)
  then Throw (Error "Bucket name can only contain lowercase letters, numbers, dots, and hyphens")
  else if negb (startRegex_test bucketName) || negb (endRegex_test bucketName)
  then Throw (Error "Bucket name must start and end with a letter or number")
  else if ipRegex_test bucketName
  then Throw (Error "Bucket name cannot be formatted as an IP address")
  else if includes bucketName ".."
  then Throw (Error "Bucket name cannot contain consecutive dots")
  else if includes bucketName ".-" || includes bucketName "-."
  then Throw (Error "Bucket name cannot contain dot followed by hyphen or vice versa")
  else Return true.

(** [.replace(/\/+/g, '/')]: every run of slashes becomes one slash. *)
Fixpoint collapse_slashes (s : string) : string :=
  match s with
  | EmptyString => EmptyString
  | String c r =>
      match r with
      | String d _ =>
          if Ascii.eqb c "/"%char && Ascii.eqb d "/"%char
          then collapse_slashes r
          else String c (collapse_slashes r)
      | EmptyString => String c EmptyString
      end
  end.

(** The white space and line terminators that [trim] removes, among 8-bit
    characters: tab, line feed, vertical tab, form feed, carriage return,
    space and no-break space. *)
Definition is_space (c : ascii) : bool :=
  existsb (Nat.eqb (nat_of_ascii c)) [9; 10; 11; 12; 13; 32; 160].

Fixpoint trimStart (s : string) : string :=
  match s with
  | EmptyString => EmptyString
  | String c r => if is_space c then trimStart r else s
  end.

Fixpoint trimEnd (s : string) : string :=
  match s with
  | EmptyString => EmptyString
  | String c r =>
      match trimEnd r with
      | EmptyString => if is_space c then EmptyString else String c EmptyString
      | t => String c t
      end
  end.

(** [str.trim()] *)
Definition trim (s : string) : string := trimEnd (trimStart s).

Definition sanitizeObjectKey (objectKey : string) : string :=
  trim
    (collapse_slashes
       (FileSystemProvider.replace_dotdot
          (FileSystemProvider.replace_reserved objectKey))).
End StorageUtils.

(** ** The metadata catalogue

    The tables are lists of rows in insertion order.  [destroy] is a soft
    delete and every query sees only the rows that are not deleted.  A
    [where] object is a conjunction of conditions on attributes. *)

Inductive KeyCondition :=
| KeyIs (key : string)
| KeyOps (like gt : option string).

Module Where.
Record t := mk {
  bucketId : option uuid;
  bucketName : option string;
  key : option KeyCondition;
  versionId : option uuid;
  isLatest : option bool
}.
Definition any : t := mk None None None None None.
End Where.

Definition live (o : S3Object.t) : bool :=
  match S3Object.deletedAt o with
  | None => true
  | Some _ => false
  end.

Definition key_holds `{Platform} (c : KeyCondition) (key : string) : bool :=
  match c with
  | KeyIs k => String.eqb key k
  | KeyOps like gt =>
      match like with Some pattern => sql_like pattern key | None => true end
      && match gt with Some bound => sql_gt key bound | None => true end
  end.

Definition holds `{Platform} (w : Where.t) (o : S3Object.t) : bool :=
  live o
  && match Where.bucketId w with
     | Some b => Nat.eqb (S3Object.bucketId o) b
     | None => true
     end
  && match Where.bucketName w with
     | Some n =>
         match S3Object.bucketName o with
         | Some n' => String.eqb n' n
         | None => false
         end
     | None => true
     end
  && match Where.key w with
     | Some c => key_holds c (S3Object.key o)
     | None => true
     end
  && match Where.versionId w with
     | Some v => Nat.eqb (S3Object.versionId o) v
     | None => true
     end
  && match Where.isLatest w with
     | Some l => Bool.eqb (S3Object.isLatest o) l
     | None => true
     end.

(** [ORDER BY key ASC] *)
Fixpoint insert_by_key `{Platform} (o : S3Object.t) (sorted : list S3Object.t)
  : list S3Object.t :=
  match sorted with
  | [] => [o]
  | x :: rest =>
      if sql_leb (S3Object.key o) (S3Object.key x) then o :: x :: rest
      else x :: insert_by_key o rest
  end.

Definition order_by_key `{Platform} (rows : list S3Object.t) : list S3Object.t :=
  fold_right insert_by_key [] rows.

Section Catalogue.
Context `{Platform}.

Definition Bucket_live (b : Bucket.t) : bool :=
  match Bucket.deletedAt b with
  | None => true
  | Some _ => false
  end.

(** [Bucket.findOne({ where: { name } })] *)
Definition Bucket_findOne (name : string) : M (option Bucket.t) :=
  fun s =>
    (Return (find (fun b => Bucket_live b && String.eqb (Bucket.name b) name)
               (buckets s)), s).

(** [Bucket.create(...)]: the model validates [name] ([len], [is]) and the
    table has a unique index on it. *)
Definition Bucket_create (name region : string) (versioningEnabled : bool)
  (ownerId : string) : M Bucket.t :=
  fun s =>
    if negb ((3 <=? String.length name)%nat && (String.length name <=? 63)%nat
             && bucketNameRegex_test name)
    then (Throw (ValidationError "Validation error"), s)
    else if existsb (fun b => String.eqb (Bucket.name b) name) (buckets s)
    then (Throw (UniqueConstraintError "name must be unique"), s)
    else
      let b := Bucket.mk (uuidCounter s) name region versioningEnabled ownerId None in
      (Return b, set_buckets (fun l => l ++ [b]) (set_uuidCounter S s)).

(** [bucket.save()] after an assignment to [versioningEnabled] *)
Definition Bucket_save_versioning (b : Bucket.t) (enabled : bool) : M Bucket.t :=
  fun s =>
    (Return (Bucket.set_versioningEnabled enabled b),
     set_buckets
       (map (fun x => if Nat.eqb (Bucket.id x) (Bucket.id b)
                      then Bucket.set_versioningEnabled enabled x else x)) s).

(** [bucket.destroy()] *)
Definition Bucket_destroy (b : Bucket.t) : M unit :=
  fun s =>
    (Return tt,
     set_buckets
       (map (fun x => if Nat.eqb (Bucket.id x) (Bucket.id b) && Bucket_live x
                      then Bucket.set_deletedAt (clock s) x else x)) s).

(** [S3Object.findAll({ where })] in table order *)
Definition S3Object_findAll (w : Where.t) : M (list S3Object.t) :=
  fun s => (Return (List.filter (holds w) (objects s)), s).

(** [S3Object.findAll({ where, limit, order: [['key', 'ASC']] })] *)
Definition S3Object_findAll_ordered (w : Where.t) (limit : nat)
  : M (list S3Object.t) :=
  fun s => (Return (firstn limit (order_by_key (List.filter (holds w) (objects s)))), s).

(** [S3Object.findOne({ where })] *)
Definition S3Object_findOne (w : Where.t) : M (option S3Object.t) :=
  fun s => (Return (find (holds w) (objects s)), s).

(** [S3Object.count({ where })] *)
Definition S3Object_count (w : Where.t) : M nat :=
  fun s => (Return (length (List.filter (holds w) (objects s))), s).

(** [S3Object.update({ isLatest: false }, { where })] *)
Definition S3Object_update_isLatest (v : bool) (w : Where.t) : M unit :=
  fun s =>
    (Return tt,
     set_objects
       (map (fun o => if holds w o then S3Object.set_isLatest v (clock s) o else o)) s).

(** [instance.destroy()] *)
Definition S3Object_destroy (o : S3Object.t) : M unit :=
  fun s =>
    (Return tt,
     set_objects
       (map (fun x => if Nat.eqb (S3Object.id x) (S3Object.id o) && live x
                      then S3Object.set_deletedAt (clock s) x else x)) s).

(** [instance.update({ acl })] *)
Definition S3Object_update_acl (o : S3Object.t) (a : Acl.t) : M unit :=
  fun s =>
    (Return tt,
     set_objects
       (map (fun x => if Nat.eqb (S3Object.id x) (S3Object.id o)
                      then S3Object.set_acl (Some a) (clock s) x else x)) s).

(** [S3Object.create({ ... })]: [id] and [versionId] default to fresh
    UUIDs, [acl] to null; the model validates the length of [key]. *)
Definition S3Object_create (bucketId : uuid) (bucketName key : string)
  (size : N) (etag contentType : string) (metadata : UserMetadata)
  (storagePath : string) (isLatest : bool) (ownerId : string) : M S3Object.t :=
  fun s =>
    if negb ((1 <=? String.length key)%nat && (String.length key <=? 1024)%nat)
    then (Throw (ValidationError "Validation error: Validation len on key failed"), s)
    else
      let o := S3Object.mk (uuidCounter s) key bucketId (Some bucketName)
                 (S (uuidCounter s)) isLatest size contentType etag metadata
                 None storagePath ownerId (clock s) None in
      (Return o, set_objects (fun l => l ++ [o]) (set_uuidCounter (fun n => S (S n)) s)).

(** [AccessLog.create(...)]: [httpMethod], [httpStatus] and [allowed] do
    not allow null and have no default. *)
Definition AccessLog_create (entry : AccessLog.t) : M unit :=
  fun s =>
    match AccessLog.action entry, AccessLog.resource entry,
          AccessLog.httpMethod entry, AccessLog.httpStatus entry,
          AccessLog.allowed entry with
    | Some _, Some _, Some _, Some _, Some _ =>
        (Return tt, set_accessLogs (fun l => l ++ [entry]) s)
    | _, _, _, _, _ =>
        (Throw (ValidationError "notNull Violation"), s)
    end.
End Catalogue.

(** ** The object lifecycle engine ([ObjectService]) *)

Module Download.
Record t := mk {
  stream : ReadStream;
  contentType : string;
  size : N;
  etag : string;
  lastModified : string;
  userMetadata : UserMetadata;
(** [s3Object.version]: the model has no such attribute. *)
version : option uuid
}.
End Download.

Module Listing.
Record Entry := mkEntry {
  key : string;
  size : N;
  etag : string;
  lastModified : string;
  storageClass : string
}.
Record t := mk {
  contents : list Entry;
  commonPrefixes : list string;
  isTruncated : bool;
  nextMarker : option string
}.
(** The [options] argument; [maxKeys] is the value that [parseInt] reads
    from it, a non-negative integer. *)
Record Options := mkOptions {
  prefix : option string;
  delimiter : option string;
  marker : option string;
  maxKeys : option N;
  versions : bool
}.
End Listing.

(** The object that [getObjectMetadata] returns. *)
Module ObjectMetadata.
Record t := mk {
  contentType : string;
  size : N;
  etag : string;
  lastModified : string;
  userMetadata : UserMetadata;
  versionId : uuid;
  isLatest : bool
}.
End ObjectMetadata.

(** [str.indexOf(sub)] *)
Fixpoint indexOf (str sub : string) : option nat :=
  if startsWith str sub then Some 0
  else match str with
       | EmptyString => None
       | String _ rest => option_map S (indexOf rest sub)
       end.

(** [str.substring(n)] and [str.substring(0, n)] *)
Fixpoint substring_from (n : nat) (str : string) : string :=
  match n, str with
  | 0, _ => str
  | S n', String _ rest => substring_from n' rest
  | S _, EmptyString => EmptyString
  end.

Fixpoint substring_to (n : nat) (str : string) : string :=
  match n, str with
  | 0, _ => EmptyString
  | S n', String c rest => String c (substring_to n' rest)
  | S _, EmptyString => EmptyString
  end.

(** [l.length > 0 ? l[l.length - 1] : null] *)
Fixpoint last_item {A : Type} (l : list A) : option A :=
  match l with
  | [] => None
  | [x] => Some x
  | _ :: rest => last_item rest
  end.

(** A truthy string option, as tested by [if (x)]. *)
Definition truthy (o : option string) : option string :=
  match o with
  | Some s => if String.eqb s "" then None else Some s
  | None => None
  end.

Module ObjectService.
Section Methods.
Context `{Platform} (iamService : IAMService.t) (storageProvider : StorageProvider.t).

Definition _logAccess (userId action bucketName objectKey status : string)
  : M unit :=
  try_catch
    (AccessLog_create
       (AccessLog.mk (Some userId) (Some action)
          (Some (bucketName +:+ "/" +:+ objectKey)) None None None))
    (fun _ => ret tt).

(** [storageProvider.delete(existingObject.storageKey)]: the class
    [StorageProvider] defines no method [delete] (see
    [StorageProvider.methods]), so the callee is [undefined]. *)
Definition storageProvider_delete : M unit :=
  throw (TypeError "storageProvider.delete is not a function").

(** The object literal that [uploadObject] gives to [putObject]:
    [{ contentType: metadata.contentType || 'application/octet-stream',
       userMetadata: metadata.userMetadata || {} }] *)
Definition put_metadata (metadata : Metadata.t) : Metadata.t :=
  Metadata.mk None None None
    (Some (or_str (Metadata.contentType metadata) "application/octet-stream"))
    (Some (or_obj (Metadata.userMetadata metadata) [])).

Definition uploadObject (bucketName key : string) (data : bytes)
  (metadata : Metadata.t) (userId : string) : M S3Object.t :=
  let! bucket := Bucket_findOne bucketName in
  match bucket with
  | None => throw (AppError "Bucket not found" 404 "BUCKET_NOT_FOUND")
  | Some bucket =>
      let! permissionResult :=
        IAMService.checkPermission iamService userId "write" "object"
          (ContextText (bucketName +:+ "/" +:+ key)) in
      if denied permissionResult
      then throw (AppError "Access denied" 403 "ACCESS_DENIED")
      else
        let contentType :=
          or_str (Metadata.contentType metadata) "application/octet-stream" in
        let userMetadata := or_obj (Metadata.userMetadata metadata) [] in
        let! result :=
          StorageProvider.putObject storageProvider bucketName key (Buffer data)
            (put_metadata metadata) in
        let etag := StorageProvider.etag result in
        do! (if Bucket.versioningEnabled bucket
             then
               S3Object_update_isLatest false
                 (Where.mk (Some (Bucket.id bucket)) None (Some (KeyIs key)) None None)
             else
               let! existingObject :=
                 S3Object_findOne
                   (Where.mk None (Some bucketName) (Some (KeyIs key)) None None) in
               match existingObject with
               | Some existingObject =>
                   do! storageProvider_delete in
                   S3Object_destroy existingObject
               | None => ret tt
               end) in
        let! s3Object :=
          S3Object_create (Bucket.id bucket) bucketName key
            (N.of_nat (length data)) etag contentType userMetadata
            (bucketName +:+ "/" +:+ key) true userId in
        do! _logAccess userId "PUT" bucketName key "SUCCESS" in
        ret s3Object
  end.

(** The [where] object of [downloadObject], [deleteObject] and
    [getObjectMetadata]: the given version, or else the latest one. *)
Definition version_condition (bucket : Bucket.t) (key : string)
  (versionId : option uuid) : Where.t :=
  match versionId with
  | Some v => Where.mk (Some (Bucket.id bucket)) None (Some (KeyIs key)) (Some v) None
  | None => Where.mk (Some (Bucket.id bucket)) None (Some (KeyIs key)) None (Some true)
  end.

Definition downloadObject (bucketName key userId : string)
  (versionId : option uuid) : M Download.t :=
  let! bucket := Bucket_findOne bucketName in
  match bucket with
  | None => throw (AppError "Bucket not found" 404 "BUCKET_NOT_FOUND")
  | Some bucket =>
      let! permissionResult :=
        IAMService.checkPermission iamService userId "read" "object"
          (ContextText (bucketName +:+ "/" +:+ key)) in
      if denied permissionResult
      then
        do! _logAccess userId "GET" bucketName key "DENIED" in
        throw (AppError "Access denied" 403 "ACCESS_DENIED")
      else
        let! s3Object := S3Object_findOne (version_condition bucket key versionId) in
        match s3Object with
        | None =>
            do! _logAccess userId "GET" bucketName key "NOT_FOUND" in
            throw (AppError "Object not found" 404 "OBJECT_NOT_FOUND")
        | Some s3Object =>
            let! result := StorageProvider.getObject storageProvider bucketName key in
            do! _logAccess userId "GET" bucketName key "SUCCESS" in
            ret (Download.mk
                   (GetResult.stream result)
                   (or_str (Some (GetResult.contentType result))
                      (S3Object.contentType s3Object))
                   (or_num (Some (GetResult.size result)) (S3Object.size s3Object))
                   (or_str (Some (GetResult.etag result)) (S3Object.etag s3Object))
                   (or_str (Some (GetResult.lastModified result))
                      (S3Object.updatedAt s3Object))
                   (or_obj (Metadata.userMetadata (GetResult.metadata result))
                      (S3Object.metadata s3Object))
                   None)
        end
  end.

(** The [forEach] of the delimiter branch of [listObjects]. *)
Fixpoint fold_delimiter (prefix delimiter : string) (objects : list S3Object.t)
  (prefixes : list string) (filteredContents : list S3Object.t)
  : list string * list S3Object.t :=
  match objects with
  | [] => (prefixes, filteredContents)
  | obj :: rest =>
      let keyAfterPrefix := substring_from (String.length prefix) (S3Object.key obj) in
      match indexOf keyAfterPrefix delimiter with
      | Some delimiterIndex =>
          let commonPrefix :=
            prefix +:+ substring_to (delimiterIndex + 1) keyAfterPrefix in
          fold_delimiter prefix delimiter rest
            (if existsb (String.eqb commonPrefix) prefixes then prefixes
             else prefixes ++ [commonPrefix])
            filteredContents
      | None =>
          fold_delimiter prefix delimiter rest prefixes (filteredContents ++ [obj])
      end
  end.

Definition to_entry (obj : S3Object.t) : Listing.Entry :=
  Listing.mkEntry (S3Object.key obj) (S3Object.size obj) (S3Object.etag obj)
    (S3Object.updatedAt obj) "STANDARD".

(** The [where] object of [listObjects]. *)
Definition list_condition (bucket : Bucket.t) (prefix marker : string)
  (versions : bool) : Where.t :=
  let like := option_map (fun p => p +:+ "%") (truthy (Some prefix)) in
  let gt := truthy (Some marker) in
  Where.mk (Some (Bucket.id bucket)) None
    (match like, gt with
     | None, None => None
     | _, _ => Some (KeyOps like gt)
     end)
    None
    (if versions then None else Some true).

Definition listObjects (bucketName userId : string) (options : Listing.Options)
  : M Listing.t :=
  let! bucket := Bucket_findOne bucketName in
  match bucket with
  | None => throw (AppError "Bucket not found" 404 "BUCKET_NOT_FOUND")
  | Some bucket =>
      let! permissionResult :=
        IAMService.checkPermission iamService userId "read" "bucket"
          (ContextText bucketName) in
      if denied permissionResult
      then throw (AppError "Access denied" 403 "ACCESS_DENIED")
      else
        let prefix := default "" (Listing.prefix options) in
        let delimiter := default "" (Listing.delimiter options) in
        let marker := default "" (Listing.marker options) in
        let maxKeys := default 1000%N (Listing.maxKeys options) in
        let versions := Listing.versions options in
        let! objects :=
          S3Object_findAll_ordered (list_condition bucket prefix marker versions)
            (N.to_nat (N.min maxKeys 1000)) in
        let folded :=
          if String.eqb delimiter "" then ([], objects)
          else fold_delimiter prefix delimiter objects [] [] in
        ret (Listing.mk
               (map to_entry (snd folded))
               (fst folded)
               (N.eqb (N.of_nat (length objects)) maxKeys)
               (option_map S3Object.key (last_item objects)))
  end.

(** [for (const obj of objectsToDelete) { ... }] *)
Fixpoint delete_each (bucketName key : string) (objectsToDelete : list S3Object.t)
  : M unit :=
  match objectsToDelete with
  | [] => ret tt
  | obj :: rest =>
      do! StorageProvider.deleteObject storageProvider bucketName key in
      do! S3Object_destroy obj in
      delete_each bucketName key rest
  end.

Definition deleteObject (bucketName key userId : string)
  (versionId : option uuid) : M unit :=
  let! bucket := Bucket_findOne bucketName in
  match bucket with
  | None => throw (AppError "Bucket not found" 404 "BUCKET_NOT_FOUND")
  | Some bucket =>
      let! permissionResult :=
        IAMService.checkPermission iamService userId "delete" "object"
          (ContextText (bucketName +:+ "/" +:+ key)) in
      if denied permissionResult
      then
        do! _logAccess userId "DELETE" bucketName key "DENIED" in
        throw (AppError "Access denied" 403 "ACCESS_DENIED")
      else
        let! objectsToDelete :=
          S3Object_findAll (version_condition bucket key versionId) in
        match objectsToDelete with
        | [] =>
            do! _logAccess userId "DELETE" bucketName key "NOT_FOUND" in
            throw (AppError "Object not found" 404 "OBJECT_NOT_FOUND")
        | _ :: _ =>
            do! delete_each bucketName key objectsToDelete in
            _logAccess userId "DELETE" bucketName key "SUCCESS"
        end
  end.

(** [for await (const chunk of sourceData.stream)] and [Buffer.concat] *)
Definition read_all (stream : ReadStream) : M bytes :=
  match stream with
  | StreamOf d => ret d
  | StreamError c => throw (SystemError c)
  end.

Definition copyObject (sourceBucket sourceKey destBucket destKey userId : string)
  : M S3Object.t :=
  let! sourceBucketObj := Bucket_findOne sourceBucket in
  let! destBucketObj := Bucket_findOne destBucket in
  match sourceBucketObj, destBucketObj with
  | None, _ =>
      throw (AppError "Source bucket not found" 404 "SOURCE_BUCKET_NOT_FOUND")
  | Some _, None =>
      throw (AppError "Destination bucket not found" 404 "DEST_BUCKET_NOT_FOUND")
  | Some sourceBucketObj, Some _ =>
      let! readPermission :=
        IAMService.checkPermission iamService userId "read" "object"
          (ContextText (sourceBucket +:+ "/" +:+ sourceKey)) in
      let! writePermission :=
        IAMService.checkPermission iamService userId "write" "object"
          (ContextText (destBucket +:+ "/" +:+ destKey)) in
      if denied readPermission
      then throw (AppError "Access denied to source object" 403 "ACCESS_DENIED")
      else if denied writePermission
      then throw (AppError "Access denied to destination" 403 "ACCESS_DENIED")
      else
        let! sourceObj :=
          S3Object_findOne
            (Where.mk (Some (Bucket.id sourceBucketObj)) None
               (Some (KeyIs sourceKey)) None (Some true)) in
        match sourceObj with
        | None =>
            throw (AppError "Source object not found" 404 "SOURCE_OBJECT_NOT_FOUND")
        | Some sourceObj =>
            let! sourceData :=
              StorageProvider.getObject storageProvider sourceBucket sourceKey in
            let! buffer := read_all (GetResult.stream sourceData) in
            uploadObject destBucket destKey buffer
              (Metadata.mk None None None
                 (Some (S3Object.contentType sourceObj))
                 (Some (S3Object.metadata sourceObj)))
              userId
        end
  end.

(** The ACL that [getObjectAcl] returns for a row without one. *)
Definition default_acl (userId : string) : Acl.t :=
  Acl.mk userId "Object Owner"
    [Grant.mk userId "Object Owner" "CanonicalUser" "FULL_CONTROL"].

Definition getObjectAcl (bucketName key userId : string) : M Acl.t :=
  let! bucket := Bucket_findOne bucketName in
  match bucket with
  | None => throw (AppError "Bucket not found" 404 "BUCKET_NOT_FOUND")
  | Some bucket =>
      let! permissionResult :=
        IAMService.checkPermission iamService userId "read" "object"
          (ContextText (bucketName +:+ "/" +:+ key)) in
      if denied permissionResult
      then throw (AppError "Access denied" 403 "ACCESS_DENIED")
      else
        let! s3Object :=
          S3Object_findOne
            (Where.mk (Some (Bucket.id bucket)) None (Some (KeyIs key)) None
               (Some true)) in
        match s3Object with
        | None => throw (AppError "Object not found" 404 "OBJECT_NOT_FOUND")
        | Some s3Object =>
            do! _logAccess userId "GetObjectACL" bucketName key "success" in
            ret (or_obj (S3Object.acl s3Object) (default_acl userId))
        end
  end.

(** [grants] is [None] when the request body gives something that is not
    an array. *)
Definition updateObjectAcl (bucketName key : string)
  (grants : option (list Grant.t)) (userId : string) : M Acl.t :=
  let! bucket := Bucket_findOne bucketName in
  match bucket with
  | None => throw (AppError "Bucket not found" 404 "BUCKET_NOT_FOUND")
  | Some bucket =>
      let! permissionResult :=
        IAMService.checkPermission iamService userId "write" "object"
          (ContextText (bucketName +:+ "/" +:+ key)) in
      if denied permissionResult
      then throw (AppError "Access denied" 403 "ACCESS_DENIED")
      else
        let! s3Object :=
          S3Object_findOne
            (Where.mk (Some (Bucket.id bucket)) None (Some (KeyIs key)) None
               (Some true)) in
        match s3Object with
        | None => throw (AppError "Object not found" 404 "OBJECT_NOT_FOUND")
        | Some s3Object =>
            match grants with
            | None => throw (AppError "Invalid grants format" 400 "INVALID_GRANTS")
            | Some grants =>
                let acl := Acl.mk userId "Object Owner" grants in
                do! S3Object_update_acl s3Object acl in
                do! _logAccess userId "PutObjectACL" bucketName key "success" in
                ret acl
            end
        end
  end.

(** [getObjectMetadata] (HEAD): the catalogue row alone; the physical store
    is not asked.  [updatedAt] is a [Date] that the catalogue maintains, so
    [lastModified] is that date on every path through the [try] block. *)
Definition getObjectMetadata (bucketName key userId : string)
  (versionId : option uuid) : M ObjectMetadata.t :=
  let! bucket := Bucket_findOne bucketName in
  match bucket with
  | None => throw (AppError "Bucket not found" 404 "BUCKET_NOT_FOUND")
  | Some bucket =>
      let! permissionResult :=
        IAMService.checkPermission iamService userId "read" "object"
          (ContextText (bucketName +:+ "/" +:+ key)) in
      if denied permissionResult
      then throw (AppError "Access denied" 403 "ACCESS_DENIED")
      else
        let! s3Object := S3Object_findOne (version_condition bucket key versionId) in
        match s3Object with
        | None => throw (AppError "Object not found" 404 "OBJECT_NOT_FOUND")
        | Some s3Object =>
            ret (ObjectMetadata.mk
                   (S3Object.contentType s3Object)
                   (S3Object.size s3Object)
                   (S3Object.etag s3Object)
                   (S3Object.updatedAt s3Object)
                   (S3Object.metadata s3Object)
                   (S3Object.versionId s3Object)
                   (S3Object.isLatest s3Object))
        end
  end.
End Methods.
End ObjectService.

(** ** [BucketService] *)

Module BucketService.
Section Methods.
Context `{Platform} (iamService : IAMService.t).

(** [region] is [None] when the request gives none. *)
Definition createBucket (name : string) (region : option string)
  (versioningEnabled : bool) (userId : string) : M Bucket.t :=
  if negb (validateBucketName name)
  then throw (AppError "Invalid bucket name" 400 "INVALID_BUCKET_NAME")
  else
    let! existingBucket := Bucket_findOne name in
    match existingBucket with
    | Some _ => throw (AppError "Bucket already exists" 409 "BUCKET_ALREADY_EXISTS")
    | None => Bucket_create name (or_str region "us-east-1") versioningEnabled userId
    end.

Definition deleteBucket (bucketName userId : string) : M unit :=
  let! bucket := Bucket_findOne bucketName in
  match bucket with
  | None => throw (AppError "Bucket not found" 404 "BUCKET_NOT_FOUND")
  | Some bucket =>
      let! permissionResult :=
        IAMService.checkPermission iamService userId "delete" "bucket"
          (ContextText bucketName) in
      if denied permissionResult
      then throw (AppError "Access denied" 403 "ACCESS_DENIED")
      else
        let! objectCount :=
          S3Object_count (Where.mk None (Some bucketName) None None None) in
        if (0 <? objectCount)%nat
        then throw (AppError "Cannot delete non-empty bucket" 409 "BUCKET_NOT_EMPTY")
        else Bucket_destroy bucket
  end.

Definition updateBucketVersioning (bucketName : string) (enabled : bool)
  (userId : string) : M Bucket.t :=
  let! bucket := Bucket_findOne bucketName in
  match bucket with
  | None => throw (AppError "Bucket not found" 404 "BUCKET_NOT_FOUND")
  | Some bucket =>
      let! permissionResult :=
        IAMService.checkPermission iamService userId "write" "bucket"
          (ContextText bucketName) in
      if denied permissionResult
      then throw (AppError "Access denied" 403 "ACCESS_DENIED")
      else Bucket_save_versioning bucket enabled
  end.

Definition getBucket (bucketName userId : string) : M Bucket.t :=
  let! bucket := Bucket_findOne bucketName in
  match bucket with
  | None => throw (AppError "Bucket not found" 404 "BUCKET_NOT_FOUND")
  | Some bucket =>
      let! permissionResult :=
        IAMService.checkPermission iamService userId "read" "bucket"
          (ContextText bucketName) in
      if denied permissionResult
      then throw (AppError "Access denied" 403 "ACCESS_DENIED")
      else ret bucket
  end.
End Methods.
End BucketService.

(** ** The copy handler of the object controller *)

(** What a handler does with a request: it sends a JSON response, or hands
    an exception to the error handler with [next(error)]. *)
Inductive Response :=
| Json (httpStatus : nat) (status : string) (message : option string)
    (data : option S3Object.t)
| Next (error : Exn).

Module objectController.
Section Handlers.
Context `{Platform} (iamService : IAMService.t) (storageProvider : StorageProvider.t).

(** The characters that [.] does not match, among 8-bit characters. *)
Definition line_terminator (c : ascii) : bool :=
  Ascii.eqb c "010"%char || Ascii.eqb c "013"%char.

(** The longest prefix without a slash, and the rest. *)
Fixpoint span_not_slash (str : string) : string * string :=
  match str with
  | EmptyString => (EmptyString, EmptyString)
  | String c rest =>
      if Ascii.eqb c "/"%char then (EmptyString, str)
      else let (a, b) := span_not_slash rest in (String c a, b)
  end.

(** [copySource.match(/^\/([^\/]+)\/(.+)$/)]: the two groups. *)
Definition copySource_match (copySource : string) : option (string * string) :=
  match copySource with
  | String c rest =>
      if Ascii.eqb c "/"%char then
        let (sourceBucket, tail) := span_not_slash rest in
        match tail with
        | String _ sourceKey =>
            if negb (String.eqb sourceBucket "") && negb (String.eqb sourceKey "")
               && forallb (fun x => negb (line_terminator x))
                    (list_ascii_of_string sourceKey)
            then Some (sourceBucket, sourceKey)
            else None
        | EmptyString => None
        end
      else None
  | EmptyString => None
  end.

(** [copySource] is [req.body.copySource], [None] when absent. *)
Definition copyObject (bucketName key : string) (copySource : option string)
  (userId : string) : M Response :=
  match truthy copySource with
  | None =>
      ret (Json 400 "error" (Some "Missing required parameter: copySource") None)
  | Some copySource =>
      match copySource_match copySource with
      | None =>
          ret (Json 400 "error"
                 (Some "Invalid copy source format. Should be /sourceBucket/sourceKey")
                 None)
      | Some (sourceBucket, sourceKey) =>
          if String.eqb sourceBucket bucketName && String.eqb sourceKey key
          then
            ret (Json 400 "error" (Some "Source and destination cannot be the same")
                   None)
          else
            try_catch
              (let! copiedObject :=
                 ObjectService.copyObject iamService storageProvider
                   sourceBucket sourceKey bucketName key userId in
               ret (Json 201 "success" None (Some copiedObject)))
              (fun error => ret (Next error))
      end
  end.
End Handlers.
End objectController.

(** ** The middlewares *)

(** [AuthMiddleware.extractToken]: [authorization] is the header of that
    name, [None] when the request has none. *)
Module AuthMiddleware.
Definition extractToken (authorization : option string) : option string :=
  match truthy authorization with
  | None => None
  | Some authHeader =>
      match split_on " "%char authHeader with
      | [scheme; token] => if String.eqb scheme "Bearer" then Some token else None
      | _ => None
      end
  end.
End AuthMiddleware.

Module AuthorizationMiddleware.

(** What the middleware does with a request: it sends a JSON error
    response, or sets [req.authorization] and calls [next()]. *)
Inductive Reply :=
| Respond (httpStatus : nat) (error message code : string)
    (action_resource : option (string * string))
| Next (action resource : string) (policy : option string) (decision : Decision.t).

(** The [resource] argument: a string, or a function of the request (of
    its URL parameters). *)
Inductive Resource :=
| ResourceText (resource : string)
| ResourceFunction (f : list (string * string) -> string).

(** The replacement text of [String.prototype.replace] for one match of a
    pattern without capture groups: [$$] is a dollar sign, [$&] the match,
    [$`] the text before it and [$'] the text after it; any other dollar
    sign stands for itself. *)
Fixpoint expand_replacement (matched before after replacement : string) : string :=
  match replacement with
  | EmptyString => EmptyString
  | String c rest =>
      if Ascii.eqb c "$"%char then
        match rest with
        | String d rest' =>
            if Ascii.eqb d "$"%char
            then String "$"%char (expand_replacement matched before after rest')
            else if Ascii.eqb d "&"%char
            then matched +:+ expand_replacement matched before after rest'
            else if Ascii.eqb d "`"%char
            then before +:+ expand_replacement matched before after rest'
            else if Ascii.eqb d "'"%char
            then after +:+ expand_replacement matched before after rest'
            else String c (expand_replacement matched before after rest)
        | EmptyString => String c EmptyString
        end
      else String c (expand_replacement matched before after rest)
  end.

(** [str.replace(new RegExp(pattern, 'g'), replacement)] for a pattern that
    matches only its own text: the matches are taken from left to right and
    do not overlap.  [before] is the text already passed and [skip] the
    number of characters of the current match still to pass. *)
Fixpoint replace_scan (pattern replacement before str : string) (skip : nat)
  : string :=
  match str with
  | EmptyString => EmptyString
  | String c rest =>
      match skip with
      | S n =>
          replace_scan pattern replacement (before +:+ String c EmptyString) rest n
      | O =>
          if startsWith str pattern
          then
            expand_replacement pattern before
              (substring_from (String.length pattern) str) replacement
            +:+ replace_scan pattern replacement (before +:+ String c EmptyString)
                  rest (String.length pattern - 1)
          else
            String c
              (replace_scan pattern replacement (before +:+ String c EmptyString)
                 rest 0)
      end
  end.

(** [substituteParams]: for every URL parameter in turn, each [:name] in
    the resource becomes the value of the parameter.  The names are those of
    the route patterns (letters, digits and underscores), which a regular
    expression matches as they are written. *)
Definition substituteParams (resource : string) (params : list (string * string))
  : string :=
  fold_left
    (fun result kv =>
       replace_scan (":" +:+ fst kv) (snd kv) EmptyString result 0)
    params resource.

Section Middlewares.
Context (iamService : IAMService.t).

(** [requirePermission(action, resource)] as a function of the request:
    [user] is [req.user.id], [None] when [req.user] is not set. *)
Definition requirePermission (action : string) (resource : Resource)
  (user : option string) (params : list (string * string))
  (ip userAgent : string) : M Reply :=
  match user with
  | None =>
      ret (Respond 401 "Unauthorized" "Authentication required" "AUTH_REQUIRED" None)
  | Some userId =>
      let targetResource :=
        match resource with
        | ResourceText r => r
        | ResourceFunction f => f params
        end in
      let targetResource := substituteParams targetResource params in
      let! s := get_state in
      let! decision :=
        IAMService.checkPermission iamService userId action targetResource
          (ContextRequest ip userAgent (clock s)) in
      match decision with
      | None =>
          ret (Respond 500 "Internal Server Error"
                 "Authorization service unavailable" "AUTHZ_SERVICE_ERROR" None)
      | Some decision =>
          if negb (Decision.allowed decision)
          then
            ret (Respond 403 "Forbidden"
                   (or_str (Some (Decision.reason decision)) "Permission denied")
                   "PERMISSION_DENIED" (Some (action, targetResource)))
          else ret (Next action targetResource (Decision.policy decision) decision)
      end
  end.

(** [requireAdmin()] *)
Definition requireAdmin : option string -> list (string * string) ->
                          string -> string -> M Reply :=
  requirePermission "admin:*" (ResourceText "*").
End Middlewares.
End AuthorizationMiddleware.

(** ** Requests and their effect on the state *)

Inductive Request :=
| CreateBucket (name : string) (region : option string) (versioningEnabled : bool)
    (userId : string)
| DeleteBucket (bucketName userId : string)
| UpdateBucketVersioning (bucketName : string) (enabled : bool) (userId : string)
| UploadObject (bucketName key : string) (data : bytes) (metadata : Metadata.t)
    (userId : string)
| DownloadObject (bucketName key userId : string) (versionId : option uuid)
| ListObjects (bucketName userId : string) (options : Listing.Options)
| DeleteObject (bucketName key userId : string) (versionId : option uuid)
| CopyObject (bucketName key : string) (copySource : option string) (userId : string)
| GetObjectAcl (bucketName key userId : string)
| UpdateObjectAcl (bucketName key : string) (grants : option (list Grant.t))
    (userId : string).

Section Serve.
Context `{Platform} (iamService : IAMService.t) (storageProvider : StorageProvider.t).

(** The state after a request has been served, whatever the response. *)
Definition serve (r : Request) (s : State) : State :=
  match r with
  | CreateBucket name region v userId =>
      snd (BucketService.createBucket name region v userId s)
  | DeleteBucket b userId =>
      snd (BucketService.deleteBucket iamService b userId s)
  | UpdateBucketVersioning b enabled userId =>
      snd (BucketService.updateBucketVersioning iamService b enabled userId s)
  | UploadObject b k data metadata userId =>
      snd (ObjectService.uploadObject iamService storageProvider b k data metadata userId s)
  | DownloadObject b k userId v =>
      snd (ObjectService.downloadObject iamService storageProvider b k userId v s)
  | ListObjects b userId options =>
      snd (ObjectService.listObjects iamService b userId options s)
  | DeleteObject b k userId v =>
      snd (ObjectService.deleteObject iamService storageProvider b k userId v s)
  | CopyObject b k copySource userId =>
      snd (objectController.copyObject iamService storageProvider b k copySource userId s)
  | GetObjectAcl b k userId =>
      snd (ObjectService.getObjectAcl iamService b k userId s)
  | UpdateObjectAcl b k grants userId =>
      snd (ObjectService.updateObjectAcl iamService b k grants userId s)
  end.

(** The state after a sequence of requests, served one after the other. *)
Definition serve_all (rs : list Request) (s : State) : State :=
  fold_left (fun st r => serve r st) rs s.
End Serve.

(** ** A platform to run the model on

    MD5 as in RFC 1321, the POSIX functions of Node's [path] module, and
    text compared code unit by code unit.  The JSON text of a sidecar is not
    rendered and foreign files are not read as JSON: no run below reads an
    object where a sidecar was written, or the other way round. *)

Module MD5.
Local Open Scope Z_scope.

Definition mask32 (x : Z) : Z := Z.land x 4294967295.
Definition not32 (x : Z) : Z := Z.lxor x 4294967295.
Definition rotl (x c : Z) : Z :=
  mask32 (Z.lor (Z.shiftl x c) (Z.shiftr x (32 - c))).

Definition K : list Z :=
  [3614090360; 3905402710; 606105819; 3250441966;
   4118548399; 1200080426; 2821735955; 4249261313;
   1770035416; 2336552879; 4294925233; 2304563134;
   1804603682; 4254626195; 2792965006; 1236535329;
   4129170786; 3225465664; 643717713; 3921069994;
   3593408605; 38016083; 3634488961; 3889429448;
   568446438; 3275163606; 4107603335; 1163531501;
   2850285829; 4243563512; 1735328473; 2368359562;
   4294588738; 2272392833; 1839030562; 4259657740;
   2763975236; 1272893353; 4139469664; 3200236656;
   681279174; 3936430074; 3572445317; 76029189;
   3654602809; 3873151461; 530742520; 3299628645;
   4096336452; 1126891415; 2878612391; 4237533241;
   1700485571; 2399980690; 4293915773; 2240044497;
   1873313359; 4264355552; 2734768916; 1309151649;
   4149444226; 3174756917; 718787259; 3951481745].

Definition shifts : list Z :=
  [7; 12; 17; 22; 7; 12; 17; 22; 7; 12; 17; 22; 7; 12; 17; 22;
   5; 9; 14; 20; 5; 9; 14; 20; 5; 9; 14; 20; 5; 9; 14; 20;
   4; 11; 16; 23; 4; 11; 16; 23; 4; 11; 16; 23; 4; 11; 16; 23;
   6; 10; 15; 21; 6; 10; 15; 21; 6; 10; 15; 21; 6; 10; 15; 21].

(** [n] bytes of [x], least significant first. *)
Fixpoint le_bytes (n : nat) (x : Z) : list Z :=
  match n with
  | O => []
  | S n' => (x mod 256) :: le_bytes n' (x / 256)
  end.

Fixpoint le_word (bs : list Z) : Z :=
  match bs with
  | [] => 0
  | b :: rest => b + 256 * le_word rest
  end.

Definition pad (msg : list Z) : list Z :=
  let len := Z.of_nat (length msg) in
  msg ++ [128] ++ repeat 0 (Z.to_nat ((55 - len) mod 64)) ++ le_bytes 8 (len * 8).

Fixpoint groups (size count : nat) (l : list Z) : list (list Z) :=
  match count with
  | O => []
  | S count' => firstn size l :: groups size count' (skipn size l)
  end.

Definition step (m : list Z) (st : Z * Z * Z * Z) (i : nat) : Z * Z * Z * Z :=
  let '(a, b, c, d) := st in
  let iz := Z.of_nat i in
  let '(f, g) :=
    if iz <? 16 then (Z.lor (Z.land b c) (Z.land (not32 b) d), iz)
    else if iz <? 32 then (Z.lor (Z.land d b) (Z.land (not32 d) c), (5 * iz + 1) mod 16)
    else if iz <? 48 then (Z.lxor b (Z.lxor c d), (3 * iz + 5) mod 16)
    else (Z.lxor c (Z.lor b (not32 d)), (7 * iz) mod 16) in
  let f' := mask32 (f + a + nth i K 0 + nth (Z.to_nat g) m 0) in
  (d, mask32 (b + rotl f' (nth i shifts 0)), b, c).

Definition block (st : Z * Z * Z * Z) (chunk : list Z) : Z * Z * Z * Z :=
  let m := map le_word (groups 4 16 chunk) in
  let '(a, b, c, d) := fold_left (step m) (seq 0 64) st in
  let '(a0, b0, c0, d0) := st in
  (mask32 (a0 + a), mask32 (b0 + b), mask32 (c0 + c), mask32 (d0 + d)).

Definition digest (msg : list Z) : list Z :=
  let padded := pad msg in
  let chunks := groups 64 (length padded / 64) padded in
  let '(a, b, c, d) :=
    fold_left block chunks (1732584193, 4023233417, 2562383102, 271733878) in
  le_bytes 4 a ++ le_bytes 4 b ++ le_bytes 4 c ++ le_bytes 4 d.

Definition hex_digit (x : Z) : ascii :=
  ascii_of_nat (Z.to_nat (if x <? 10 then 48 + x else 87 + x)).

Fixpoint hex (bs : list Z) : string :=
  match bs with
  | [] => EmptyString
  | b :: rest => String (hex_digit (b / 16)) (String (hex_digit (b mod 16)) (hex rest))
  end.

Definition md5_hex (data : bytes) : string :=
  hex (digest (map (fun b => Z.of_N (Byte.to_N b)) data)).
End MD5.

Module Posix.
Definition is_slash (c : ascii) : bool := Ascii.eqb c "/"%char.

(** [normalizeString]: the segments kept, last one first. *)
Fixpoint resolve (allowAboveRoot : bool) (segments kept : list string)
  : list string :=
  match segments with
  | [] => kept
  | seg :: rest =>
      if String.eqb seg "" || String.eqb seg "." then resolve allowAboveRoot rest kept
      else if String.eqb seg ".." then
        match kept with
        | top :: below =>
            if String.eqb top ".." then resolve allowAboveRoot rest (seg :: kept)
            else resolve allowAboveRoot rest below
        | [] =>
            resolve allowAboveRoot rest (if allowAboveRoot then [seg] else [])
        end
      else resolve allowAboveRoot rest (seg :: kept)
  end.

Definition last_is_slash (p : string) : bool :=
  match rev (list_ascii_of_string p) with
  | c :: _ => is_slash c
  | [] => false
  end.

Definition normalize (p : string) : string :=
  if String.eqb p "" then "."
  else
    let isAbsolute := startsWith p "/" in
    let trailingSeparator := last_is_slash p in
    let body :=
      String.concat "/" (rev (resolve (negb isAbsolute) (split_on "/"%char p) [])) in
    if String.eqb body "" then
      if isAbsolute then "/" else if trailingSeparator then "./" else "."
    else
      (if isAbsolute then "/" else "") +:+ body
      +:+ (if trailingSeparator then "/" else "").

Definition join (segments : list string) : string :=
  let joined :=
    String.concat "/" (List.filter (fun seg => negb (String.eqb seg "")) segments) in
  if String.eqb joined "" then "." else normalize joined.

Fixpoint drop_while (f : ascii -> bool) (l : list ascii) : list ascii :=
  match l with
  | [] => []
  | c :: rest => if f c then drop_while f rest else l
  end.

Definition dirname (p : string) : string :=
  if String.eqb p "" then "."
  else
    let hasRoot := startsWith p "/" in
    let upto_slash :=
      drop_while (fun c => negb (is_slash c))
        (drop_while is_slash (rev (list_ascii_of_string p))) in
    match upto_slash with
    | _ :: (_ :: _) as before =>
        if hasRoot && (length before =? 1)%nat then "//"
        else string_of_list_ascii (rev before)
    | _ => if hasRoot then "/" else "."
    end.
End Posix.

(** [LIKE] with the wildcards [%] and [_]. *)
Fixpoint like_chars (pattern value : list ascii) : bool :=
  match pattern with
  | [] => match value with [] => true | _ :: _ => false end
  | p :: pattern' =>
      if Ascii.eqb p "%"%char then
        (fix any_suffix (v : list ascii) : bool :=
           like_chars pattern' v ||
           match v with
           | [] => false
           | _ :: v' => any_suffix v'
           end) value
      else
        match value with
        | [] => false
        | c :: value' =>
            (Ascii.eqb p "_"%char || Ascii.eqb p c) && like_chars pattern' value'
        end
  end.

Definition reference_platform : Platform :=
  {| md5_hex := MD5.md5_hex;
     path_join := Posix.join;
     path_dirname := Posix.dirname;
     JSON_stringify := fun _ => [];
     JSON_parse := fun _ => None;
     sql_like := fun pattern value =>
       like_chars (list_ascii_of_string pattern) (list_ascii_of_string value);
     sql_gt := fun value bound => String.ltb bound value;
     sql_leb := String.leb |}.

(** [storage.getDefault()] with the default [STORAGE_PATH]. *)
Definition default_storage : StorageProvider.t := StorageProvider.mk "./storage".

Definition text (s : string) : bytes := list_byte_of_string s.

(** * Properties *)

(** ** JavaScript helpers *)

Lemma or_str_empty (s : string) : or_str (Some s) "" = s.
Proof.
  unfold or_str. destruct (String.eqb s "") eqn:E; [|reflexivity].
  apply String.eqb_eq in E. congruence.
Qed.

Lemma length_append (a b : string) :
  String.length (a +:+ b) = String.length a + String.length b.
Proof. induction a as [|c a IH]; simpl; [reflexivity | now rewrite IH]. Qed.

Lemma sidecar_path_differs (p : string) : p +:+ ".meta" <> p.
Proof.
  intros E. apply (f_equal String.length) in E.
  rewrite length_append in E. simpl in E. lia.
Qed.

(** ** The physical store *)

Section PhysicalStore.
Context `{Platform}.

(** The bytes that [putObject] stores for a [data] argument. *)
Definition payload (data : Data) : option bytes :=
  match data with
  | Buffer d => Some d
  | Readable chunks => Some (concat chunks)
  | Unsupported => None
  end.

(** What the store holds at a path, as a read stream delivers it. *)
Definition stream_at (fs : gmap string FsNode) (p : string) : ReadStream :=
  match fs !! p with
  | Some (File c) => StreamOf (file_bytes c)
  | Some Directory => StreamError EISDIR
  | None => StreamError ENOENT
  end.

Lemma createReadStream_run (p : string) (s : State) :
  createReadStream p s = (Return (stream_at (files s) p), s).
Proof.
  unfold createReadStream, stream_at.
  destruct (files s !! p) as [[c|]|]; reflexivity.
Qed.

(** The body shared by [getObject] of both providers, once the object and
    its sidecar are in place. *)
Lemma get_after_put (objectPath bucketName objectKey : string) (d : bytes)
  (doc : Metadata.t) (s : State) :
  files s !! objectPath = Some (File (Raw d)) ->
  files s !! (objectPath +:+ ".meta") = Some (File (Sidecar doc)) ->
  try_catch
    (do! fs_access objectPath in
     let! metadata := read_sidecar (objectPath +:+ ".meta") in
     let! stream := createReadStream objectPath in
     ret (get_result stream metadata))
    (not_found_on_ENOENT bucketName objectKey) s
  = (Return (get_result (StreamOf d) doc), s).
Proof.
  intros Hobj Hmeta.
  unfold try_catch, bind, fs_access, read_sidecar, try_catch, bind, fs_readFile,
    createReadStream, ret.
  rewrite Hobj, Hmeta. simpl. rewrite Hobj. reflexivity.
Qed.

(** What the two writes of [putObject] leave in the store. *)
Lemma files_after_writes (fs : gmap string FsNode) (objectPath : string)
  (d : bytes) (doc : Metadata.t) :
  let fs' := <[objectPath +:+ ".meta" := File (Sidecar doc)]>
               (<[objectPath := File (Raw d)]> fs) in
  fs' !! objectPath = Some (File (Raw d))
  /\ fs' !! (objectPath +:+ ".meta") = Some (File (Sidecar doc)).
Proof.
  simpl. split.
  - rewrite lookup_insert_ne by apply sidecar_path_differs.
    apply lookup_insert_eq.
  - apply lookup_insert_eq.
Qed.
End PhysicalStore.

(** Case analysis on the next [match] of a monadic computation. *)
Ltac break_match :=
  match goal with
  | H : context [match ?x with _ => _ end] |- _ =>
      lazymatch x with
      | context [match _ with _ => _ end] => fail
      | _ => destruct x eqn:?
      end
  | |- context [match ?x with _ => _ end] =>
      lazymatch x with
      | context [match _ with _ => _ end] => fail
      | _ => destruct x eqn:?
      end
  end.

Ltac unfold_monad :=
  unfold bind, ret, throw, try_catch, get_state, modify in *.

Section PhysicalStoreRoundTrip.
Context `{Platform}.

Lemma FileSystemProvider_putObject_stores (this : FileSystemProvider.t)
  (bucketName objectKey : string) (data : Data) (metadata : Metadata.t)
  (s s' : State) (r : FileSystemProvider.PutResult) :
  FileSystemProvider.putObject this bucketName objectKey data metadata s
    = (Return r, s') ->
  exists d doc,
    payload data = Some d
    /\ FileSystemProvider.etag r = md5_hex d
    /\ FileSystemProvider.size r = N.of_nat (length d)
    /\ Metadata.etag doc = Some (md5_hex d)
    /\ files s' !! FileSystemProvider.getObjectPath this bucketName objectKey
         = Some (File (Raw d))
    /\ files s' !! (FileSystemProvider.getObjectPath this bucketName objectKey
                    +:+ ".meta") = Some (File (Sidecar doc)).
Proof.
  unfold FileSystemProvider.putObject, pipeline_to_file.
  set (objectPath := FileSystemProvider.getObjectPath this bucketName objectKey).
  intros Hput. unfold_monad.
  unfold fs_mkdir_recursive, fs_writeFile in Hput.
  destruct data as [d|chunks|]; simpl in Hput.
  all: repeat (break_match; simpl in *; try discriminate).
  all: inversion Hput; subst; clear Hput; simpl.
  all: eexists _, _; repeat split; try reflexivity.
  all: try (rewrite lookup_insert_ne by apply sidecar_path_differs;
            apply lookup_insert_eq).
  all: try apply lookup_insert_eq.
  all: reflexivity.
Qed.
End PhysicalStoreRoundTrip.


Section PhysicalStoreDelete.
Context `{Platform}.

(** Unlinking an object that is not there is not an error: the [ENOENT] of
    the first [unlink] and every error of the second are swallowed. *)
Lemma unlink_absent_object_returns (objectPath metadataPath : string) (s : State) :
  files s !! objectPath = None ->
  fst (unlink_object_and_sidecar objectPath metadataPath s) = Return true
  /\ files (snd (unlink_object_and_sidecar objectPath metadataPath s)) !! objectPath
     = None.
Proof.
  intros Habsent. unfold unlink_object_and_sidecar. unfold_monad.
  unfold fs_unlink. rewrite Habsent.
  destruct (files s !! metadataPath) as [[c|]|] eqn:Hmeta; simpl; split;
    try reflexivity; try assumption.
  destruct (decide (metadataPath = objectPath)) as [->|Hne].
  - apply lookup_delete_eq.
  - rewrite lookup_delete_ne by assumption. assumption.
Qed.
End PhysicalStoreDelete.

(** ** The lifecycle engine: how each operation runs *)

Section ServiceRuns.
Context `{Platform} (iamService : IAMService.t) (storageProvider : StorageProvider.t).

(** The live bucket of a name, as [Bucket.findOne] finds it. *)
Definition find_bucket (s : State) (name : string) : option Bucket.t :=
  find (fun b => Bucket_live b && String.eqb (Bucket.name b) name) (buckets s).

(** The path at which the default provider keeps the bytes of a key. *)
Definition object_path (bucketName key : string) : string :=
  StorageProvider._getObjectPath storageProvider
    (StorageProvider._generateStorageKey bucketName key).

(** The answer of the identity service to an object-level check. *)
Definition object_check (userId action bucketName key : string)
  : option Decision.t :=
  IAMService.answer iamService userId action "object"
    (ContextText (bucketName +:+ "/" +:+ key)).

Lemma Bucket_findOne_run (name : string) (s : State) :
  Bucket_findOne name s = (Return (find_bucket s name), s).
Proof. reflexivity. Qed.

(** The audit entry that [_logAccess] builds lacks [httpMethod],
    [httpStatus] and [allowed]: the insert is refused and the error is
    swallowed. *)
Lemma _logAccess_run (userId action bucketName objectKey status : string)
  (s : State) :
  ObjectService._logAccess userId action bucketName objectKey status s
  = (Return tt, s).
Proof. reflexivity. Qed.

Lemma read_sidecar_run (p : string) (s : State) :
  exists m, read_sidecar p s = (Return m, s).
Proof.
  unfold read_sidecar, fs_readFile. unfold_monad.
  destruct (files s !! p) as [[c|]|]; simpl; eauto.
  destruct (file_json c); eauto.
Qed.

Lemma StorageProvider_getObject_returns (bucketName key : string) (s s' : State)
  (g : GetResult.t) :
  StorageProvider.getObject storageProvider bucketName key s = (Return g, s') ->
  s' = s
  /\ GetResult.stream g = stream_at (files s) (object_path bucketName key)
  /\ is_Some (files s !! object_path bucketName key).
Proof.
  unfold StorageProvider.getObject, object_path.
  set (p := StorageProvider._getObjectPath storageProvider _).
  unfold try_catch at 1. unfold bind at 1. unfold fs_access.
  destruct (files s !! p) as [node|] eqn:Hp; [|simpl; discriminate].
  unfold bind at 1.
  destruct (read_sidecar_run (p +:+ ".meta") s) as [m ->].
  unfold bind, ret. rewrite createReadStream_run.
  intros E. inversion E; subst. simpl. repeat split; eauto.
Qed.

Lemma StorageProvider_getObject_present (bucketName key : string) (s : State) :
  is_Some (files s !! object_path bucketName key) ->
  exists g, StorageProvider.getObject storageProvider bucketName key s = (Return g, s).
Proof.
  intros [node Hp]. unfold StorageProvider.getObject.
  unfold object_path in Hp.
  set (p := StorageProvider._getObjectPath storageProvider _) in *.
  unfold try_catch at 1. unfold bind at 1. unfold fs_access. rewrite Hp.
  unfold bind at 1.
  destruct (read_sidecar_run (p +:+ ".meta") s) as [m ->].
  unfold bind, ret. rewrite createReadStream_run. eauto.
Qed.


(** [downloadObject] for an authorized caller, by the row that the
    catalogue resolves. *)
Lemma downloadObject_run (bucketName key userId : string)
  (versionId : option uuid) (bucket : Bucket.t) (s : State) :
  find_bucket s bucketName = Some bucket ->
  denied (object_check userId "read" bucketName key) = false ->
  ObjectService.downloadObject iamService storageProvider bucketName key userId
    versionId s
  = match find (holds (ObjectService.version_condition bucket key versionId))
            (objects s) with
    | None => (Throw (AppError "Object not found" 404 "OBJECT_NOT_FOUND"), s)
    | Some s3Object =>
        match StorageProvider.getObject storageProvider bucketName key s with
        | (Return result, s') =>
            (Return
               (Download.mk (GetResult.stream result)
                  (or_str (Some (GetResult.contentType result))
                     (S3Object.contentType s3Object))
                  (or_num (Some (GetResult.size result)) (S3Object.size s3Object))
                  (or_str (Some (GetResult.etag result)) (S3Object.etag s3Object))
                  (or_str (Some (GetResult.lastModified result))
                     (S3Object.updatedAt s3Object))
                  (or_obj (Metadata.userMetadata (GetResult.metadata result))
                     (S3Object.metadata s3Object))
                  None), s')
        | (Throw e, s') => (Throw e, s')
        end
    end.
Proof.
  intros Hb Hperm. unfold ObjectService.downloadObject.
  unfold bind at 1. rewrite Bucket_findOne_run, Hb.
  unfold bind at 1. unfold IAMService.checkPermission, ret at 1.
  fold (object_check userId "read" bucketName key). rewrite Hperm.
  unfold bind at 1, S3Object_findOne.
  destruct (find _ (objects s)) as [o|]; [|reflexivity].
  unfold bind at 1.
  destruct (StorageProvider.getObject storageProvider bucketName key s)
    as [[result|e] s']; reflexivity.
Qed.
End ServiceRuns.

(** ** Round trip through the physical store *)

(** C3: for every bucket, key, payload and metadata, a [putObject] that
    returns, followed by [getObject] of the same bucket and key, returns a
    stream of exactly the stored bytes and an etag equal to the MD5 digest
    of those bytes (which is also the etag that [putObject] returned). *)
Theorem putObject_getObject_roundtrip `{Platform} (this : FileSystemProvider.t)
  (bucketName objectKey : string) (data : Data) (metadata : Metadata.t)
  (s s' : State) (r : FileSystemProvider.PutResult) :
  FileSystemProvider.putObject this bucketName objectKey data metadata s
    = (Return r, s') ->
  exists d g,
    payload data = Some d
    /\ FileSystemProvider.getObject this bucketName objectKey s' = (Return g, s')
    /\ GetResult.stream g = StreamOf d
    /\ GetResult.etag g = md5_hex d
    /\ FileSystemProvider.etag r = md5_hex d.
Proof.
  intros Hput.
  destruct (FileSystemProvider_putObject_stores _ _ _ _ _ _ _ _ Hput)
    as (d & doc & Hdata & Hetag & _ & Hdoc & Hobj & Hmeta).
  exists d, (get_result (StreamOf d) doc). split; [assumption|]. split.
  - unfold FileSystemProvider.getObject.
    apply get_after_put; assumption.
  - repeat split; try assumption.
    unfold get_result; simpl. rewrite Hdoc. apply or_str_empty.
Qed.

Lemma putObject_getObject_roundtrip_witness :
  let this := FileSystemProvider.mk "./storage" in
  let s := initial "2025-01-01T00:00:00.000Z" in
  let put :=
    @FileSystemProvider.putObject reference_platform this "my-bucket" "a.txt"
      (Buffer (text "hello")) Metadata.empty s in
  exists d g,
    payload (Buffer (text "hello")) = Some d
    /\ @FileSystemProvider.getObject reference_platform this "my-bucket" "a.txt"
         (snd put) = (Return g, snd put)
    /\ GetResult.stream g = StreamOf d
    /\ GetResult.etag g = @md5_hex reference_platform d
    /\ "5d41402abc4b2a76b9719d911017c592" = @md5_hex reference_platform d.
Proof.
  intros this s put.
  apply (@putObject_getObject_roundtrip reference_platform this "my-bucket" "a.txt"
           (Buffer (text "hello")) Metadata.empty s (snd put)
           (FileSystemProvider.mkPutResult "5d41402abc4b2a76b9719d911017c592" 5
              "2025-01-01T00:00:00.000Z" "storage/my-bucket/a.txt")).
  vm_compute. reflexivity.
Defined.

(** ** Deleting what is not there *)




(** Two states to run the operations on: the bucket [my-bucket] holding
    [a.txt], once without versioning and uploaded once, once with versioning
    and uploaded twice. *)
Definition demo_clock : string := "2025-01-01T00:00:00.000Z".

Definition demo_serve : list Request -> State -> State :=
  @serve_all reference_platform simulated_iamService default_storage.

Definition unversioned_demo : State :=
  demo_serve
    [CreateBucket "my-bucket" None false "admin-user";
     UploadObject "my-bucket" "a.txt" (text "hello") Metadata.empty "admin-user"]
    (initial demo_clock).

Definition versioned_demo : State :=
  demo_serve
    [CreateBucket "my-bucket" None true "admin-user";
     UploadObject "my-bucket" "a.txt" (text "v1") Metadata.empty "admin-user";
     UploadObject "my-bucket" "a.txt" (text "v2") Metadata.empty "admin-user"]
    (initial demo_clock).


(** ** Download *)




(** ** Listing *)







(** ** Bucket names *)

Lemma list_ascii_of_append (a b : string) :
  list_ascii_of_string (a +:+ b) = list_ascii_of_string a ++ list_ascii_of_string b.
Proof. induction a as [|c a IH]; simpl; [reflexivity | now rewrite IH]. Qed.

Lemma startsWith_iff (str prefix : string) :
  startsWith str prefix = true <-> exists rest, str = prefix +:+ rest.
Proof.
  revert str. induction prefix as [|p prefix IH]; intros str; simpl.
  - destruct str; simpl; split; eauto.
  - destruct str as [|c str]; simpl.
    + split; [discriminate | intros [rest Hr]; discriminate].
    + rewrite andb_true_iff, IH. split.
      * intros [Hc [rest ->]]. apply Ascii.eqb_eq in Hc. subst. eauto.
      * intros [rest [= -> ->]]. split; [apply Ascii.eqb_refl | eauto].
Qed.

Lemma includes_empty (sub : string) :
  includes EmptyString sub = startsWith EmptyString sub.
Proof. simpl. apply orb_false_r. Qed.

Lemma includes_cons (c : ascii) (str sub : string) :
  includes (String c str) sub = startsWith (String c str) sub || includes str sub.
Proof. reflexivity. Qed.

Lemma includes_iff (str sub : string) :
  includes str sub = true <-> exists a b, str = a +:+ sub +:+ b.
Proof.
  induction str as [|c str IH].
  - rewrite includes_empty, startsWith_iff. split.
    + intros [rest Hr]. exists EmptyString, rest. exact Hr.
    + intros (a & b & Hab). destruct a; [eauto | discriminate].
  - rewrite includes_cons, orb_true_iff, IH, startsWith_iff. split.
    + intros [[rest Hr] | (a & b & ->)].
      * exists EmptyString, rest. exact Hr.
      * exists (String c a), b. reflexivity.
    + intros (a & b & Hab). destruct a as [|c' a]; simpl in Hab.
      * left. eauto.
      * right. injection Hab as -> ->. eauto.
Qed.

Lemma split_on_without (c : ascii) (str : string) :
  ~ In c (list_ascii_of_string str) -> split_on c str = [str].
Proof.
  induction str as [|d str IH]; simpl; intros Hnot; [reflexivity|].
  destruct (Ascii.eqb d c) eqn:E.
  - apply Ascii.eqb_eq in E. subst. tauto.
  - rewrite IH by tauto. reflexivity.
Qed.

Lemma not_name_char_dot : is_name_char "."%char = false.
Proof. reflexivity. Qed.

Lemma name_char_of_alnum (c : ascii) : is_lower_alnum c = true -> is_name_char c = true.
Proof. unfold is_name_char. intros ->. reflexivity. Qed.

(** A name with a character outside [[a-z0-9\-]] fails the pattern. *)
Lemma bucketNameRegex_charset (name : string) (c : ascii) :
  In c (list_ascii_of_string name) -> is_name_char c = false ->
  bucketNameRegex_test name = false.
Proof.
  unfold bucketNameRegex_test. intros Hin Hc.
  destruct (list_ascii_of_string name) as [|first rest]; [reflexivity|].
  destruct (is_lower_alnum first) eqn:Hfirst; [|reflexivity]. simpl.
  destruct Hin as [-> | Hin].
  { apply name_char_of_alnum in Hfirst. congruence. }
  apply in_rev in Hin.
  destruct (rev rest) as [|last middle]; [reflexivity|].
  destruct (is_lower_alnum last) eqn:Hlast; [|reflexivity]. simpl.
  destruct Hin as [-> | Hin].
  { apply name_char_of_alnum in Hlast. congruence. }
  destruct (forallb is_name_char middle) eqn:Hall; [|reflexivity].
  rewrite forallb_forall in Hall. specialize (Hall c Hin). congruence.
Qed.

(** A name over the valid character set, as the data model words it:
    lowercase letters, digits and hyphens, with a letter or digit first and
    last, and neither two dots nor two hyphens in a row. *)
Definition over_valid_charset (name : string) : Prop :=
  (exists first middle last,
     name = String first (middle +:+ String last EmptyString)
     /\ is_lower_alnum first = true
     /\ is_lower_alnum last = true
     /\ forall c, In c (list_ascii_of_string middle) -> is_name_char c = true)
  /\ (forall a b, name <> a +:+ ".." +:+ b)
  /\ (forall a b, name <> a +:+ "--" +:+ b).

(** A name in the form of a dotted quad: four groups of one to three digits
    with dots between them. *)
Definition ipv4_shaped (name : string) : Prop :=
  exists a b c d,
    name = a +:+ "." +:+ b +:+ "." +:+ c +:+ "." +:+ d
    /\ digits_1_3 a = true /\ digits_1_3 b = true
    /\ digits_1_3 c = true /\ digits_1_3 d = true.

Lemma valid_charset_no_dot (name : string) :
  over_valid_charset name -> ~ In "."%char (list_ascii_of_string name).
Proof.
  intros [(first & middle & last & -> & Hf & Hl & Hm) _] Hin.
  simpl in Hin. rewrite list_ascii_of_append in Hin. simpl in Hin.
  destruct Hin as [-> | Hin]; [discriminate Hf|].
  apply in_app_or in Hin as [Hin | [-> | []]]; [|discriminate Hl].
  specialize (Hm _ Hin). discriminate Hm.
Qed.

Lemma valid_charset_matches (name : string) :
  over_valid_charset name -> bucketNameRegex_test name = true.
Proof.
  intros [(first & middle & last & -> & Hf & Hl & Hm) _].
  unfold bucketNameRegex_test. simpl. rewrite Hf. simpl.
  rewrite list_ascii_of_append. simpl. rewrite rev_app_distr. simpl.
  rewrite Hl. simpl. apply forallb_forall. intros c Hin.
  apply in_rev in Hin. auto.
Qed.

(** C5: bucket name validation rejects every name of length 2 or less,
    accepts every name of length 63 over the valid character set, rejects
    every name of length 64 or more, and rejects every name in the form of a
    dotted quad; [createBucket] answers a rejected name with a 400 error and
    creates nothing. *)
Theorem validateBucketName_boundaries (name : string) :
  (String.length name <= 2 -> validateBucketName name = false)
  /\ (String.length name = 63 -> over_valid_charset name ->
      validateBucketName name = true)
  /\ (64 <= String.length name -> validateBucketName name = false)
  /\ (ipv4_shaped name -> validateBucketName name = false)
  /\ (validateBucketName name = false ->
      forall region versioningEnabled userId s,
        BucketService.createBucket name region versioningEnabled userId s
        = (Throw (AppError "Invalid bucket name" 400 "INVALID_BUCKET_NAME"), s)).
Proof.
  unfold validateBucketName. repeat split.
  - intros Hlen.
    replace (String.length name <? 3)%nat with true
      by (symmetry; apply Nat.ltb_lt; lia).
    rewrite orb_true_r. reflexivity.
  - intros Hlen Hvalid. rewrite Hlen. simpl.
    destruct (String.eqb name "") eqn:E.
    { apply String.eqb_eq in E. subst. discriminate Hlen. }
    simpl. rewrite (valid_charset_matches name Hvalid). simpl.
    destruct Hvalid as (Hshape & Hdots & Hdashes).
    destruct (includes name "..") eqn:E1.
    { apply includes_iff in E1 as (a & b & Hab). destruct (Hdots a b Hab). }
    destruct (includes name "--") eqn:E2.
    { apply includes_iff in E2 as (a & b & Hab). destruct (Hdashes a b Hab). }
    simpl. unfold ipRegex_test.
    rewrite split_on_without; [reflexivity|].
    apply valid_charset_no_dot. repeat split; assumption.
  - intros Hlen.
    replace (63 <? String.length name)%nat with true
      by (symmetry; apply Nat.ltb_lt; lia).
    rewrite orb_true_r. reflexivity.
  - intros (a & b & c & d & -> & _).
    match goal with |- (if ?g then _ else _) = _ => destruct g; [reflexivity|] end.
    rewrite (bucketNameRegex_charset _ "."%char); [reflexivity| |reflexivity].
    rewrite list_ascii_of_append. apply in_or_app. right. left. reflexivity.
  - intros Hinvalid region versioningEnabled userId s.
    unfold BucketService.createBucket, validateBucketName. rewrite Hinvalid.
    reflexivity.
Qed.

Definition name_of_63 : string :=
  "abucket-name-0123456789-bucket-name-0123456789-bucket-name-012z".

Lemma validateBucketName_boundaries_witness :
  validateBucketName "ab" = false
  /\ validateBucketName name_of_63 = true
  /\ validateBucketName (name_of_63 +:+ "y") = false
  /\ validateBucketName "192.168.1.1" = false
  /\ BucketService.createBucket "192.168.1.1" None false "admin-user"
       (initial demo_clock)
     = (Throw (AppError "Invalid bucket name" 400 "INVALID_BUCKET_NAME"),
        initial demo_clock).
Proof.
  assert (Hquad : ipv4_shaped "192.168.1.1").
  { exists "192", "168", "1", "1". repeat split; reflexivity. }
  assert (Hvalid : over_valid_charset name_of_63).
  { split; [|split].
    - exists "a"%char, "bucket-name-0123456789-bucket-name-0123456789-bucket-name-012", "z"%char.
      repeat split; try reflexivity.
      intros c Hin.
      assert (Hall : forallb is_name_char
                       (list_ascii_of_string "bucket-name-0123456789-bucket-name-0123456789-bucket-name-012") = true)
        by reflexivity.
      rewrite forallb_forall in Hall. apply Hall. exact Hin.
    - intros a b Hab.
      assert (Hinc : includes name_of_63 ".." = true)
        by (apply includes_iff; eauto).
      vm_compute in Hinc. discriminate Hinc.
    - intros a b Hab.
      assert (Hinc : includes name_of_63 "--" = true)
        by (apply includes_iff; eauto).
      vm_compute in Hinc. discriminate Hinc. }
  destruct (validateBucketName_boundaries "ab") as (Hshort & _).
  destruct (validateBucketName_boundaries name_of_63) as (_ & Hlongest & _).
  destruct (validateBucketName_boundaries (name_of_63 +:+ "y")) as (_ & _ & Hlong & _).
  destruct (validateBucketName_boundaries "192.168.1.1")
    as (_ & _ & _ & Hip & Hcreate).
  split; [apply Hshort; simpl; lia|].
  split; [apply Hlongest; [reflexivity | exact Hvalid]|].
  split; [apply Hlong; simpl; lia|].
  split; [apply Hip; exact Hquad|].
  apply Hcreate. apply Hip. exact Hquad.
Defined.

(** ** Copy onto itself *)

Lemma span_not_slash_append (b rest : string) :
  (forall c, In c (list_ascii_of_string b) -> c <> "/"%char) ->
  objectController.span_not_slash (b +:+ String "/"%char rest)
  = (b, String "/"%char rest).
Proof.
  induction b as [|c b IH]; intros Hb; [reflexivity|].
  simpl. destruct (Ascii.eqb c "/"%char) eqn:E.
  - apply Ascii.eqb_eq in E. destruct (Hb c); [left; reflexivity | exact E].
  - rewrite IH; [reflexivity|]. intros d Hd. apply Hb. right. exact Hd.
Qed.

(** The copy source [/bucket/key] names that bucket and that key. *)
Lemma copySource_match_canonical (bucketName key : string) :
  bucketName <> "" -> key <> "" ->
  (forall c, In c (list_ascii_of_string bucketName) -> c <> "/"%char) ->
  (forall c, In c (list_ascii_of_string key) ->
     objectController.line_terminator c = false) ->
  objectController.copySource_match ("/" +:+ bucketName +:+ "/" +:+ key)
  = Some (bucketName, key).
Proof.
  intros Hb Hk Hslash Hline.
  change ("/" +:+ bucketName +:+ "/" +:+ key)
    with (String "/"%char (bucketName +:+ String "/"%char key)).
  unfold objectController.copySource_match.
  rewrite Ascii.eqb_refl, span_not_slash_append by assumption.
  destruct (String.eqb bucketName "") eqn:E1; [apply String.eqb_eq in E1; tauto|].
  destruct (String.eqb key "") eqn:E2; [apply String.eqb_eq in E2; tauto|].
  simpl.
  replace (forallb _ (list_ascii_of_string key)) with true; [reflexivity|].
  symmetry. apply forallb_forall. intros c Hc. rewrite (Hline c Hc). reflexivity.
Qed.

(** C6: a copy request whose source names the destination bucket and key is
    answered with status 400 and the message that source and destination
    cannot be the same; the service is not called and the state, with it the
    catalogue of object versions, is unchanged. *)
Theorem copy_onto_itself_rejected `{Platform} (iamService : IAMService.t)
  (storageProvider : StorageProvider.t) (bucketName key copySource userId : string)
  (s : State) :
  objectController.copySource_match copySource = Some (bucketName, key) ->
  objectController.copyObject iamService storageProvider bucketName key
    (Some copySource) userId s
  = (Return (Json 400 "error" (Some "Source and destination cannot be the same")
               None), s).
Proof.
  intros Hmatch. unfold objectController.copyObject.
  assert (Htruthy : truthy (Some copySource) = Some copySource).
  { destruct copySource; [discriminate Hmatch | reflexivity]. }
  rewrite Htruthy, Hmatch, !String.eqb_refl. reflexivity.
Qed.

Lemma copy_onto_itself_rejected_witness :
  @objectController.copyObject reference_platform simulated_iamService
    default_storage "my-bucket" "a.txt" (Some "/my-bucket/a.txt") "admin-user"
    unversioned_demo
  = (Return (Json 400 "error" (Some "Source and destination cannot be the same")
               None), unversioned_demo).
Proof.
  apply (@copy_onto_itself_rejected reference_platform).
  apply (copySource_match_canonical "my-bucket" "a.txt"); try discriminate.
  - intros c Hc. simpl in Hc.
    repeat (destruct Hc as [<- | Hc]; [discriminate|]). destruct Hc.
  - intros c Hc. simpl in Hc.
    repeat (destruct Hc as [<- | Hc]; [reflexivity|]). destruct Hc.
Defined.

(** ** Failure of the identity service *)

(** The reasons that the simulated client gives when it has evaluated the
    policies of the user: none of them is the reason of a service error. *)
Lemma IAMClient_policy_reasons (userId action resource : string)
  (context : Context) (policies : list IAMClient.Policy) (d : Decision.t) :
  IAMClient.getUserPolicies userId = Return policies ->
  IAMClient.checkPermission userId action resource context = Return (Some d) ->
  Decision.reason d = "Administrative access granted"
  \/ Decision.reason d = "Permission granted by policy"
  \/ Decision.reason d = "Permission denied by policy"
  \/ Decision.reason d = "No matching policy found".
Proof.
  intros Hpolicies. unfold IAMClient.checkPermission. rewrite Hpolicies.
  destruct (IAMClient.is_admin userId).
  - intros [= <-]. simpl. auto.
  - destruct (IAMClient.first_match _ _ _ _) as [[pname st]|].
    + intros [= <-]. simpl. destruct (String.eqb _ "Allow"); auto.
    + intros [= <-]. simpl. auto.
Qed.

Section FailClosed.
Context `{Platform} (iamService : IAMService.t) (storageProvider : StorageProvider.t).

Lemma failed_check_answer (userId action resource : string) (context : Context)
  (e : Exn) :
  IAMService.client iamService userId action resource context = Throw e ->
  IAMService.answer iamService userId action resource context
  = Some (Decision.mk false None "IAM service error" (Some (message_of e))).
Proof. unfold IAMService.answer. intros ->. reflexivity. Qed.

Lemma uploadObject_denied (bucketName key : string) (data : bytes)
  (metadata : Metadata.t) (userId : string) (s : State) :
  is_Some (find_bucket s bucketName) ->
  denied (object_check iamService userId "write" bucketName key) = true ->
  ObjectService.uploadObject iamService storageProvider bucketName key data
    metadata userId s
  = (Throw (AppError "Access denied" 403 "ACCESS_DENIED"), s).
Proof.
  intros [bucket Hb] Hdenied. unfold ObjectService.uploadObject.
  unfold bind at 1. rewrite Bucket_findOne_run, Hb.
  unfold bind at 1. unfold IAMService.checkPermission, ret at 1.
  fold (object_check iamService userId "write" bucketName key).
  rewrite Hdenied. reflexivity.
Qed.

Lemma downloadObject_denied (bucketName key userId : string)
  (versionId : option uuid) (s : State) :
  is_Some (find_bucket s bucketName) ->
  denied (object_check iamService userId "read" bucketName key) = true ->
  ObjectService.downloadObject iamService storageProvider bucketName key userId
    versionId s
  = (Throw (AppError "Access denied" 403 "ACCESS_DENIED"), s).
Proof.
  intros [bucket Hb] Hdenied. unfold ObjectService.downloadObject.
  unfold bind at 1. rewrite Bucket_findOne_run, Hb.
  unfold bind at 1. unfold IAMService.checkPermission, ret at 1.
  fold (object_check iamService userId "read" bucketName key).
  rewrite Hdenied. reflexivity.
Qed.

Lemma deleteObject_denied (bucketName key userId : string)
  (versionId : option uuid) (s : State) :
  is_Some (find_bucket s bucketName) ->
  denied (object_check iamService userId "delete" bucketName key) = true ->
  ObjectService.deleteObject iamService storageProvider bucketName key userId
    versionId s
  = (Throw (AppError "Access denied" 403 "ACCESS_DENIED"), s).
Proof.
  intros [bucket Hb] Hdenied. unfold ObjectService.deleteObject.
  unfold bind at 1. rewrite Bucket_findOne_run, Hb.
  unfold bind at 1. unfold IAMService.checkPermission, ret at 1.
  fold (object_check iamService userId "delete" bucketName key).
  rewrite Hdenied. reflexivity.
Qed.
End FailClosed.

(** C4: when the call to the permission oracle fails, [checkPermission]
    resolves to a decision that is denied, with the reason [IAM service
    error]; that reason is none of the reasons that the simulated oracle
    gives for a decision taken on the policies (explicit deny, no matching
    policy), so the two are told apart; and the operation that asked (put,
    and also get and delete) throws the AccessDenied error with status 403
    and leaves the state unchanged. *)
Theorem failed_permission_check_denies `{Platform} (iamService : IAMService.t)
  (storageProvider : StorageProvider.t) (userId action resource : string)
  (context : Context) (e : Exn) (s : State) :
  IAMService.client iamService userId action resource context = Throw e ->
  (exists d,
     IAMService.checkPermission iamService userId action resource context s
     = (Return (Some d), s)
     /\ Decision.allowed d = false
     /\ Decision.reason d = "IAM service error"
     /\ (forall u a r c policies d',
           IAMClient.getUserPolicies u = Return policies ->
           IAMClient.checkPermission u a r c = Return (Some d') ->
           Decision.reason d' <> Decision.reason d))
  /\ (forall bucketName key,
        resource = "object" ->
        context = ContextText (bucketName +:+ "/" +:+ key) ->
        is_Some (find_bucket s bucketName) ->
        (action = "write" ->
         forall data metadata,
           ObjectService.uploadObject iamService storageProvider bucketName key
             data metadata userId s
           = (Throw (AppError "Access denied" 403 "ACCESS_DENIED"), s))
        /\ (action = "read" ->
            forall versionId,
              ObjectService.downloadObject iamService storageProvider bucketName
                key userId versionId s
              = (Throw (AppError "Access denied" 403 "ACCESS_DENIED"), s))
        /\ (action = "delete" ->
            forall versionId,
              ObjectService.deleteObject iamService storageProvider bucketName
                key userId versionId s
              = (Throw (AppError "Access denied" 403 "ACCESS_DENIED"), s))).
Proof.
  intros Hfail.
  pose proof (failed_check_answer iamService userId action resource context e Hfail)
    as Hanswer.
  split.
  - eexists. unfold IAMService.checkPermission, ret. rewrite Hanswer.
    split; [reflexivity|]. simpl. repeat split.
    intros u a r c policies d' Hpolicies Hcheck.
    destruct (IAMClient_policy_reasons u a r c policies d' Hpolicies Hcheck)
      as [-> | [-> | [-> | ->]]]; discriminate.
  - intros bucketName key -> -> Hbucket.
    assert (Hdenied : forall a, a = action ->
              denied (object_check iamService userId a bucketName key) = true).
    { intros a ->. unfold object_check. rewrite Hanswer. reflexivity. }
    split; [|split]; intros Haction; intros.
    + apply uploadObject_denied; [assumption | apply Hdenied; congruence].
    + apply downloadObject_denied; [assumption | apply Hdenied; congruence].
    + apply deleteObject_denied; [assumption | apply Hdenied; congruence].
Qed.

(** An identity service whose every call times out. *)
Definition unavailable_iamService : IAMService.t :=
  IAMService.mk (fun _ _ _ _ => Throw (Error "timeout of 5000ms exceeded")).

Lemma failed_permission_check_denies_witness :
  (exists d,
     IAMService.checkPermission unavailable_iamService "admin-user" "write"
       "object" (ContextText "my-bucket/a.txt") unversioned_demo
     = (Return (Some d), unversioned_demo)
     /\ Decision.allowed d = false
     /\ Decision.reason d = "IAM service error")
  /\ @ObjectService.uploadObject reference_platform unavailable_iamService
       default_storage "my-bucket" "a.txt" (text "again") Metadata.empty
       "admin-user" unversioned_demo
     = (Throw (AppError "Access denied" 403 "ACCESS_DENIED"), unversioned_demo).
Proof.
  destruct (@failed_permission_check_denies reference_platform
              unavailable_iamService default_storage "admin-user" "write" "object"
              (ContextText "my-bucket/a.txt")
              (Error "timeout of 5000ms exceeded") unversioned_demo eq_refl)
    as [(d & Hcheck & Hallowed & Hreason & _) Hoperations].
  split.
  - exists d. auto.
  - destruct (Hoperations "my-bucket" "a.txt" eq_refl eq_refl) as (Hput & _).
    + vm_compute. eauto.
    + apply Hput. reflexivity.
Defined.

(** ** Access control lists *)

Section AccessControlLists.
Context `{Platform} (iamService : IAMService.t).

(** The [where] object of the ACL operations: the latest row of the key. *)
Definition latest_condition (bucket : Bucket.t) (key : string) : Where.t :=
  Where.mk (Some (Bucket.id bucket)) None (Some (KeyIs key)) None (Some true).

(** Without a stored ACL, [getObjectAcl] builds one from [userId], the
    caller: the owner attribute of the row is not read. *)
Lemma getObjectAcl_default (bucketName key userId : string) (bucket : Bucket.t)
  (o : S3Object.t) (s : State) :
  find_bucket s bucketName = Some bucket ->
  denied (object_check iamService userId "read" bucketName key) = false ->
  find (holds (latest_condition bucket key)) (objects s) = Some o ->
  S3Object.acl o = None ->
  ObjectService.getObjectAcl iamService bucketName key userId s
  = (Return
       (Acl.mk userId "Object Owner"
          [Grant.mk userId "Object Owner" "CanonicalUser" "FULL_CONTROL"]), s).
Proof.
  intros Hb Hperm Hrow Hacl. unfold ObjectService.getObjectAcl.
  unfold bind at 1. rewrite Bucket_findOne_run, Hb.
  unfold bind at 1. unfold IAMService.checkPermission, ret at 1.
  fold (object_check iamService userId "read" bucketName key). rewrite Hperm.
  unfold bind at 1, S3Object_findOne. fold (latest_condition bucket key).
  rewrite Hrow. unfold bind, ret. rewrite _logAccess_run, Hacl. reflexivity.
Qed.

(** [updateObjectAcl] stores the grants that it is given, as they are: the
    ACL of the row before the update is not read. *)
Lemma updateObjectAcl_replaces (bucketName key userId : string)
  (grants : list Grant.t) (bucket : Bucket.t) (o : S3Object.t) (s : State) :
  find_bucket s bucketName = Some bucket ->
  denied (object_check iamService userId "write" bucketName key) = false ->
  find (holds (latest_condition bucket key)) (objects s) = Some o ->
  exists s',
    ObjectService.updateObjectAcl iamService bucketName key (Some grants) userId s
    = (Return (Acl.mk userId "Object Owner" grants), s')
    /\ objects s'
       = map (fun x => if Nat.eqb (S3Object.id x) (S3Object.id o)
                       then S3Object.set_acl
                              (Some (Acl.mk userId "Object Owner" grants))
                              (clock s) x
                       else x) (objects s).
Proof.
  intros Hb Hperm Hrow. unfold ObjectService.updateObjectAcl.
  unfold bind at 1. rewrite Bucket_findOne_run, Hb.
  unfold bind at 1. unfold IAMService.checkPermission, ret at 1.
  fold (object_check iamService userId "write" bucketName key). rewrite Hperm.
  unfold bind at 1, S3Object_findOne. fold (latest_condition bucket key).
  rewrite Hrow. unfold bind, ret, S3Object_update_acl.
  rewrite _logAccess_run. eexists. split; reflexivity.
Qed.
End AccessControlLists.


(** ** Operations of the physical store leave the catalogue alone *)

Definition same_catalogue (s s' : State) : Prop :=
  buckets s' = buckets s /\ objects s' = objects s
  /\ uuidCounter s' = uuidCounter s /\ clock s' = clock s.

(** A computation that touches nothing but files. *)
Definition files_only {A : Type} (m : M A) : Prop :=
  forall s, same_catalogue s (snd (m s)).

Lemma same_catalogue_refl (s : State) : same_catalogue s s.
Proof. repeat split. Qed.

Lemma same_catalogue_trans (s1 s2 s3 : State) :
  same_catalogue s1 s2 -> same_catalogue s2 s3 -> same_catalogue s1 s3.
Proof.
  intros (? & ? & ? & ?) (? & ? & ? & ?). repeat split; congruence.
Qed.

Lemma files_only_ret {A : Type} (a : A) : files_only (ret a).
Proof. intros s. apply same_catalogue_refl. Qed.

Lemma files_only_throw {A : Type} (e : Exn) : files_only (@throw A e).
Proof. intros s. apply same_catalogue_refl. Qed.

Lemma files_only_bind {A B : Type} (m : M A) (k : A -> M B) :
  files_only m -> (forall a, files_only (k a)) -> files_only (bind m k).
Proof.
  intros Hm Hk s. unfold bind. specialize (Hm s).
  destruct (m s) as [[a|e] s1]; simpl in *; [|assumption].
  eapply same_catalogue_trans; [eassumption | apply Hk].
Qed.

Lemma files_only_try_catch {A : Type} (m : M A) (h : Exn -> M A) :
  files_only m -> (forall e, files_only (h e)) -> files_only (try_catch m h).
Proof.
  intros Hm Hh s. unfold try_catch. specialize (Hm s).
  destruct (m s) as [[a|e] s1]; simpl in *; [assumption|].
  eapply same_catalogue_trans; [eassumption | apply Hh].
Qed.

Lemma files_only_get_state : files_only get_state.
Proof. intros s. apply same_catalogue_refl. Qed.

Lemma files_only_fs_access (p : string) : files_only (fs_access p).
Proof. intros s. unfold fs_access. destruct (files s !! p); repeat split. Qed.

Lemma files_only_fs_readFile (p : string) : files_only (fs_readFile p).
Proof.
  intros s. unfold fs_readFile. destruct (files s !! p) as [[c|]|]; repeat split.
Qed.

Lemma files_only_fs_writeFile (p : string) (c : FileContent) :
  files_only (fs_writeFile p c).
Proof.
  intros s. unfold fs_writeFile. destruct (files s !! p) as [[c'|]|]; repeat split.
Qed.

Lemma files_only_fs_unlink (p : string) : files_only (fs_unlink p).
Proof.
  intros s. unfold fs_unlink. destruct (files s !! p) as [[c|]|]; repeat split.
Qed.

Lemma files_only_fs_mkdir_recursive (p : string) : files_only (fs_mkdir_recursive p).
Proof.
  intros s. unfold fs_mkdir_recursive.
  destruct (files s !! p) as [[c|]|]; repeat split.
Qed.

Lemma files_only_createReadStream `{Platform} (p : string) :
  files_only (createReadStream p).
Proof.
  intros s. unfold createReadStream. destruct (files s !! p) as [[c|]|]; repeat split.
Qed.

Create HintDb files_only.
#[local] Hint Resolve files_only_ret files_only_throw files_only_get_state
  files_only_fs_access files_only_fs_readFile files_only_fs_writeFile
  files_only_fs_unlink files_only_fs_mkdir_recursive files_only_createReadStream
  : files_only.

Ltac files_only_step :=
  first
    [ apply files_only_bind; [|intros ?]
    | apply files_only_try_catch; [|intros ?]
    | solve [auto with files_only]
    | match goal with
      | |- files_only (match ?x with _ => _ end) => destruct x
      | |- files_only (if ?x then _ else _) => destruct x
      end ].

Section ProviderFrames.
Context `{Platform} (storageProvider : StorageProvider.t).

Lemma files_only_read_sidecar (p : string) : files_only (read_sidecar p).
Proof. unfold read_sidecar. repeat files_only_step. Qed.

Lemma files_only_putObject (bucketName key : string) (data : Data)
  (metadata : Metadata.t) :
  files_only (StorageProvider.putObject storageProvider bucketName key data metadata).
Proof.
  unfold StorageProvider.putObject, StorageProvider._ensureDirectory,
    pipeline_to_file.
  repeat files_only_step.
Qed.

Lemma files_only_getObject (bucketName key : string) :
  files_only (StorageProvider.getObject storageProvider bucketName key).
Proof.
  unfold StorageProvider.getObject, not_found_on_ENOENT.
  repeat files_only_step; apply files_only_read_sidecar.
Qed.

Lemma files_only_deleteObject (bucketName key : string) :
  files_only (StorageProvider.deleteObject storageProvider bucketName key).
Proof.
  unfold StorageProvider.deleteObject, unlink_object_and_sidecar.
  repeat files_only_step.
Qed.
End ProviderFrames.

(** ** What a request can do to the catalogue *)

(** A row after updates in place: the attributes that identify it are kept,
    a deleted row stays deleted, and [isLatest] is only ever cleared. *)
Definition evolved (x x' : S3Object.t) : Prop :=
  S3Object.id x' = S3Object.id x
  /\ S3Object.key x' = S3Object.key x
  /\ S3Object.bucketId x' = S3Object.bucketId x
  /\ S3Object.bucketName x' = S3Object.bucketName x
  /\ S3Object.versionId x' = S3Object.versionId x
  /\ (live x' = true -> live x = true)
  /\ (S3Object.isLatest x' = true -> S3Object.isLatest x = true).

Definition bucket_evolved (b b' : Bucket.t) : Prop :=
  Bucket.id b' = Bucket.id b /\ Bucket.name b' = Bucket.name b.

(** The row that [uploadObject] creates in state [s] for a key of the
    bucket found under the name [n]. *)
Definition new_row (s : State) (bucket : Bucket.t) (n key : string)
  (o : S3Object.t) : Prop :=
  S3Object.id o = uuidCounter s
  /\ S3Object.versionId o = S (uuidCounter s)
  /\ S3Object.key o = key
  /\ S3Object.bucketId o = Bucket.id bucket
  /\ S3Object.bucketName o = Some n
  /\ S3Object.isLatest o = true
  /\ live o = true.

Inductive catalogue_step (s s' : State) : Prop :=
| rows_modified :
    buckets s' = buckets s -> uuidCounter s' = uuidCounter s ->
    Forall2 evolved (objects s) (objects s') ->
    catalogue_step s s'
| row_inserted (rows : list S3Object.t) (o : S3Object.t) (bucket : Bucket.t)
    (n key : string) :
    buckets s' = buckets s -> uuidCounter s' = S (S (uuidCounter s)) ->
    objects s' = rows ++ [o] -> Forall2 evolved (objects s) rows ->
    find_bucket s n = Some bucket -> new_row s bucket n key o ->
    (if Bucket.versioningEnabled bucket
     then forall x, In x rows -> live x = true ->
                    S3Object.bucketId x = Bucket.id bucket ->
                    S3Object.key x = key -> S3Object.isLatest x = false
     else forall x, In x (objects s) -> live x = true ->
                    S3Object.bucketName x = Some n ->
                    S3Object.key x = key -> False) ->
    catalogue_step s s'
| bucket_created (b : Bucket.t) :
    objects s' = objects s -> buckets s' = buckets s ++ [b] ->
    Bucket.id b = uuidCounter s -> uuidCounter s' = S (uuidCounter s) ->
    catalogue_step s s'
| buckets_modified :
    objects s' = objects s -> uuidCounter s' = uuidCounter s ->
    Forall2 bucket_evolved (buckets s) (buckets s') ->
    catalogue_step s s'.

Lemma evolved_refl (x : S3Object.t) : evolved x x.
Proof. repeat split; auto. Qed.

Lemma evolved_trans (x y z : S3Object.t) : evolved x y -> evolved y z -> evolved x z.
Proof.
  intros (? & ? & ? & ? & ? & ? & ?) (? & ? & ? & ? & ? & ? & ?).
  repeat split; try congruence; auto.
Qed.

Lemma Forall2_evolved_refl (l : list S3Object.t) : Forall2 evolved l l.
Proof. induction l; constructor; auto using evolved_refl. Qed.

Lemma Forall2_evolved_trans (l1 l2 l3 : list S3Object.t) :
  Forall2 evolved l1 l2 -> Forall2 evolved l2 l3 -> Forall2 evolved l1 l3.
Proof.
  intros H12. revert l3. induction H12; intros l3 H23; inversion H23; subst;
    constructor; eauto using evolved_trans.
Qed.

Lemma Forall2_evolved_map (f : S3Object.t -> S3Object.t) (l : list S3Object.t) :
  (forall x, evolved x (f x)) -> Forall2 evolved l (map f l).
Proof. intros Hf. induction l; simpl; constructor; auto. Qed.

Lemma Forall2_bucket_evolved_map (f : Bucket.t -> Bucket.t) (l : list Bucket.t) :
  (forall b, bucket_evolved b (f b)) -> Forall2 bucket_evolved l (map f l).
Proof. intros Hf. induction l; simpl; constructor; auto. Qed.

Lemma catalogue_step_refl (s : State) : catalogue_step s s.
Proof. apply rows_modified; auto using Forall2_evolved_refl. Qed.

(** An unchanged catalogue, before or after a step of it. *)
Lemma catalogue_step_same_l (s0 s s' : State) :
  same_catalogue s0 s -> catalogue_step s s' ->
  find_bucket s = find_bucket s0 -> catalogue_step s0 s'.
Proof.
  intros (Hb & Ho & Hc & _) Hstep Hfind.
  destruct Hstep.
  - apply rows_modified; congruence.
  - apply (row_inserted s0 s' rows o bucket n key); try congruence.
    + unfold new_row in *. rewrite <- Hc. assumption.
    + destruct (Bucket.versioningEnabled bucket); [assumption|]. rewrite <- Ho.
      assumption.
  - apply (bucket_created s0 s' b); congruence.
  - apply buckets_modified; congruence.
Qed.

Lemma find_bucket_same (s s' : State) :
  buckets s' = buckets s -> find_bucket s' = find_bucket s.
Proof. intros Hb. unfold find_bucket. rewrite Hb. reflexivity. Qed.

Lemma same_catalogue_step (s s' : State) : same_catalogue s s' -> catalogue_step s s'.
Proof.
  intros (Hb & Ho & Hc & _). apply rows_modified; try assumption.
  rewrite Ho. apply Forall2_evolved_refl.
Qed.

Section UploadEffect.
Context `{Platform} (iamService : IAMService.t) (storageProvider : StorageProvider.t).

(** The conditions that [uploadObject] gives to the catalogue. *)
Definition versions_condition (bucket : Bucket.t) (key : string) : Where.t :=
  Where.mk (Some (Bucket.id bucket)) None (Some (KeyIs key)) None None.

Definition existing_condition (bucketName key : string) : Where.t :=
  Where.mk None (Some bucketName) (Some (KeyIs key)) None None.

(** [S3Object.update({ isLatest: false }, ...)] on one row. *)
Definition mark_not_latest (bucket : Bucket.t) (key now : string)
  (x : S3Object.t) : S3Object.t :=
  if holds (versions_condition bucket key) x
  then S3Object.set_isLatest false now x else x.

(** What [uploadObject] does to the catalogue: nothing but updates in place
    when it throws; when it returns, the rows of the key are marked (with
    versioning) or there was no row of the key (without), and the returned
    row is appended. *)
Lemma uploadObject_effect (bucketName key : string) (data : bytes)
  (metadata : Metadata.t) (userId : string) (s s' : State)
  (r : Result S3Object.t) :
  ObjectService.uploadObject iamService storageProvider bucketName key data
    metadata userId s = (r, s') ->
  buckets s' = buckets s
  /\ match r with
     | Throw _ =>
         uuidCounter s' = uuidCounter s
         /\ (objects s' = objects s
             \/ exists bucket,
                  find_bucket s bucketName = Some bucket
                  /\ Bucket.versioningEnabled bucket = true
                  /\ objects s'
                     = map (mark_not_latest bucket key (clock s)) (objects s))
     | Return o =>
         exists bucket,
           find_bucket s bucketName = Some bucket
           /\ uuidCounter s' = S (S (uuidCounter s))
           /\ new_row s bucket bucketName key o
           /\ if Bucket.versioningEnabled bucket
              then objects s'
                   = map (mark_not_latest bucket key (clock s)) (objects s) ++ [o]
              else objects s' = objects s ++ [o]
                   /\ find (holds (existing_condition bucketName key)) (objects s)
                      = None
     end.
Proof.
  intros Hrun. unfold ObjectService.uploadObject in Hrun.
  unfold bind at 1 in Hrun. rewrite Bucket_findOne_run in Hrun.
  destruct (find_bucket s bucketName) as [bucket|] eqn:Hb;
    [|injection Hrun as <- <-; auto].
  unfold bind at 1 in Hrun. unfold IAMService.checkPermission, ret at 1 in Hrun.
  destruct (denied _); [injection Hrun as <- <-; auto|].
  unfold bind at 1 in Hrun.
  pose proof (files_only_putObject storageProvider bucketName key (Buffer data)
                (ObjectService.put_metadata metadata) s)
    as (Hb1 & Ho1 & Hc1 & Hk1).
  destruct (StorageProvider.putObject _ _ _ _ _ s) as [[result|e] s1];
    simpl in Hb1, Ho1, Hc1, Hk1; [|injection Hrun as <- <-; auto].
  unfold bind at 1 in Hrun.
  destruct (Bucket.versioningEnabled bucket) eqn:Hv.
  - unfold S3Object_update_isLatest at 1 in Hrun. unfold bind at 1 in Hrun.
    unfold S3Object_create at 1 in Hrun. simpl in Hrun.
    destruct (negb _) eqn:Hkey; simpl in Hrun; injection Hrun as <- <-; simpl.
    + split; [assumption|]. split; [assumption|]. right. exists bucket.
      rewrite Ho1, Hk1. auto.
    + split; [assumption|]. exists bucket. rewrite Hv, Ho1, Hk1, Hc1.
      repeat split; reflexivity.
  - unfold bind at 1, S3Object_findOne at 1 in Hrun.
    fold (existing_condition bucketName key) in Hrun. rewrite Ho1 in Hrun.
    destruct (find _ (objects s)) as [existing|] eqn:Hex.
    + injection Hrun as <- <-. auto.
    + unfold ret at 1 in Hrun. unfold bind at 1 in Hrun.
      unfold S3Object_create at 1 in Hrun.
      destruct (negb _) eqn:Hkey; simpl in Hrun; injection Hrun as <- <-; simpl;
        [auto|].
      split; [assumption|]. exists bucket. rewrite Hv, Ho1, Hc1.
      repeat split; reflexivity.
Qed.

End UploadEffect.

(** A computation that leaves the state as it found it. *)
Definition readonly {A : Type} (m : M A) : Prop := forall s, snd (m s) = s.

Lemma readonly_ret {A : Type} (a : A) : readonly (ret a).
Proof. intros s. reflexivity. Qed.

Lemma readonly_throw {A : Type} (e : Exn) : readonly (@throw A e).
Proof. intros s. reflexivity. Qed.

Lemma readonly_bind {A B : Type} (m : M A) (k : A -> M B) :
  readonly m -> (forall a, readonly (k a)) -> readonly (bind m k).
Proof.
  intros Hm Hk s. unfold bind. specialize (Hm s).
  destruct (m s) as [[a|e] s1]; simpl in *; subst; [apply Hk | reflexivity].
Qed.

Lemma readonly_try_catch {A : Type} (m : M A) (h : Exn -> M A) :
  readonly m -> (forall e, readonly (h e)) -> readonly (try_catch m h).
Proof.
  intros Hm Hh s. unfold try_catch. specialize (Hm s).
  destruct (m s) as [[a|e] s1]; simpl in *; subst; [reflexivity | apply Hh].
Qed.

Lemma readonly_fs_access (p : string) : readonly (fs_access p).
Proof. intros s. unfold fs_access. destruct (files s !! p); reflexivity. Qed.

Lemma readonly_fs_readFile (p : string) : readonly (fs_readFile p).
Proof.
  intros s. unfold fs_readFile. destruct (files s !! p) as [[c|]|]; reflexivity.
Qed.

Lemma readonly_createReadStream `{Platform} (p : string) :
  readonly (createReadStream p).
Proof. intros s. rewrite createReadStream_run. reflexivity. Qed.

Lemma readonly_Bucket_findOne (name : string) : readonly (Bucket_findOne name).
Proof. intros s. reflexivity. Qed.

Lemma readonly_checkPermission (iamService : IAMService.t)
  (userId action resource : string) (context : Context) :
  readonly (IAMService.checkPermission iamService userId action resource context).
Proof. intros s. reflexivity. Qed.

Lemma readonly_S3Object_findOne `{Platform} (w : Where.t) :
  readonly (S3Object_findOne w).
Proof. intros s. reflexivity. Qed.

Lemma readonly_S3Object_findAll_ordered `{Platform} (w : Where.t) (limit : nat) :
  readonly (S3Object_findAll_ordered w limit).
Proof. intros s. reflexivity. Qed.

Lemma readonly_logAccess (userId action bucketName objectKey status : string) :
  readonly (ObjectService._logAccess userId action bucketName objectKey status).
Proof. intros s. reflexivity. Qed.

Create HintDb readonly.
#[local] Hint Resolve readonly_ret readonly_throw readonly_fs_access
  readonly_fs_readFile readonly_createReadStream readonly_Bucket_findOne
  readonly_checkPermission readonly_S3Object_findOne
  readonly_S3Object_findAll_ordered readonly_logAccess : readonly.

Ltac readonly_step :=
  first
    [ solve [auto with readonly]
    | apply readonly_bind; [|intros ?]
    | apply readonly_try_catch; [|intros ?]
    | match goal with
      | |- readonly (match ?x with _ => _ end) => destruct x
      | |- readonly (if ?x then _ else _) => destruct x
      end ].

Section ReadOnlyOperations.
Context `{Platform} (iamService : IAMService.t) (storageProvider : StorageProvider.t).

Lemma readonly_read_sidecar (p : string) : readonly (read_sidecar p).
Proof. unfold read_sidecar. repeat readonly_step. Qed.

Lemma readonly_getObject (bucketName key : string) :
  readonly (StorageProvider.getObject storageProvider bucketName key).
Proof.
  unfold StorageProvider.getObject, not_found_on_ENOENT.
  repeat readonly_step; apply readonly_read_sidecar.
Qed.

#[local] Hint Resolve readonly_read_sidecar readonly_getObject : readonly.

Lemma readonly_downloadObject (bucketName key userId : string)
  (versionId : option uuid) :
  readonly (ObjectService.downloadObject iamService storageProvider bucketName key
              userId versionId).
Proof.
  unfold ObjectService.downloadObject. repeat readonly_step.
Qed.

Lemma readonly_listObjects (bucketName userId : string) (options : Listing.Options) :
  readonly (ObjectService.listObjects iamService bucketName userId options).
Proof. unfold ObjectService.listObjects. repeat readonly_step. Qed.

Lemma readonly_getObjectAcl (bucketName key userId : string) :
  readonly (ObjectService.getObjectAcl iamService bucketName key userId).
Proof. unfold ObjectService.getObjectAcl. repeat readonly_step. Qed.
End ReadOnlyOperations.

Section Steps.
Context `{Platform} (iamService : IAMService.t) (storageProvider : StorageProvider.t).

Lemma holds_versions_condition (bucket : Bucket.t) (key : string) (x : S3Object.t) :
  holds (versions_condition bucket key) x = true
  <-> live x = true /\ S3Object.bucketId x = Bucket.id bucket
      /\ S3Object.key x = key.
Proof.
  unfold holds, versions_condition. simpl.
  rewrite !andb_true_r, !andb_true_iff, Nat.eqb_eq, String.eqb_eq. tauto.
Qed.

Lemma holds_existing_condition (n key : string) (x : S3Object.t) :
  holds (existing_condition n key) x = true
  <-> live x = true /\ S3Object.bucketName x = Some n /\ S3Object.key x = key.
Proof.
  unfold holds, existing_condition. simpl.
  rewrite !andb_true_r, !andb_true_iff, String.eqb_eq.
  destruct (S3Object.bucketName x) as [n'|].
  - rewrite String.eqb_eq. intuition congruence.
  - intuition congruence.
Qed.

Lemma mark_not_latest_evolved (bucket : Bucket.t) (key now : string)
  (x : S3Object.t) :
  evolved x (mark_not_latest bucket key now x).
Proof.
  unfold mark_not_latest. destruct (holds _ x); [|apply evolved_refl].
  repeat split; auto. simpl. discriminate.
Qed.

Lemma uploadObject_step (bucketName key : string) (data : bytes)
  (metadata : Metadata.t) (userId : string) (s : State) :
  catalogue_step s
    (snd (ObjectService.uploadObject iamService storageProvider bucketName key
            data metadata userId s)).
Proof.
  destruct (ObjectService.uploadObject _ _ _ _ _ _ _ s) as [r s'] eqn:Hrun.
  apply uploadObject_effect in Hrun as [Hbuckets Hr]. simpl.
  destruct r as [o|e].
  - destruct Hr as (bucket & Hfound & Hcounter & Hnew & Hrows).
    destruct (Bucket.versioningEnabled bucket) eqn:Hv.
    + apply (row_inserted s s' _ o bucket bucketName key Hbuckets Hcounter Hrows);
        try assumption.
      * apply Forall2_evolved_map. apply mark_not_latest_evolved.
      * rewrite Hv. intros x Hin Hlive Hbid Hkey.
        apply in_map_iff in Hin as (y & <- & _).
        unfold mark_not_latest in *.
        destruct (holds (versions_condition bucket key) y) eqn:Hh; [reflexivity|].
        assert (Hyes : holds (versions_condition bucket key) y = true)
          by (apply holds_versions_condition; auto).
        congruence.
    + destruct Hrows as [Hrows Hnone].
      apply (row_inserted s s' _ o bucket bucketName key Hbuckets Hcounter Hrows);
        try assumption.
      * apply Forall2_evolved_refl.
      * rewrite Hv. intros x Hin Hlive Hname Hkey.
        pose proof (find_none _ _ Hnone x Hin) as Hno.
        assert (Hyes : holds (existing_condition bucketName key) x = true)
          by (apply holds_existing_condition; auto).
        congruence.
  - destruct Hr as [Hcounter [Hrows | (bucket & _ & _ & Hrows)]];
      apply rows_modified; try assumption; rewrite Hrows.
    + apply Forall2_evolved_refl.
    + apply Forall2_evolved_map. apply mark_not_latest_evolved.
Qed.

Lemma destroy_evolved (o : S3Object.t) (now : string) (x : S3Object.t) :
  evolved x
    (if Nat.eqb (S3Object.id x) (S3Object.id o) && live x
     then S3Object.set_deletedAt now x else x).
Proof.
  destruct (_ && _); [|apply evolved_refl].
  repeat split; auto. simpl. unfold live. simpl. discriminate.
Qed.

Lemma delete_each_effect (bucketName key : string) (l : list S3Object.t) :
  forall s r s',
    ObjectService.delete_each storageProvider bucketName key l s = (r, s') ->
    buckets s' = buckets s /\ uuidCounter s' = uuidCounter s
    /\ Forall2 evolved (objects s) (objects s').
Proof.
  induction l as [|obj rest IH]; intros s r s' Hrun; simpl in Hrun.
  - injection Hrun as <- <-. repeat split. apply Forall2_evolved_refl.
  - unfold bind at 1 in Hrun.
    pose proof (files_only_deleteObject storageProvider bucketName key s)
      as (Hb1 & Ho1 & Hc1 & _).
    destruct (StorageProvider.deleteObject storageProvider bucketName key s)
      as [[b|e] s1]; simpl in Hb1, Ho1, Hc1.
    + unfold bind at 1 in Hrun. unfold S3Object_destroy at 1 in Hrun.
      apply IH in Hrun as (IHb & IHc & IHo). simpl in IHb, IHc, IHo.
      repeat split; try congruence.
      eapply Forall2_evolved_trans; [|exact IHo].
      rewrite Ho1. apply Forall2_evolved_map. intros x. apply destroy_evolved.
    + injection Hrun as <- <-. repeat split; try assumption.
      rewrite Ho1. apply Forall2_evolved_refl.
Qed.

Lemma deleteObject_step (bucketName key userId : string) (versionId : option uuid)
  (s : State) :
  catalogue_step s
    (snd (ObjectService.deleteObject iamService storageProvider bucketName key
            userId versionId s)).
Proof.
  unfold ObjectService.deleteObject.
  unfold bind at 1. rewrite Bucket_findOne_run.
  destruct (find_bucket s bucketName) as [bucket|]; [|apply catalogue_step_refl].
  unfold bind at 1. unfold IAMService.checkPermission, ret at 1.
  destruct (denied _); [apply catalogue_step_refl|].
  unfold bind at 1, S3Object_findAll at 1.
  destruct (List.filter _ (objects s)) as [|o rest]; [apply catalogue_step_refl|].
  unfold bind at 1.
  destruct (ObjectService.delete_each _ _ _ _ s) as [r s1] eqn:Hrun.
  apply delete_each_effect in Hrun as (Hb & Hc & Ho).
  destruct r as [u|e]; simpl; apply rows_modified; assumption.
Qed.
Lemma ObjectService_copyObject_step
  (sourceBucket sourceKey destBucket destKey userId : string) (s : State) :
  catalogue_step s
    (snd (ObjectService.copyObject iamService storageProvider sourceBucket
            sourceKey destBucket destKey userId s)).
Proof.
  unfold ObjectService.copyObject.
  unfold bind at 1. rewrite Bucket_findOne_run.
  unfold bind at 1. rewrite Bucket_findOne_run.
  destruct (find_bucket s sourceBucket) as [sourceBucketObj|];
    [|apply catalogue_step_refl].
  destruct (find_bucket s destBucket) as [destBucketObj|];
    [|apply catalogue_step_refl].
  unfold bind at 1. unfold IAMService.checkPermission at 1, ret at 1.
  unfold bind at 1. unfold IAMService.checkPermission at 1, ret at 1.
  destruct (denied _); [apply catalogue_step_refl|].
  destruct (denied _); [apply catalogue_step_refl|].
  unfold bind at 1, S3Object_findOne at 1.
  destruct (find _ (objects s)) as [sourceObj|]; [|apply catalogue_step_refl].
  unfold bind at 1.
  pose proof (readonly_getObject storageProvider sourceBucket sourceKey s) as Hget.
  destruct (StorageProvider.getObject storageProvider sourceBucket sourceKey s)
    as [[sourceData|e] s1]; simpl in Hget; subst s1; [|apply catalogue_step_refl].
  unfold bind at 1, ObjectService.read_all.
  destruct (GetResult.stream sourceData) as [d|c]; simpl;
    [apply uploadObject_step | apply catalogue_step_refl].
Qed.

Lemma objectController_copyObject_step (bucketName key : string)
  (copySource : option string) (userId : string) (s : State) :
  catalogue_step s
    (snd (objectController.copyObject iamService storageProvider bucketName key
            copySource userId s)).
Proof.
  unfold objectController.copyObject.
  destruct (truthy copySource) as [source|]; [|apply catalogue_step_refl].
  destruct (objectController.copySource_match source) as [[sourceBucket sourceKey]|];
    [|apply catalogue_step_refl].
  destruct (_ && _); [apply catalogue_step_refl|].
  unfold try_catch, bind.
  pose proof (ObjectService_copyObject_step sourceBucket sourceKey bucketName key
                userId s) as Hstep.
  destruct (ObjectService.copyObject _ _ _ _ _ _ _ s) as [[o|e] s1]; exact Hstep.
Qed.

Lemma updateObjectAcl_step (bucketName key : string)
  (grants : option (list Grant.t)) (userId : string) (s : State) :
  catalogue_step s
    (snd (ObjectService.updateObjectAcl iamService bucketName key grants userId s)).
Proof.
  unfold ObjectService.updateObjectAcl.
  unfold bind at 1. rewrite Bucket_findOne_run.
  destruct (find_bucket s bucketName) as [bucket|]; [|apply catalogue_step_refl].
  unfold bind at 1. unfold IAMService.checkPermission, ret at 1.
  destruct (denied _); [apply catalogue_step_refl|].
  unfold bind at 1, S3Object_findOne at 1.
  destruct (find _ (objects s)) as [o|]; [|apply catalogue_step_refl].
  destruct grants as [grants|]; [|apply catalogue_step_refl].
  unfold bind, S3Object_update_acl. simpl.
  apply rows_modified; try reflexivity. simpl.
  apply Forall2_evolved_map. intros x.
  destruct (Nat.eqb _ _); [|apply evolved_refl]. repeat split; auto.
Qed.

Lemma createBucket_step (name : string) (region : option string)
  (versioningEnabled : bool) (userId : string) (s : State) :
  catalogue_step s
    (snd (BucketService.createBucket name region versioningEnabled userId s)).
Proof.
  unfold BucketService.createBucket.
  destruct (negb (validateBucketName name)); [apply catalogue_step_refl|].
  unfold bind at 1. rewrite Bucket_findOne_run.
  destruct (find_bucket s name); [apply catalogue_step_refl|].
  unfold Bucket_create.
  destruct (negb _); [apply catalogue_step_refl|].
  destruct (existsb _ (buckets s)); [apply catalogue_step_refl|].
  simpl. eapply bucket_created; reflexivity.
Qed.

Lemma deleteBucket_step (bucketName userId : string) (s : State) :
  catalogue_step s (snd (BucketService.deleteBucket iamService bucketName userId s)).
Proof.
  unfold BucketService.deleteBucket.
  unfold bind at 1. rewrite Bucket_findOne_run.
  destruct (find_bucket s bucketName) as [bucket|]; [|apply catalogue_step_refl].
  unfold bind at 1. unfold IAMService.checkPermission, ret at 1.
  destruct (denied _); [apply catalogue_step_refl|].
  unfold bind at 1, S3Object_count at 1.
  destruct (0 <? _)%nat; [apply catalogue_step_refl|].
  unfold Bucket_destroy. simpl.
  apply buckets_modified; try reflexivity. simpl.
  apply Forall2_bucket_evolved_map. intros b.
  destruct (_ && _); split; reflexivity.
Qed.

Lemma updateBucketVersioning_step (bucketName : string) (enabled : bool)
  (userId : string) (s : State) :
  catalogue_step s
    (snd (BucketService.updateBucketVersioning iamService bucketName enabled
            userId s)).
Proof.
  unfold BucketService.updateBucketVersioning.
  unfold bind at 1. rewrite Bucket_findOne_run.
  destruct (find_bucket s bucketName) as [bucket|]; [|apply catalogue_step_refl].
  unfold bind at 1. unfold IAMService.checkPermission, ret at 1.
  destruct (denied _); [apply catalogue_step_refl|].
  unfold Bucket_save_versioning. simpl.
  apply buckets_modified; try reflexivity. simpl.
  apply Forall2_bucket_evolved_map. intros b.
  destruct (Nat.eqb _ _); split; reflexivity.
Qed.

(** Every request is one step of the catalogue. *)
Lemma serve_step (r : Request) (s : State) :
  catalogue_step s (serve iamService storageProvider r s).
Proof.
  destruct r; simpl.
  - apply createBucket_step.
  - apply deleteBucket_step.
  - apply updateBucketVersioning_step.
  - apply uploadObject_step.
  - rewrite readonly_downloadObject. apply catalogue_step_refl.
  - rewrite readonly_listObjects. apply catalogue_step_refl.
  - apply deleteObject_step.
  - apply objectController_copyObject_step.
  - rewrite readonly_getObjectAcl. apply catalogue_step_refl.
  - apply updateObjectAcl_step.
Qed.
End Steps.


(** ** Invariants of the catalogue *)






(** Identifiers come from the generator, and a row names the bucket that its
    [bucketId] refers to. *)
Record well_formed (s : State) : Prop := {
  wf_rows : forall x, In x (objects s) ->
              S3Object.id x < uuidCounter s /\ S3Object.versionId x < uuidCounter s
              /\ S3Object.bucketId x < uuidCounter s;
  wf_buckets : forall b, In b (buckets s) -> Bucket.id b < uuidCounter s;
  wf_names : forall b b', In b (buckets s) -> In b' (buckets s) ->
               Bucket.id b = Bucket.id b' -> Bucket.name b = Bucket.name b';
  wf_coherent : forall x b, In x (objects s) -> In b (buckets s) ->
                  S3Object.bucketId x = Bucket.id b ->
                  S3Object.bucketName x = Some (Bucket.name b)
}.




Lemma find_bucket_some (s : State) (n : string) (b : Bucket.t) :
  find_bucket s n = Some b -> In b (buckets s) /\ Bucket.name b = n.
Proof.
  unfold find_bucket. intros Hf. apply find_some in Hf as [Hin Hp].
  apply andb_prop in Hp as [_ Hn]. apply String.eqb_eq in Hn. auto.
Qed.

Lemma Forall2_evolved_In (l l' : list S3Object.t) (x' : S3Object.t) :
  Forall2 evolved l l' -> In x' l' -> exists x, In x l /\ evolved x x'.
Proof.
  induction 1 as [|x y l l' Hxy Hl IH]; simpl; [tauto|].
  intros [-> | Hin].
  - exists x. auto.
  - destruct (IH Hin) as (x0 & ? & ?). exists x0. auto.
Qed.

Lemma Forall2_bucket_evolved_In (l l' : list Bucket.t) (b' : Bucket.t) :
  Forall2 bucket_evolved l l' -> In b' l' -> exists b, In b l /\ bucket_evolved b b'.
Proof.
  induction 1 as [|x y l l' Hxy Hl IH]; simpl; [tauto|].
  intros [-> | Hin].
  - exists x. auto.
  - destruct (IH Hin) as (x0 & ? & ?). exists x0. auto.
Qed.







Lemma well_formed_initial (now : string) : well_formed (initial now).
Proof. split; simpl; intros; contradiction. Qed.

Lemma well_formed_step (s s' : State) :
  catalogue_step s s' -> well_formed s -> well_formed s'.
Proof.
  intros Hstep [Hrows Hbuckets Hnames Hcoh]. destruct Hstep as
    [Hb Hc Ho | rows o bucket n key Hb Hc Ho Hev Hfound Hnew _
     | b Ho Hb Hid Hc | Ho Hc Hb].
  - split; rewrite ?Hb, ?Hc.
    + intros x' Hin. destruct (Forall2_evolved_In _ _ _ Ho Hin)
        as (x & Hx & (Hi & _ & Hbid & _ & Hv & _)).
      rewrite Hi, Hv, Hbid. auto.
    + assumption.
    + assumption.
    + intros x' b Hin Hbin Heq.
      destruct (Forall2_evolved_In _ _ _ Ho Hin)
        as (x & Hx & (_ & _ & Hbid & Hn & _)).
      rewrite Hn. apply Hcoh; congruence.
  - apply find_bucket_some in Hfound as [Hbucket Hname].
    destruct Hnew as (Hoid & Hov & _ & Hobid & Hon & _).
    split; rewrite ?Hb, ?Hc, ?Ho.
    + intros x' Hin. apply in_app_or in Hin as [Hin | [<- | []]].
      * destruct (Forall2_evolved_In _ _ _ Hev Hin)
          as (x & Hx & (Hi & _ & Hbid & _ & Hv & _)).
        rewrite Hi, Hv, Hbid. destruct (Hrows x Hx) as (? & ? & ?). lia.
      * rewrite Hoid, Hov, Hobid. specialize (Hbuckets bucket Hbucket). lia.
    + intros b Hin. specialize (Hbuckets b Hin). lia.
    + assumption.
    + intros x' b Hin Hbin Heq. apply in_app_or in Hin as [Hin | [<- | []]].
      * destruct (Forall2_evolved_In _ _ _ Hev Hin)
          as (x & Hx & (_ & _ & Hbid & Hn & _)).
        rewrite Hn. apply Hcoh; congruence.
      * rewrite Hon, <- Hname. f_equal. apply Hnames; congruence.
  - split; rewrite ?Hb, ?Hc, ?Ho.
    + intros x Hin. destruct (Hrows x Hin) as (? & ? & ?). lia.
    + intros b0 Hin. apply in_app_or in Hin as [Hin | [<- | []]].
      * specialize (Hbuckets b0 Hin). lia.
      * lia.
    + intros b1 b2 Hin1 Hin2 Heq.
      apply in_app_or in Hin1 as [Hin1 | [<- | []]];
        apply in_app_or in Hin2 as [Hin2 | [<- | []]]; auto.
      * specialize (Hbuckets b1 Hin1). lia.
      * specialize (Hbuckets b2 Hin2). lia.
    + intros x b0 Hin Hbin Heq. apply in_app_or in Hbin as [Hbin | [<- | []]].
      * auto.
      * destruct (Hrows x Hin) as (_ & _ & ?). lia.
  - split; rewrite ?Hc, ?Ho.
    + assumption.
    + intros b' Hin. destruct (Forall2_bucket_evolved_In _ _ _ Hb Hin)
        as (b & Hbin & (Hi & _)). rewrite Hi. auto.
    + intros b1' b2' Hin1 Hin2 Heq.
      destruct (Forall2_bucket_evolved_In _ _ _ Hb Hin1) as (b1 & ? & (Hi1 & Hn1)).
      destruct (Forall2_bucket_evolved_In _ _ _ Hb Hin2) as (b2 & ? & (Hi2 & Hn2)).
      rewrite Hn1, Hn2. apply Hnames; congruence.
    + intros x b' Hin Hbin Heq.
      destruct (Forall2_bucket_evolved_In _ _ _ Hb Hbin) as (b & ? & (Hi & Hn)).
      rewrite Hn. apply Hcoh; congruence.
Qed.



(** ** Reachable states *)

Section Reachable.
Context `{Platform} (iamService : IAMService.t) (storageProvider : StorageProvider.t).

(** The states between requests: the initial one, and the state after each
    request served from such a state. *)
Inductive reachable : State -> Prop :=
| reachable_initial (now : string) : reachable (initial now)
| reachable_serve (s : State) (r : Request) :
    reachable s -> reachable (serve iamService storageProvider r s).



Lemma reachable_serve_all (rs : list Request) :
  forall s, reachable s -> reachable (serve_all iamService storageProvider rs s).
Proof.
  induction rs as [|r rs IH]; intros s Hs; simpl; [assumption|].
  apply IH. apply reachable_serve. assumption.
Qed.


Lemma reachable_well_formed (s : State) : reachable s -> well_formed s.
Proof.
  induction 1 as [now|s r Hs IH]; [apply well_formed_initial|].
  eapply well_formed_step; [apply serve_step | assumption].
Qed.




End Reachable.

(** ** One row per key without versioning *)






(** The second upload of a key into a bucket without versioning finds the
    row of the first one and calls [storageProvider.delete]: it throws, after
    the new bytes were written, and the catalogue keeps the old row. *)
Lemma reupload_without_versioning_throws :
  let run :=
    @ObjectService.uploadObject reference_platform simulated_iamService
      default_storage "my-bucket" "a.txt" (text "again") Metadata.empty
      "admin-user" unversioned_demo in
  existsb (String.eqb "delete") StorageProvider.methods = false
  /\ fst run = Throw (TypeError "storageProvider.delete is not a function")
  /\ objects (snd run) = objects unversioned_demo
  /\ @stream_at reference_platform (files (snd run)) "storage/my-bucket/a.txt"
     = StreamOf (text "again").
Proof. vm_compute. repeat split. Qed.

(** ** The latest version *)






(** * Further properties *)

(** ** Who the simulated identity service lets through *)

(** The action that [IAMClient.checkPermission] evaluates the policies on. *)
Definition s3Action (action : string) : string :=
  if startsWith action "s3:" then action else "s3:" +:+ action.

Lemma s3Action_prefixed (action : string) : startsWith (s3Action action) "s3:" = true.
Proof.
  unfold s3Action. destruct (startsWith action "s3:") eqn:E; [exact E|].
  apply startsWith_iff. exists action. reflexivity.
Qed.

Lemma substitute_scan_head (userId rest : string) (c : ascii) :
  c <> "$"%char ->
  IAMClient.substitute_scan userId (String c rest) None
  = String c (IAMClient.substitute_scan userId rest None).
Proof.
  intros Hc. simpl. destruct rest as [|d rest']; [reflexivity|].
  replace (Ascii.eqb c "$"%char) with false; [reflexivity|].
  symmetry. apply Ascii.eqb_neq. exact Hc.
Qed.

Lemma substitute_scan_plain (userId str : string) :
  ~ In "$"%char (list_ascii_of_string str) ->
  IAMClient.substitute_scan userId str None = str.
Proof.
  induction str as [|c str IH]; intros Hno; [reflexivity|].
  rewrite substitute_scan_head.
  - rewrite IH; [reflexivity|]. intros Hin. apply Hno. right. exact Hin.
  - intros ->. apply Hno. left. reflexivity.
Qed.

(** A pattern and a request that differ in their first character. *)
Lemma matches_pattern_head (c c' : ascii) (pattern request : string) :
  c <> c' -> c <> "*"%char ->
  IAMClient.matches_pattern (String c pattern) (String c' request) = false.
Proof.
  intros Hcc Hstar. unfold IAMClient.matches_pattern.
  assert (E1 : Ascii.eqb c "*"%char = false) by (apply Ascii.eqb_neq; exact Hstar).
  assert (E2 : Ascii.eqb c c' = false) by (apply Ascii.eqb_neq; exact Hcc).
  assert (E3 : Ascii.eqb c' c = false) by (apply Ascii.eqb_neq; congruence).
  replace (String.eqb (String c pattern) "*") with false
    by (simpl; rewrite E1; reflexivity).
  replace (String.eqb (String c pattern) (String c' request)) with false
    by (simpl; rewrite E2; reflexivity).
  simpl orb. destruct pattern as [|d pattern].
  - simpl. rewrite E1. reflexivity.
  - change (slice_0_minus1 (String c (String d pattern)))
      with (String c (slice_0_minus1 (String d pattern))).
    simpl startsWith. rewrite E3. apply andb_false_r.
Qed.

Lemma matches_pattern_empty_request (c : ascii) (pattern : string) :
  c <> "*"%char -> pattern <> "" ->
  IAMClient.matches_pattern (String c pattern) "" = false.
Proof.
  intros Hstar Hp. unfold IAMClient.matches_pattern.
  assert (E1 : Ascii.eqb c "*"%char = false) by (apply Ascii.eqb_neq; exact Hstar).
  replace (String.eqb (String c pattern) "*") with false
    by (simpl; rewrite E1; reflexivity).
  simpl orb. destruct pattern as [|d pattern]; [congruence|].
  change (slice_0_minus1 (String c (String d pattern)))
    with (String c (slice_0_minus1 (String d pattern))).
  simpl startsWith. apply andb_false_r.
Qed.

(** A pattern without a star at its end matches its own text only. *)
Lemma matches_pattern_exact (pattern request : string) :
  pattern <> "*" -> endsWith_star pattern = false ->
  IAMClient.matches_pattern pattern request = String.eqb pattern request.
Proof.
  intros Hp Hstar. unfold IAMClient.matches_pattern. rewrite Hstar.
  replace (String.eqb pattern "*") with false
    by (symmetry; apply String.eqb_neq; exact Hp).
  simpl. apply orb_false_r.
Qed.

(** The resource of the second statement of the policy of [UserRole], after
    the variables are substituted, still begins with the letter [a]. *)
Lemma own_resource_head (userId : string) :
  exists rest,
    IAMClient._substituteVariables ("arn:aws:s3:::" +:+ userId +:+ "/*") userId
    = String "a"%char (String "r"%char rest).
Proof.
  unfold IAMClient._substituteVariables.
  change ("arn:aws:s3:::" +:+ userId +:+ "/*")
    with (String "a"%char (String "r"%char ("n:aws:s3:::" +:+ userId +:+ "/*"))).
  rewrite !substitute_scan_head by discriminate. eauto.
Qed.

Lemma own_resource_mismatch (userId resource : string) :
  startsWith resource "a" = false ->
  IAMClient._checkResourceMatch ["arn:aws:s3:::" +:+ userId +:+ "/*"] resource userId
  = false.
Proof.
  intros Hr. unfold IAMClient._checkResourceMatch. simpl existsb.
  destruct (own_resource_head userId) as [rest ->]. rewrite orb_false_r.
  destruct resource as [|c resource].
  - apply matches_pattern_empty_request; [intros E; discriminate E|intros E; discriminate E].
  - apply matches_pattern_head; [|intros E; discriminate E].
    intros <-.
    assert (Hyes : startsWith (String "a"%char resource) "a" = true)
      by (apply startsWith_iff; exists resource; reflexivity).
    congruence.
Qed.

Lemma action_names_mismatch (names : list string) (requestAction : string) :
  Forall (fun n => n <> "*" /\ endsWith_star n = false) names ->
  ~ In requestAction names ->
  IAMClient._checkActionMatch names requestAction = false.
Proof.
  unfold IAMClient._checkActionMatch. induction 1 as [|n names [Hn Hstar] _ IH];
    intros Hnot; [reflexivity|].
  simpl. rewrite matches_pattern_exact by assumption.
  replace (String.eqb n requestAction) with false.
  - apply IH. intros Hin. apply Hnot. right. exact Hin.
  - symmetry. apply String.eqb_neq. intros ->. apply Hnot. left. reflexivity.
Qed.

Lemma action_names_match (names : list string) (requestAction : string) :
  Forall (fun n => n <> "*" /\ endsWith_star n = false) names ->
  IAMClient._checkActionMatch names requestAction = true <-> In requestAction names.
Proof.
  intros Hnames. split.
  - intros Hmatch. destruct (in_dec String.string_dec requestAction names) as [?|Hnot];
      [assumption|].
    rewrite (action_names_mismatch names requestAction Hnames Hnot) in Hmatch.
    discriminate Hmatch.
  - unfold IAMClient._checkActionMatch. intros Hin. apply existsb_exists.
    exists requestAction. split; [exact Hin|].
    rewrite List.Forall_forall in Hnames. destruct (Hnames _ Hin) as [Hn Hstar].
    rewrite matches_pattern_exact by assumption. apply String.eqb_refl.
Qed.

(** The statements of the policies of a user that is no administrator. *)
Definition userRole_statements (userId : string)
  : list (string * IAMClient.Statement) :=
  [("S3UserAccess",
    IAMClient.mkStatement "Allow" ["s3:ListBuckets"; "s3:CreateBucket"] ["*"]);
   ("S3UserAccess",
    IAMClient.mkStatement "Allow" ["s3:*"] ["arn:aws:s3:::" +:+ userId +:+ "/*"])].

Definition readOnlyRole_statements : list (string * IAMClient.Statement) :=
  [("S3ReadOnly",
    IAMClient.mkStatement "Allow"
      ["s3:GetObject"; "s3:ListBuckets"; "s3:ListObjects"] ["*"])].

Ltac plain_names :=
  repeat (constructor; [split; [discriminate | reflexivity]|]); constructor.

(** The four ways a check of a user that is no administrator can go. *)
Lemma checkPermission_cases (userId action resource : string) (context : Context) :
  IAMClient.is_admin userId = false ->
  (IAMClient.inherited_property userId = true
   /\ userId <> "test-user-123" /\ userId <> "readonly-user"
   /\ IAMService.answer simulated_iamService userId action resource context
      = Some (IAMClient.service_error (TypeError "roles.forEach is not a function")))
  \/ exists stmts,
       (userId = "readonly-user" /\ stmts = readOnlyRole_statements
        \/ userId <> "readonly-user" /\ stmts = userRole_statements userId)
       /\ IAMService.answer simulated_iamService userId action resource context
          = match IAMClient.first_match userId (s3Action action) resource stmts with
            | Some (pname, st) =>
                let allowed := String.eqb (IAMClient.Effect st) "Allow" in
                Some (Decision.mk allowed (Some pname)
                        (if allowed then "Permission granted by policy"
                         else "Permission denied by policy") None)
            | None => Some (Decision.mk false None "No matching policy found" None)
            end.
Proof.
  intros Hadmin.
  unfold IAMService.answer, simulated_iamService, IAMService.client,
    IAMClient.checkPermission, IAMClient.getUserPolicies, IAMClient.getUserRoles.
  rewrite Hadmin. fold (s3Action action).
  destruct (String.eqb userId "test-user-123") eqn:Etest.
  { apply String.eqb_eq in Etest. subst userId. right.
    exists (userRole_statements "test-user-123"). split; [right; split; [discriminate|reflexivity]|].
    simpl flat_map.
    destruct (IAMClient.first_match _ _ _ _) as [[pname st]|]; reflexivity. }
  destruct (String.eqb userId "readonly-user") eqn:Ero.
  { apply String.eqb_eq in Ero. subst userId. right.
    exists readOnlyRole_statements. split; [left; split; reflexivity|].
    simpl flat_map.
    destruct (IAMClient.first_match _ _ _ _) as [[pname st]|]; reflexivity. }
  apply String.eqb_neq in Etest, Ero.
  destruct (IAMClient.inherited_property userId) eqn:Einh.
  { left. repeat split; assumption. }
  right. exists (userRole_statements userId). split; [right; split; [assumption|reflexivity]|].
  simpl flat_map.
  destruct (IAMClient.first_match _ _ _ _) as [[pname st]|]; reflexivity.
Qed.

(** A user that is no administrator is denied a check for a resource whose
    name does not begin with [a] and an action that no policy names. *)
Lemma others_denied (userId action resource : string) (context : Context) :
  IAMClient.is_admin userId = false ->
  startsWith resource "a" = false ->
  ~ In (s3Action action)
      ["s3:ListBuckets"; "s3:CreateBucket"; "s3:GetObject"; "s3:ListObjects"] ->
  denied (IAMService.answer simulated_iamService userId action resource context)
  = true.
Proof.
  intros Hadmin Hresource Haction.
  destruct (checkPermission_cases userId action resource context Hadmin)
    as [(_ & _ & _ & ->) | (stmts & Hstmts & ->)]; [reflexivity|].
  replace (IAMClient.first_match userId (s3Action action) resource stmts)
    with (@None (string * IAMClient.Statement)); [reflexivity|].
  symmetry. destruct Hstmts as [[_ ->] | [_ ->]].
  - unfold readOnlyRole_statements.
    cbn [IAMClient.first_match IAMClient.Action IAMClient.Resource].
    rewrite action_names_mismatch; [reflexivity | plain_names |].
    simpl in *. tauto.
  - unfold userRole_statements.
    cbn [IAMClient.first_match IAMClient.Action IAMClient.Resource].
    rewrite action_names_mismatch; [| plain_names | simpl in *; tauto].
    rewrite own_resource_mismatch by assumption.
    rewrite andb_false_r. reflexivity.
Qed.

Lemma administrators_allowed (userId action resource : string) (context : Context) :
  IAMClient.is_admin userId = true ->
  IAMService.answer simulated_iamService userId action resource context
  = Some (Decision.mk true (Some "AdminPolicy") "Administrative access granted" None).
Proof.
  intros Hadmin.
  unfold IAMService.answer, simulated_iamService, IAMService.client,
    IAMClient.checkPermission, IAMClient.getUserPolicies, IAMClient.getUserRoles.
  rewrite Hadmin. reflexivity.
Qed.

(** X1: for a resource whose name does not begin with the letter [a] (the
    services and the routes ask for [bucket], [object], [logs], [metrics]
    and the star) and an action that is none of [ListBuckets],
    [CreateBucket], [GetObject] and [ListObjects] (they ask for [create],
    [list], [read], [write], [delete] and [admin:*]), the simulated identity
    service denies everybody but the three administrators. *)
Theorem only_administrators_pass (userId action resource : string)
  (context : Context) :
  startsWith resource "a" = false ->
  ~ In (s3Action action)
      ["s3:ListBuckets"; "s3:CreateBucket"; "s3:GetObject"; "s3:ListObjects"] ->
  denied (IAMService.answer simulated_iamService userId action resource context)
  = negb (IAMClient.is_admin userId).
Proof.
  intros Hresource Haction.
  destruct (IAMClient.is_admin userId) eqn:Hadmin.
  - rewrite administrators_allowed by assumption. reflexivity.
  - simpl. apply others_denied; assumption.
Qed.

Lemma only_administrators_pass_witness :
  denied (IAMService.answer simulated_iamService "alice" "write" "object"
            (ContextText "my-bucket/a.txt")) = true
  /\ denied (IAMService.answer simulated_iamService "readonly-user" "read" "object"
               (ContextText "my-bucket/a.txt")) = true
  /\ denied (IAMService.answer simulated_iamService "admin-123" "delete" "bucket"
               (ContextText "my-bucket")) = false.
Proof.
  split; [|split].
  - apply (only_administrators_pass "alice" "write" "object"
             (ContextText "my-bucket/a.txt")); [reflexivity|].
    simpl. intuition discriminate.
  - apply (only_administrators_pass "readonly-user" "read" "object"
             (ContextText "my-bucket/a.txt")); [reflexivity|].
    simpl. intuition discriminate.
  - apply (only_administrators_pass "admin-123" "delete" "bucket"
             (ContextText "my-bucket")); [reflexivity|].
    simpl. intuition discriminate.
Defined.

Lemma endsWith_star_append (a : string) : endsWith_star (a +:+ "*") = true.
Proof.
  induction a as [|c a IH]; [reflexivity|].
  destruct a as [|d a]; [reflexivity | exact IH].
Qed.

Lemma slice_0_minus1_cons (d : ascii) (rest : string) :
  rest <> "" -> slice_0_minus1 (String d rest) = String d (slice_0_minus1 rest).
Proof. destruct rest; [congruence | reflexivity]. Qed.

Lemma slice_0_minus1_append (a : string) (c : ascii) :
  slice_0_minus1 (a +:+ String c EmptyString) = a.
Proof.
  induction a as [|d a IH]; [reflexivity|].
  change (String d a +:+ String c EmptyString)
    with (String d (a +:+ String c EmptyString)).
  rewrite slice_0_minus1_cons, IH; [reflexivity|].
  destruct a; discriminate.
Qed.

(** A pattern that ends in a star matches the requests that begin with the
    text before the star. *)
Lemma matches_pattern_star_suffix (prefix request : string) :
  prefix <> "" ->
  IAMClient.matches_pattern (prefix +:+ "*") request = startsWith request prefix.
Proof.
  intros Hp. unfold IAMClient.matches_pattern.
  rewrite endsWith_star_append, slice_0_minus1_append.
  replace (String.eqb (prefix +:+ "*") "*") with false.
  - simpl. destruct (String.eqb (prefix +:+ "*") request) eqn:E; [|reflexivity].
    apply String.eqb_eq in E. subst request. simpl. symmetry.
    apply startsWith_iff. eauto.
  - symmetry. apply String.eqb_neq. intros E.
    apply (f_equal String.length) in E. rewrite length_append in E. simpl in E.
    destruct prefix; [congruence | simpl in E; lia].
Qed.

Lemma append_associative (a b c : string) : (a +:+ b) +:+ c = a +:+ (b +:+ c).
Proof.
  induction a as [|x a IH]; [reflexivity|].
  change (String x ((a +:+ b) +:+ c) = String x (a +:+ (b +:+ c))).
  f_equal. exact IH.
Qed.

Lemma own_resource_pattern (userId : string) :
  "arn:aws:s3:::" +:+ userId +:+ "/*" = ("arn:aws:s3:::" +:+ userId +:+ "/") +:+ "*".
Proof. rewrite !append_associative. reflexivity. Qed.

Lemma own_resource_match (userId resource : string) :
  ~ In "$"%char (list_ascii_of_string userId) ->
  IAMClient._checkResourceMatch ["arn:aws:s3:::" +:+ userId +:+ "/*"] resource userId
  = startsWith resource ("arn:aws:s3:::" +:+ userId +:+ "/").
Proof.
  intros Hplain. unfold IAMClient._checkResourceMatch. simpl existsb.
  rewrite orb_false_r. unfold IAMClient._substituteVariables.
  rewrite substitute_scan_plain.
  - rewrite own_resource_pattern. apply matches_pattern_star_suffix. discriminate.
  - rewrite !list_ascii_of_append. intros Hin.
    apply in_app_or in Hin as [Hin | Hin].
    + simpl in Hin. intuition discriminate.
    + apply in_app_or in Hin as [Hin | Hin]; [tauto|].
      simpl in Hin. intuition discriminate.
Qed.

Lemma any_resource_match (resource userId : string) :
  IAMClient._checkResourceMatch ["*"] resource userId = true.
Proof. reflexivity. Qed.

Lemma any_s3_action_match (action : string) :
  IAMClient._checkActionMatch ["s3:*"] (s3Action action) = true.
Proof.
  unfold IAMClient._checkActionMatch. simpl existsb. rewrite orb_false_r.
  change "s3:*" with ("s3:" +:+ "*").
  rewrite matches_pattern_star_suffix by discriminate.
  apply s3Action_prefixed.
Qed.

(** X2: a user with the standard role (any id that is not listed otherwise)
    whose id holds no dollar sign is allowed to list and to create buckets,
    on any resource, and to do anything on the resources whose name begins
    with [arn:aws:s3:::], the id and a slash; every other check is denied. *)
Theorem standard_user_permissions (userId action resource : string)
  (context : Context) :
  IAMClient.getUserRoles userId = Some ["UserRole"] ->
  ~ In "$"%char (list_ascii_of_string userId) ->
  denied (IAMService.answer simulated_iamService userId action resource context)
  = false
  <-> (s3Action action = "s3:ListBuckets" \/ s3Action action = "s3:CreateBucket"
       \/ startsWith resource ("arn:aws:s3:::" +:+ userId +:+ "/") = true).
Proof.
  intros Hroles Hplain.
  assert (Hadmin : IAMClient.is_admin userId = false).
  { unfold IAMClient.getUserRoles in Hroles.
    destruct (IAMClient.is_admin userId); [discriminate Hroles | reflexivity]. }
  destruct (checkPermission_cases userId action resource context Hadmin)
    as [(Hinh & Htest & Hro & _) | (stmts & [[-> _] | [_ ->]] & ->)].
  - unfold IAMClient.getUserRoles in Hroles. rewrite Hadmin, Hinh in Hroles.
    apply String.eqb_neq in Htest, Hro. rewrite Htest, Hro in Hroles.
    discriminate Hroles.
  - discriminate Hroles.
  - unfold userRole_statements.
    cbn [IAMClient.first_match IAMClient.Action IAMClient.Resource].
    rewrite any_resource_match, andb_true_r, any_s3_action_match, andb_true_l.
    rewrite own_resource_match by assumption.
    destruct (IAMClient._checkActionMatch _ (s3Action action)) eqn:Hfirst.
    + apply action_names_match in Hfirst; [|plain_names].
      simpl in Hfirst. simpl. split; [intros _|reflexivity].
      destruct Hfirst as [<- | [<- | []]]; auto.
    + destruct (startsWith resource _) eqn:Hown; simpl.
      * split; auto.
      * split; [discriminate|]. intros [Ha | [Ha | Ho]]; [| |discriminate Ho].
        -- assert (Hyes : IAMClient._checkActionMatch
                            ["s3:ListBuckets"; "s3:CreateBucket"] (s3Action action)
                          = true)
             by (apply action_names_match; [plain_names | rewrite Ha; simpl; auto]).
           congruence.
        -- assert (Hyes : IAMClient._checkActionMatch
                            ["s3:ListBuckets"; "s3:CreateBucket"] (s3Action action)
                          = true)
             by (apply action_names_match; [plain_names | rewrite Ha; simpl; auto]).
           congruence.
Qed.

Lemma standard_user_permissions_witness :
  denied (IAMService.answer simulated_iamService "alice" "s3:PutObject"
            "arn:aws:s3:::alice/photos/cat.png" NoContext) = false
  /\ denied (IAMService.answer simulated_iamService "alice" "CreateBucket"
               "bucket" NoContext) = false.
Proof.
  split.
  - apply (standard_user_permissions "alice" "s3:PutObject"
             "arn:aws:s3:::alice/photos/cat.png" NoContext); [reflexivity| |].
    + simpl. intuition discriminate.
    + right. right. reflexivity.
  - apply (standard_user_permissions "alice" "CreateBucket" "bucket" NoContext);
      [reflexivity| |].
    + simpl. intuition discriminate.
    + right. left. reflexivity.
Defined.

(** X3: the user [readonly-user] is allowed the actions [GetObject],
    [ListBuckets] and [ListObjects], on any resource, and nothing else; in
    particular none of the actions [read], [write] and [delete] that the
    services ask for. *)
Theorem readonly_user_permissions (action resource : string) (context : Context) :
  denied (IAMService.answer simulated_iamService "readonly-user" action resource
            context) = false
  <-> In (s3Action action) ["s3:GetObject"; "s3:ListBuckets"; "s3:ListObjects"].
Proof.
  destruct (checkPermission_cases "readonly-user" action resource context eq_refl)
    as [(_ & _ & Hro & _) | (stmts & [[_ ->] | [Hro _]] & ->)];
    [congruence | | congruence].
  unfold readOnlyRole_statements.
  cbn [IAMClient.first_match IAMClient.Action IAMClient.Resource].
  rewrite any_resource_match, andb_true_r.
  rewrite <- (action_names_match
                ["s3:GetObject"; "s3:ListBuckets"; "s3:ListObjects"]
                (s3Action action)) by plain_names.
  destruct (IAMClient._checkActionMatch _ (s3Action action)); simpl;
    split; congruence.
Qed.

(** ** The authorization middleware *)


(** A text without a colon holds no [:name]. *)
Lemma replace_scan_no_colon (key replacement : string) :
  forall str before,
    ~ In ":"%char (list_ascii_of_string str) ->
    AuthorizationMiddleware.replace_scan (":" +:+ key) replacement before str 0 = str.
Proof.
  induction str as [|c str IH]; intros before Hno; [reflexivity|].
  cbn [AuthorizationMiddleware.replace_scan].
  replace (startsWith (String c str) (":" +:+ key)) with false.
  - rewrite IH; [reflexivity|]. intros Hin. apply Hno. right. exact Hin.
  - symmetry. change (":" +:+ key) with (String ":"%char key). simpl.
    replace (Ascii.eqb c ":"%char) with false; [reflexivity|].
    symmetry. apply Ascii.eqb_neq. intros ->. apply Hno. left. reflexivity.
Qed.

Lemma substituteParams_no_colon (resource : string) (params : list (string * string)) :
  ~ In ":"%char (list_ascii_of_string resource) ->
  AuthorizationMiddleware.substituteParams resource params = resource.
Proof.
  intros Hno. unfold AuthorizationMiddleware.substituteParams.
  induction params as [|[key value] params IH]; [reflexivity|].
  simpl. rewrite replace_scan_no_colon by assumption. exact IH.
Qed.


(** X5: on the routes, where the resource is a plain word without a colon
    ([bucket], [object], [logs], [metrics]) and the action one of [create],
    [list], [read], [write] and [delete], the middleware lets the three
    administrators through and answers everybody else with 403, whatever
    the URL parameters are. *)
Theorem routes_let_administrators_only (action resource userId : string)
  (params : list (string * string)) (ip userAgent : string) (s : State) :
  ~ In ":"%char (list_ascii_of_string resource) ->
  startsWith resource "a" = false ->
  ~ In (s3Action action)
      ["s3:ListBuckets"; "s3:CreateBucket"; "s3:GetObject"; "s3:ListObjects"] ->
  exists reply,
    AuthorizationMiddleware.requirePermission simulated_iamService action
      (AuthorizationMiddleware.ResourceText resource) (Some userId) params ip
      userAgent s = (Return reply, s)
    /\ (IAMClient.is_admin userId = true ->
        exists d, reply = AuthorizationMiddleware.Next action resource
                            (Some "AdminPolicy") d)
    /\ (IAMClient.is_admin userId = false ->
        exists message,
          reply = AuthorizationMiddleware.Respond 403 "Forbidden" message
                    "PERMISSION_DENIED" (Some (action, resource))).
Proof.
  intros Hcolon Hresource Haction.
  unfold AuthorizationMiddleware.requirePermission.
  rewrite substituteParams_no_colon by assumption.
  unfold bind at 1, get_state at 1. unfold bind at 1.
  unfold IAMService.checkPermission, ret at 1.
  destruct (IAMClient.is_admin userId) eqn:Hadmin.
  - rewrite administrators_allowed by assumption. simpl.
    eexists. split; [reflexivity|]. split; [eauto | discriminate].
  - pose proof (others_denied userId action resource
                  (ContextRequest ip userAgent (clock s)) Hadmin Hresource Haction)
      as Hdenied.
    destruct (IAMService.answer simulated_iamService userId action resource _)
      as [d|] eqn:Hanswer.
    + simpl in Hdenied. rewrite Hdenied. simpl.
      eexists. split; [reflexivity|]. split; [discriminate | eauto].
    + exfalso. unfold IAMService.answer, simulated_iamService, IAMService.client,
        IAMClient.checkPermission in Hanswer.
      destruct (IAMClient.getUserPolicies userId); [|discriminate Hanswer].
      rewrite Hadmin in Hanswer.
      destruct (IAMClient.first_match _ _ _ _) as [[pname st]|];
        discriminate Hanswer.
Qed.

Lemma routes_let_administrators_only_witness :
  exists reply,
    AuthorizationMiddleware.requirePermission simulated_iamService "write"
      (AuthorizationMiddleware.ResourceText "object") (Some "alice")
      [("bucketName", "my-bucket"); ("key", "a.txt")] "10.0.0.1" "curl/8.0"
      (initial demo_clock) = (Return reply, initial demo_clock)
    /\ exists message,
         reply = AuthorizationMiddleware.Respond 403 "Forbidden" message
                   "PERMISSION_DENIED" (Some ("write", "object")).
Proof.
  destruct (routes_let_administrators_only "write" "object" "alice"
              [("bucketName", "my-bucket"); ("key", "a.txt")] "10.0.0.1" "curl/8.0"
              (initial demo_clock))
    as (reply & Hrun & _ & Hothers).
  - simpl. intuition discriminate.
  - reflexivity.
  - simpl. intuition discriminate.
  - exists reply. split; [exact Hrun|]. apply Hothers. reflexivity.
Defined.

(** ** What the services do for a user that is no administrator *)

(** The user on whose behalf a request is made. *)
Definition requester (r : Request) : string :=
  match r with
  | CreateBucket _ _ _ userId => userId
  | DeleteBucket _ userId => userId
  | UpdateBucketVersioning _ _ userId => userId
  | UploadObject _ _ _ _ userId => userId
  | DownloadObject _ _ userId _ => userId
  | ListObjects _ userId _ => userId
  | DeleteObject _ _ userId _ => userId
  | CopyObject _ _ _ userId => userId
  | GetObjectAcl _ _ userId => userId
  | UpdateObjectAcl _ _ _ userId => userId
  end.

Definition creates_bucket (r : Request) : bool :=
  match r with
  | CreateBucket _ _ _ _ => true
  | _ => false
  end.

Lemma service_check_denied (userId action resource : string) (context : Context) :
  IAMClient.is_admin userId = false ->
  In action ["read"; "write"; "delete"] -> In resource ["object"; "bucket"] ->
  denied (IAMService.answer simulated_iamService userId action resource context)
  = true.
Proof.
  intros Hadmin Haction Hresource. apply others_denied; [assumption | |].
  - simpl in Hresource. destruct Hresource as [<- | [<- | []]]; reflexivity.
  - simpl in Haction. destruct Haction as [<- | [<- | [<- | []]]];
      simpl; intuition discriminate.
Qed.

Ltac deny_check Hadmin :=
  unfold bind at 1; unfold IAMService.checkPermission, ret at 1;
  rewrite (service_check_denied _ _ _ _ Hadmin) by (simpl; auto).

Section Denied.
Context `{Platform} (storageProvider : StorageProvider.t).

Lemma ObjectService_copyObject_denied
  (sourceBucket sourceKey destBucket destKey userId : string) (s : State) :
  IAMClient.is_admin userId = false ->
  snd (ObjectService.copyObject simulated_iamService storageProvider sourceBucket
         sourceKey destBucket destKey userId s) = s.
Proof.
  intros Hadmin. unfold ObjectService.copyObject.
  unfold bind at 1. rewrite Bucket_findOne_run.
  unfold bind at 1. rewrite Bucket_findOne_run.
  destruct (find_bucket s sourceBucket) as [sourceBucketObj|]; [|reflexivity].
  destruct (find_bucket s destBucket) as [destBucketObj|]; [|reflexivity].
  deny_check Hadmin. unfold bind at 1. unfold IAMService.checkPermission, ret at 1.
  reflexivity.
Qed.

(** X6: a request other than [createBucket] made for a user that is not one
    of the three administrators leaves the catalogue, the files and the
    audit log exactly as they were. *)
Theorem non_administrators_change_nothing (r : Request) (s : State) :
  IAMClient.is_admin (requester r) = false ->
  creates_bucket r = false ->
  serve simulated_iamService storageProvider r s = s.
Proof.
  intros Hadmin Hcreate.
  destruct r as [name region v userId | b userId | b enabled userId
                 | b k data metadata userId | b k userId v | b userId options
                 | b k userId v | b k copySource userId | b k userId
                 | b k grants userId]; simpl in Hadmin, Hcreate; simpl.
  - discriminate Hcreate.
  - unfold BucketService.deleteBucket.
    unfold bind at 1. rewrite Bucket_findOne_run.
    destruct (find_bucket s b); [|reflexivity]. deny_check Hadmin. reflexivity.
  - unfold BucketService.updateBucketVersioning.
    unfold bind at 1. rewrite Bucket_findOne_run.
    destruct (find_bucket s b); [|reflexivity]. deny_check Hadmin. reflexivity.
  - unfold ObjectService.uploadObject.
    unfold bind at 1. rewrite Bucket_findOne_run.
    destruct (find_bucket s b); [|reflexivity]. deny_check Hadmin. reflexivity.
  - apply readonly_downloadObject.
  - apply readonly_listObjects.
  - unfold ObjectService.deleteObject.
    unfold bind at 1. rewrite Bucket_findOne_run.
    destruct (find_bucket s b); [|reflexivity]. deny_check Hadmin. reflexivity.
  - unfold objectController.copyObject.
    destruct (truthy copySource) as [source|]; [|reflexivity].
    destruct (objectController.copySource_match source) as [[sourceBucket sourceKey]|];
      [|reflexivity].
    destruct (_ && _); [reflexivity|].
    unfold try_catch, bind.
    pose proof (ObjectService_copyObject_denied sourceBucket sourceKey b k userId s
                  Hadmin) as Hcopy.
    destruct (ObjectService.copyObject _ _ _ _ _ _ _ s) as [[o|e] s1]; exact Hcopy.
  - apply readonly_getObjectAcl.
  - unfold ObjectService.updateObjectAcl.
    unfold bind at 1. rewrite Bucket_findOne_run.
    destruct (find_bucket s b); [|reflexivity]. deny_check Hadmin. reflexivity.
Qed.
End Denied.

Lemma non_administrators_change_nothing_witness :
  @serve reference_platform simulated_iamService default_storage
    (DeleteObject "my-bucket" "a.txt" "alice" None) unversioned_demo
  = unversioned_demo.
Proof.
  apply (@non_administrators_change_nothing reference_platform default_storage
           (DeleteObject "my-bucket" "a.txt" "alice" None) unversioned_demo);
    reflexivity.
Defined.

(** ** The audit log *)

(** A computation that leaves the audit log as it found it. *)
Definition keeps_logs {A : Type} (m : M A) : Prop :=
  forall s, accessLogs (snd (m s)) = accessLogs s.

Lemma keeps_logs_ret {A : Type} (a : A) : keeps_logs (ret a).
Proof. intros s. reflexivity. Qed.

Lemma keeps_logs_throw {A : Type} (e : Exn) : keeps_logs (@throw A e).
Proof. intros s. reflexivity. Qed.

Lemma keeps_logs_bind {A B : Type} (m : M A) (k : A -> M B) :
  keeps_logs m -> (forall a, keeps_logs (k a)) -> keeps_logs (bind m k).
Proof.
  intros Hm Hk s. unfold bind. specialize (Hm s).
  destruct (m s) as [[a|e] s1]; simpl in *; [|assumption].
  rewrite Hk. assumption.
Qed.

Lemma keeps_logs_try_catch {A : Type} (m : M A) (h : Exn -> M A) :
  keeps_logs m -> (forall e, keeps_logs (h e)) -> keeps_logs (try_catch m h).
Proof.
  intros Hm Hh s. unfold try_catch. specialize (Hm s).
  destruct (m s) as [[a|e] s1]; simpl in *; [assumption|].
  rewrite Hh. assumption.
Qed.

Lemma keeps_logs_readonly {A : Type} (m : M A) : readonly m -> keeps_logs m.
Proof. intros Hm s. rewrite Hm. reflexivity. Qed.

Lemma keeps_logs_files_only {A : Type} (m : M A) :
  (forall s, exists f, snd (m s) = set_files f s) -> keeps_logs m.
Proof. intros Hm s. destruct (Hm s) as [f ->]. reflexivity. Qed.

Lemma keeps_logs_fs_writeFile (p : string) (c : FileContent) :
  keeps_logs (fs_writeFile p c).
Proof.
  intros s. unfold fs_writeFile. destruct (files s !! p) as [[c'|]|]; reflexivity.
Qed.

Lemma keeps_logs_fs_unlink (p : string) : keeps_logs (fs_unlink p).
Proof.
  intros s. unfold fs_unlink. destruct (files s !! p) as [[c|]|]; reflexivity.
Qed.

Lemma keeps_logs_fs_mkdir_recursive (p : string) : keeps_logs (fs_mkdir_recursive p).
Proof.
  intros s. unfold fs_mkdir_recursive.
  destruct (files s !! p) as [[c|]|]; reflexivity.
Qed.

Lemma keeps_logs_fs_access (p : string) : keeps_logs (fs_access p).
Proof. apply keeps_logs_readonly, readonly_fs_access. Qed.

Lemma keeps_logs_get_state : keeps_logs get_state.
Proof. intros s. reflexivity. Qed.

Create HintDb keeps_logs.
#[local] Hint Resolve keeps_logs_ret keeps_logs_throw keeps_logs_fs_writeFile
  keeps_logs_fs_unlink keeps_logs_fs_mkdir_recursive keeps_logs_fs_access
  keeps_logs_get_state : keeps_logs.

Ltac keeps_logs_step :=
  first
    [ solve [auto with keeps_logs]
    | apply keeps_logs_bind; [|intros ?]
    | apply keeps_logs_try_catch; [|intros ?]
    | match goal with
      | |- keeps_logs (match ?x with _ => _ end) => destruct x
      | |- keeps_logs (if ?x then _ else _) => destruct x
      end ].

Section AuditLog.
Context `{Platform} (iamService : IAMService.t) (storageProvider : StorageProvider.t).

Lemma keeps_logs_putObject (bucketName key : string) (data : Data)
  (metadata : Metadata.t) :
  keeps_logs (StorageProvider.putObject storageProvider bucketName key data metadata).
Proof.
  unfold StorageProvider.putObject, StorageProvider._ensureDirectory,
    pipeline_to_file.
  repeat keeps_logs_step.
Qed.

Lemma keeps_logs_deleteObject (bucketName key : string) :
  keeps_logs (StorageProvider.deleteObject storageProvider bucketName key).
Proof.
  unfold StorageProvider.deleteObject, unlink_object_and_sidecar.
  repeat keeps_logs_step.
Qed.

Lemma keeps_logs_uploadObject (bucketName key : string) (data : bytes)
  (metadata : Metadata.t) (userId : string) :
  keeps_logs (ObjectService.uploadObject iamService storageProvider bucketName key
                data metadata userId).
Proof.
  unfold ObjectService.uploadObject, ObjectService.storageProvider_delete.
  apply keeps_logs_bind; [apply keeps_logs_readonly, readonly_Bucket_findOne|].
  intros [bucket|]; [|apply keeps_logs_throw].
  apply keeps_logs_bind; [apply keeps_logs_readonly, readonly_checkPermission|].
  intros permissionResult. destruct (denied permissionResult); [apply keeps_logs_throw|].
  apply keeps_logs_bind; [apply keeps_logs_putObject|]. intros result.
  apply keeps_logs_bind.
  - destruct (Bucket.versioningEnabled bucket); [intros s; reflexivity|].
    apply keeps_logs_bind; [apply keeps_logs_readonly, readonly_S3Object_findOne|].
    intros [existing|]; [|apply keeps_logs_ret].
    apply keeps_logs_bind; [apply keeps_logs_throw | intros ? s; reflexivity].
  - intros _. apply keeps_logs_bind.
    + intros s. unfold S3Object_create. destruct (negb _); reflexivity.
    + intros o. apply keeps_logs_bind; [|intros; apply keeps_logs_ret].
      apply keeps_logs_readonly, readonly_logAccess.
Qed.

Lemma keeps_logs_delete_each (bucketName key : string) (l : list S3Object.t) :
  keeps_logs (ObjectService.delete_each storageProvider bucketName key l).
Proof.
  induction l as [|obj rest IH]; simpl; [apply keeps_logs_ret|].
  apply keeps_logs_bind; [apply keeps_logs_deleteObject|]. intros _.
  apply keeps_logs_bind; [intros s; reflexivity|]. intros _. exact IH.
Qed.

Lemma keeps_logs_serve (r : Request) (s : State) :
  accessLogs (serve iamService storageProvider r s) = accessLogs s.
Proof.
  destruct r as [name region v userId | b userId | b enabled userId
                 | b k data metadata userId | b k userId v | b userId options
                 | b k userId v | b k copySource userId | b k userId
                 | b k grants userId]; simpl.
  - unfold BucketService.createBucket.
    destruct (negb (validateBucketName name)); [reflexivity|].
    unfold bind. rewrite Bucket_findOne_run.
    destruct (find_bucket s name); [reflexivity|].
    unfold Bucket_create. destruct (negb _); [reflexivity|].
    destruct (existsb _ _); reflexivity.
  - unfold BucketService.deleteBucket.
    unfold bind at 1. rewrite Bucket_findOne_run.
    destruct (find_bucket s b); [|reflexivity].
    unfold bind at 1. unfold IAMService.checkPermission, ret at 1.
    destruct (denied _); [reflexivity|].
    unfold bind, S3Object_count. destruct (0 <? _)%nat; reflexivity.
  - unfold BucketService.updateBucketVersioning.
    unfold bind at 1. rewrite Bucket_findOne_run.
    destruct (find_bucket s b); [|reflexivity].
    unfold bind at 1. unfold IAMService.checkPermission, ret at 1.
    destruct (denied _); reflexivity.
  - apply keeps_logs_uploadObject.
  - rewrite readonly_downloadObject. reflexivity.
  - rewrite readonly_listObjects. reflexivity.
  - revert s. change (keeps_logs (ObjectService.deleteObject iamService
                                   storageProvider b k userId v)).
    unfold ObjectService.deleteObject.
    apply keeps_logs_bind; [apply keeps_logs_readonly, readonly_Bucket_findOne|].
    intros [bucket|]; [|apply keeps_logs_throw].
    apply keeps_logs_bind; [apply keeps_logs_readonly, readonly_checkPermission|].
    intros permissionResult. destruct (denied permissionResult).
    { apply keeps_logs_bind; [apply keeps_logs_readonly, readonly_logAccess|].
      intros _. apply keeps_logs_throw. }
    apply keeps_logs_bind; [intros s; reflexivity|].
    intros [|o rest].
    { apply keeps_logs_bind; [apply keeps_logs_readonly, readonly_logAccess|].
      intros _. apply keeps_logs_throw. }
    apply keeps_logs_bind; [apply keeps_logs_delete_each|].
    intros _. apply keeps_logs_readonly, readonly_logAccess.
  - unfold objectController.copyObject.
    destruct (truthy copySource) as [source|]; [|reflexivity].
    destruct (objectController.copySource_match source) as [[sourceBucket sourceKey]|];
      [|reflexivity].
    destruct (_ && _); [reflexivity|].
    assert (Hcopy : keeps_logs (ObjectService.copyObject iamService storageProvider
                                  sourceBucket sourceKey b k userId)).
    { unfold ObjectService.copyObject.
      apply keeps_logs_bind; [apply keeps_logs_readonly, readonly_Bucket_findOne|].
      intros sourceBucketObj.
      apply keeps_logs_bind; [apply keeps_logs_readonly, readonly_Bucket_findOne|].
      intros destBucketObj.
      destruct sourceBucketObj as [sourceBucketObj|]; [|apply keeps_logs_throw].
      destruct destBucketObj as [destBucketObj|]; [|apply keeps_logs_throw].
      apply keeps_logs_bind; [apply keeps_logs_readonly, readonly_checkPermission|].
      intros readPermission.
      apply keeps_logs_bind; [apply keeps_logs_readonly, readonly_checkPermission|].
      intros writePermission.
      destruct (denied readPermission); [apply keeps_logs_throw|].
      destruct (denied writePermission); [apply keeps_logs_throw|].
      apply keeps_logs_bind; [apply keeps_logs_readonly, readonly_S3Object_findOne|].
      intros [sourceObj|]; [|apply keeps_logs_throw].
      apply keeps_logs_bind; [apply keeps_logs_readonly, readonly_getObject|].
      intros sourceData.
      apply keeps_logs_bind; [|intros; apply keeps_logs_uploadObject].
      unfold ObjectService.read_all.
      destruct (GetResult.stream sourceData); [apply keeps_logs_ret | apply keeps_logs_throw]. }
    unfold try_catch, bind. specialize (Hcopy s).
    destruct (ObjectService.copyObject _ _ _ _ _ _ _ s) as [[o|e] s1]; exact Hcopy.
  - rewrite readonly_getObjectAcl. reflexivity.
  - unfold ObjectService.updateObjectAcl.
    unfold bind at 1. rewrite Bucket_findOne_run.
    destruct (find_bucket s b); [|reflexivity].
    unfold bind at 1. unfold IAMService.checkPermission, ret at 1.
    destruct (denied _); [reflexivity|].
    unfold bind at 1, S3Object_findOne at 1.
    destruct (find _ (objects s)); [|reflexivity].
    destruct grants; reflexivity.
Qed.

(** X7: the audit log is never written.  Every entry that [_logAccess]
    builds lacks the attributes [httpMethod], [httpStatus] and [allowed],
    which the [AccessLog] model requires, and the error of the insert is
    swallowed: after any sequence of requests served from the initial state
    the log is empty. *)
Theorem audit_log_stays_empty (rs : list Request) (now : string) :
  accessLogs (serve_all iamService storageProvider rs (initial now)) = [].
Proof.
  assert (Hall : forall s, accessLogs (serve_all iamService storageProvider rs s)
                           = accessLogs s).
  { induction rs as [|r rs IH]; intros s; [reflexivity|].
    simpl. rewrite IH. apply keeps_logs_serve. }
  rewrite Hall. reflexivity.
Qed.
End AuditLog.

(** ** Queries *)

Section Queries.
Context `{Platform} (iamService : IAMService.t) (storageProvider : StorageProvider.t).

#[local] Hint Resolve readonly_ret readonly_throw readonly_fs_access
  readonly_fs_readFile readonly_createReadStream readonly_Bucket_findOne
  readonly_checkPermission readonly_S3Object_findOne readonly_logAccess
  readonly_read_sidecar readonly_getObject : readonly.

Lemma readonly_getObjectMetadata (bucketName key userId : string)
  (versionId : option uuid) :
  readonly (ObjectService.getObjectMetadata iamService bucketName key userId
              versionId).
Proof. unfold ObjectService.getObjectMetadata. repeat readonly_step. Qed.

Lemma readonly_getBucket (bucketName userId : string) :
  readonly (BucketService.getBucket iamService bucketName userId).
Proof. unfold BucketService.getBucket. repeat readonly_step. Qed.

Lemma readonly_objectExists (bucketName key : string) :
  readonly (StorageProvider.objectExists storageProvider bucketName key).
Proof. unfold StorageProvider.objectExists. repeat readonly_step. Qed.

Lemma readonly_provider_getObjectMetadata (bucketName key : string) :
  readonly (StorageProvider.getObjectMetadata storageProvider bucketName key).
Proof. unfold StorageProvider.getObjectMetadata. repeat readonly_step. Qed.

(** X8: the operations that answer a question change nothing, whether they
    return or throw: [downloadObject], [listObjects], [getObjectAcl],
    [getObjectMetadata] and [getBucket] of the services (the first and the
    third call [_logAccess]), and [getObject], [objectExists] and
    [getObjectMetadata] of the storage provider. *)
Theorem queries_change_nothing (bucketName key userId : string)
  (versionId : option uuid) (options : Listing.Options) (s : State) :
  snd (ObjectService.downloadObject iamService storageProvider bucketName key
         userId versionId s) = s
  /\ snd (ObjectService.listObjects iamService bucketName userId options s) = s
  /\ snd (ObjectService.getObjectAcl iamService bucketName key userId s) = s
  /\ snd (ObjectService.getObjectMetadata iamService bucketName key userId
            versionId s) = s
  /\ snd (BucketService.getBucket iamService bucketName userId s) = s
  /\ snd (StorageProvider.getObject storageProvider bucketName key s) = s
  /\ snd (StorageProvider.objectExists storageProvider bucketName key s) = s
  /\ snd (StorageProvider.getObjectMetadata storageProvider bucketName key s) = s.
Proof.
  repeat split.
  - apply readonly_downloadObject.
  - apply readonly_listObjects.
  - apply readonly_getObjectAcl.
  - apply readonly_getObjectMetadata.
  - apply readonly_getBucket.
  - apply readonly_getObject.
  - apply readonly_objectExists.
  - apply readonly_provider_getObjectMetadata.
Qed.
End Queries.

(** ** Paths of the file system provider *)

Lemma startsWith_empty (str : string) : startsWith str "" = true.
Proof. destruct str; reflexivity. Qed.

Lemma replace_dotdot_other (c : ascii) (r : string) :
  c <> "."%char ->
  FileSystemProvider.replace_dotdot (String c r)
  = String c (FileSystemProvider.replace_dotdot r).
Proof.
  intros Hc. destruct r as [|d r]; [reflexivity|].
  cbn [FileSystemProvider.replace_dotdot].
  replace (Ascii.eqb c "."%char) with false; [reflexivity|].
  symmetry. apply Ascii.eqb_neq. exact Hc.
Qed.

Lemma replace_dotdot_single (d : ascii) (r : string) :
  d <> "."%char ->
  FileSystemProvider.replace_dotdot (String "."%char (String d r))
  = String "."%char (String d (FileSystemProvider.replace_dotdot r)).
Proof.
  intros Hd.
  change (FileSystemProvider.replace_dotdot (String "."%char (String d r)))
    with (if Ascii.eqb "."%char "."%char && Ascii.eqb d "."%char
          then String "_"%char (FileSystemProvider.replace_dotdot r)
          else String "."%char (FileSystemProvider.replace_dotdot (String d r))).
  replace (Ascii.eqb d "."%char) with false
    by (symmetry; apply Ascii.eqb_neq; exact Hd).
  change (Ascii.eqb "."%char "."%char && false) with false. cbv iota.
  f_equal. apply replace_dotdot_other. exact Hd.
Qed.

Lemma replace_dotdot_pair (r : string) :
  FileSystemProvider.replace_dotdot (String "."%char (String "."%char r))
  = String "_"%char (FileSystemProvider.replace_dotdot r).
Proof. reflexivity. Qed.

Lemma includes_head (c : ascii) (r : string) :
  includes (String c r) ".."
  = (Ascii.eqb c "."%char
     && match r with
        | String d _ => Ascii.eqb d "."%char
        | EmptyString => false
        end)
    || includes r "..".
Proof.
  rewrite includes_cons. f_equal. simpl. destruct r as [|d r]; [reflexivity|].
  simpl. rewrite startsWith_empty, andb_true_r. reflexivity.
Qed.

(** Induction on strings two characters at a time. *)
Lemma string_pair_ind (P : string -> Prop) :
  P "" -> (forall c, P (String c "")) ->
  (forall c d r, P r -> P (String d r) -> P (String c (String d r))) ->
  forall s, P s.
Proof.
  intros H0 H1 H2 s.
  assert (Hboth : P s /\ forall c, P (String c s)).
  { induction s as [|d r [IHr IHc]]; [split; auto|].
    split; [apply IHc|]. intros c. apply H2; auto. }
  apply Hboth.
Qed.

(** After [.replace(/\.\./g, '_')] no two dots are left in a row. *)
Lemma replace_dotdot_clean (s : string) :
  includes (FileSystemProvider.replace_dotdot s) ".." = false.
Proof.
  induction s as [|c|c d r IHr IHdr] using string_pair_ind; [reflexivity| |].
  - simpl. destruct (Ascii.eqb c "."); reflexivity.
  - destruct (Ascii.eqb_spec c "."%char) as [->|Hc].
    + destruct (Ascii.eqb_spec d "."%char) as [->|Hd].
      * rewrite replace_dotdot_pair, includes_head. exact IHr.
      * rewrite replace_dotdot_single, includes_head by assumption.
        replace (Ascii.eqb d "."%char) with false
          by (symmetry; apply Ascii.eqb_neq; exact Hd).
        rewrite andb_false_r. simpl orb.
        rewrite replace_dotdot_other in IHdr by assumption. exact IHdr.
    + rewrite replace_dotdot_other, includes_head by assumption.
      replace (Ascii.eqb c "."%char) with false
        by (symmetry; apply Ascii.eqb_neq; exact Hc).
      exact IHdr.
Qed.

(** It brings in no character but the underscore. *)
Lemma replace_dotdot_chars (s : string) (x : ascii) :
  In x (list_ascii_of_string (FileSystemProvider.replace_dotdot s)) ->
  In x (list_ascii_of_string s) \/ x = "_"%char.
Proof.
  revert x. induction s as [|c|c d r IHr IHdr] using string_pair_ind; intros x.
  - simpl. tauto.
  - simpl. tauto.
  - destruct (Ascii.eqb_spec c "."%char) as [->|Hc].
    + destruct (Ascii.eqb_spec d "."%char) as [->|Hd].
      * rewrite replace_dotdot_pair. simpl. intros [<- | Hin]; [auto|].
        destruct (IHr x Hin); auto.
      * rewrite replace_dotdot_single by assumption. simpl.
        intros [<- | [<- | Hin]]; auto. destruct (IHr x Hin); auto.
    + rewrite replace_dotdot_other by assumption.
      change (list_ascii_of_string (String c ?t)) with (c :: list_ascii_of_string t).
      intros [<- | Hin]; [left; left; reflexivity|].
      destruct (IHdr x Hin) as [Hin' | ->]; [left; right; exact Hin' | auto].
Qed.

(** A text without two dots in a row is left as it is. *)
Lemma replace_dotdot_fixed (s : string) :
  includes s ".." = false -> FileSystemProvider.replace_dotdot s = s.
Proof.
  induction s as [|c r IH]; [reflexivity|].
  rewrite includes_head. intros Hno. apply orb_false_elim in Hno as [Hhead Hrest].
  destruct r as [|d r]; [reflexivity|].
  cbn [FileSystemProvider.replace_dotdot]. rewrite Hhead.
  f_equal. apply IH. exact Hrest.
Qed.

Lemma replace_reserved_clean (s : string) :
  forallb (fun c => negb (FileSystemProvider.reserved c))
    (list_ascii_of_string (FileSystemProvider.replace_reserved s)) = true.
Proof.
  induction s as [|c s IH]; [reflexivity|].
  simpl. rewrite IH, andb_true_r.
  destruct (FileSystemProvider.reserved c) eqn:E; [reflexivity|].
  rewrite E. reflexivity.
Qed.

Lemma replace_reserved_fixed (s : string) :
  forallb (fun c => negb (FileSystemProvider.reserved c)) (list_ascii_of_string s)
  = true ->
  FileSystemProvider.replace_reserved s = s.
Proof.
  induction s as [|c s IH]; [reflexivity|].
  simpl. intros Hclean. apply andb_prop in Hclean as [Hc Hs].
  apply negb_true_iff in Hc. rewrite Hc, IH by assumption. reflexivity.
Qed.

Lemma replace_dotdot_keeps_clean (s : string) :
  forallb (fun c => negb (FileSystemProvider.reserved c)) (list_ascii_of_string s)
  = true ->
  forallb (fun c => negb (FileSystemProvider.reserved c))
    (list_ascii_of_string (FileSystemProvider.replace_dotdot s)) = true.
Proof.
  intros Hclean. apply forallb_forall. intros x Hin.
  destruct (replace_dotdot_chars s x Hin) as [Hin' | ->]; [|reflexivity].
  rewrite forallb_forall in Hclean. apply Hclean. exact Hin'.
Qed.

(** X9: the text that [sanitizePath] returns holds none of the characters
    that it replaces and nowhere two dots in a row; sanitizing it again
    changes nothing, and a text that is clean already is returned as it is. *)
Theorem sanitizePath_clean (pathStr : string) :
  includes (FileSystemProvider.sanitizePath pathStr) ".." = false
  /\ forallb (fun c => negb (FileSystemProvider.reserved c))
       (list_ascii_of_string (FileSystemProvider.sanitizePath pathStr)) = true
  /\ FileSystemProvider.sanitizePath (FileSystemProvider.sanitizePath pathStr)
     = FileSystemProvider.sanitizePath pathStr
  /\ (includes pathStr ".." = false ->
      forallb (fun c => negb (FileSystemProvider.reserved c))
        (list_ascii_of_string pathStr) = true ->
      FileSystemProvider.sanitizePath pathStr = pathStr).
Proof.
  unfold FileSystemProvider.sanitizePath.
  assert (Hclean : forallb (fun c => negb (FileSystemProvider.reserved c))
                     (list_ascii_of_string
                        (FileSystemProvider.replace_dotdot
                           (FileSystemProvider.replace_reserved pathStr))) = true)
    by apply replace_dotdot_keeps_clean, replace_reserved_clean.
  split; [apply replace_dotdot_clean|]. split; [exact Hclean|]. split.
  - rewrite (replace_reserved_fixed _ Hclean).
    apply replace_dotdot_fixed, replace_dotdot_clean.
  - intros Hdots Hchars. rewrite (replace_reserved_fixed _ Hchars).
    apply replace_dotdot_fixed. exact Hdots.
Qed.

(** ** Where the providers keep an object *)

Lemma split_on_nonempty (c : ascii) (str : string) : split_on c str <> [].
Proof.
  induction str as [|d str IH]; simpl; [discriminate|].
  destruct (Ascii.eqb d c); [discriminate|].
  destruct (split_on c str); discriminate.
Qed.

(** Splitting a text that is joined with the separator. *)
Lemma split_on_append (c : ascii) (a b : string) :
  split_on c (a +:+ String c b) = split_on c a ++ split_on c b.
Proof.
  induction a as [|d a IH].
  - change ("" +:+ String c b) with (String c b). simpl.
    rewrite Ascii.eqb_refl. reflexivity.
  - change (String d a +:+ String c b) with (String d (a +:+ String c b)).
    simpl. rewrite IH. destruct (Ascii.eqb d c); [reflexivity|].
    pose proof (split_on_nonempty c a) as Hne.
    destruct (split_on c a) as [|part parts]; [congruence | reflexivity].
Qed.

(** The first part of a split is a prefix of the text. *)
Lemma split_on_head (c : ascii) (str part : string) (parts : list string) :
  split_on c str = part :: parts -> exists rest, str = part +:+ rest.
Proof.
  revert part parts. induction str as [|d str IH]; intros part parts; simpl.
  - intros [= <- <-]. exists "". reflexivity.
  - destruct (Ascii.eqb d c).
    + intros [= <- <-]. exists (String d str). reflexivity.
    + destruct (split_on c str) as [|p ps] eqn:Hsplit; [|destruct (IH p ps eq_refl) as [rest ->]];
        intros [= <- <-].
      * exists str. reflexivity.
      * exists rest. reflexivity.
Qed.

(** Every part of a split is a piece of the text. *)
Lemma split_on_piece (c : ascii) (str seg : string) :
  In seg (split_on c str) -> includes str seg = true.
Proof.
  induction str as [|d str IH]; cbn [split_on].
  - intros [<- | []]. reflexivity.
  - destruct (Ascii.eqb d c).
    + intros [<- | Hin]; [destruct str; reflexivity|].
      rewrite includes_cons, (IH Hin). apply orb_true_r.
    + destruct (split_on c str) as [|p ps] eqn:Hsplit.
      * intros [<- | []]. rewrite includes_cons. apply orb_true_iff. left.
        apply startsWith_iff. exists str. reflexivity.
      * intros [<- | Hin].
        -- destruct (split_on_head c str p ps Hsplit) as [rest ->].
           rewrite includes_cons. apply orb_true_iff. left.
           apply startsWith_iff. exists rest. reflexivity.
        -- rewrite includes_cons, IH; [apply orb_true_r | right; exact Hin].
Qed.

(** The segments that [normalizeString] keeps when none is [..]. *)
Definition kept_segment (seg : string) : bool :=
  negb (String.eqb seg "" || String.eqb seg ".").

Lemma resolve_without_dotdot (allowAboveRoot : bool) (segments : list string) :
  ~ In ".." segments ->
  forall kept,
    Posix.resolve allowAboveRoot segments kept
    = rev (List.filter kept_segment segments) ++ kept.
Proof.
  induction segments as [|seg rest IH]; intros Hno kept; [reflexivity|].
  simpl. unfold kept_segment at 1.
  destruct (String.eqb seg "" || String.eqb seg ".") eqn:Eskip; simpl.
  - apply IH. intros Hin. apply Hno. right. exact Hin.
  - replace (String.eqb seg "..") with false.
    + rewrite IH by (intros Hin; apply Hno; right; exact Hin).
      rewrite <- app_assoc. reflexivity.
    + symmetry. apply String.eqb_neq. intros ->. apply Hno. left. reflexivity.
Qed.

Lemma concat_cons (sep x : string) (l : list string) :
  String.concat sep (x :: l)
  = match l with
    | [] => x
    | _ :: _ => x +:+ sep +:+ String.concat sep l
    end.
Proof. destruct l; reflexivity. Qed.

(** A path under [./storage] whose further segments hold no [..] stays
    under [storage]. *)
Lemma normalize_under_storage (t : string) :
  ~ In ".." (split_on "/"%char t) ->
  let p := Posix.normalize ("./storage/" +:+ t) in
  p = "storage" \/ startsWith p "storage/" = true.
Proof.
  intros Hno. unfold Posix.normalize.
  change ("./storage/" +:+ t) with (String "."%char ("/storage/" +:+ t)).
  cbn [String.eqb startsWith Ascii.eqb Bool.eqb andb negb].
  change (String "."%char ("/storage/" +:+ t)) with ("./storage" +:+ String "/"%char t).
  rewrite split_on_append.
  change (split_on "/"%char "./storage") with ["."; "storage"].
  change (Posix.resolve true (["."; "storage"] ++ split_on "/"%char t) [])
    with (Posix.resolve true (split_on "/"%char t) ["storage"]).
  rewrite resolve_without_dotdot by assumption.
  rewrite rev_app_distr, rev_involutive. simpl rev.
  change (["storage"] ++ ?l) with ("storage" :: l).
  rewrite concat_cons.
  destruct (List.filter kept_segment (split_on "/"%char t)) as [|seg segs].
  - simpl. destruct (Posix.last_is_slash _); auto.
  - set (rest := String.concat "/" (seg :: segs)).
    change ("storage" +:+ "/" +:+ rest) with (String "s"%char ("torage/" +:+ rest)).
    cbn [String.eqb]. right. apply startsWith_iff.
    eexists. change (String "s"%char ("torage/" +:+ rest)) with ("storage/" +:+ rest).
    change ("" +:+ ?x) with x. rewrite append_associative. reflexivity.
Qed.

Lemma sanitized_segments (pathStr : string) :
  ~ In ".." (split_on "/"%char (FileSystemProvider.sanitizePath pathStr)).
Proof.
  intros Hin. apply split_on_piece in Hin.
  unfold FileSystemProvider.sanitizePath in Hin.
  rewrite replace_dotdot_clean in Hin. discriminate Hin.
Qed.

(** X10: with the default base path [./storage], whatever the bucket name
    and the object key are, the path that the file system provider builds
    for an object is [storage] itself or lies under [storage/]: the two
    replacements of [sanitizePath] leave no [..] segment for [path.join] to
    resolve. *)
Theorem getObjectPath_confined (bucketName objectKey : string) :
  let p :=
    @FileSystemProvider.getObjectPath reference_platform
      (FileSystemProvider.mk "./storage") bucketName objectKey in
  p = "storage" \/ startsWith p "storage/" = true.
Proof.
  unfold FileSystemProvider.getObjectPath. simpl path_join. unfold Posix.join.
  simpl FileSystemProvider.basePath.
  pose proof (sanitized_segments bucketName) as Hb.
  pose proof (sanitized_segments objectKey) as Hk.
  set (sb := FileSystemProvider.sanitizePath bucketName) in *.
  set (sk := FileSystemProvider.sanitizePath objectKey) in *.
  cbn [List.filter String.eqb negb].
  destruct (String.eqb_spec sb "") as [Eb|Eb]; destruct (String.eqb_spec sk "") as [Ek|Ek];
    cbn [negb String.concat].
  - left. reflexivity.
  - assert (Hj : "./storage" +:+ "/" +:+ sk = "./storage/" +:+ sk) by reflexivity.
    destruct sk as [|c sk']; [congruence|]. rewrite Hj.
    change (String.eqb ("./storage/" +:+ String c sk') "") with false. cbv iota.
    apply normalize_under_storage. exact Hk.
  - assert (Hj : "./storage" +:+ "/" +:+ sb = "./storage/" +:+ sb) by reflexivity.
    destruct sb as [|c sb']; [congruence|]. rewrite Hj.
    change (String.eqb ("./storage/" +:+ String c sb') "") with false. cbv iota.
    apply normalize_under_storage. exact Hb.
  - assert (Hj : "./storage" +:+ "/" +:+ sb +:+ "/" +:+ sk
                 = "./storage/" +:+ (sb +:+ String "/"%char sk)) by reflexivity.
    destruct sb as [|c sb']; [congruence|]. destruct sk as [|d sk']; [congruence|].
    cbn [String.concat]. rewrite Hj.
    change (String.eqb ("./storage/" +:+ (String c sb' +:+ String "/"%char (String d sk'))) "")
      with false. cbv iota.
    apply normalize_under_storage. rewrite split_on_append.
    intros Hin. apply in_app_or in Hin as [Hin | Hin]; tauto.
Qed.

(** ** The storage provider of the services *)

Lemma or_str_twice (o : option string) (d : string) :
  or_str (Some (or_str o d)) d = or_str o d.
Proof.
  unfold or_str. destruct o as [s0|].
  - destruct (String.eqb s0 "") eqn:E0.
    + destruct (String.eqb d ""); reflexivity.
    + rewrite E0. reflexivity.
  - destruct (String.eqb d ""); reflexivity.
Qed.

Section DefaultProvider.
Context `{Platform} (this : StorageProvider.t).

(** The sidecar document that [putObject] writes. *)
Definition sidecar_of (metadata : Metadata.t) (d : bytes) (now : string)
  : Metadata.t :=
  fullMetadata metadata (N.of_nat (length d)) (md5_hex d) now.

Lemma StorageProvider_putObject_stores (bucketName objectKey : string)
  (data : Data) (metadata : Metadata.t) (s s' : State)
  (r : StorageProvider.PutResult) :
  StorageProvider.putObject this bucketName objectKey data metadata s
    = (Return r, s') ->
  exists d,
    payload data = Some d
    /\ r = StorageProvider.mkPutResult (md5_hex d) (N.of_nat (length d)) (clock s)
             (StorageProvider._generateStorageKey bucketName objectKey)
    /\ clock s' = clock s
    /\ files s' !! object_path this bucketName objectKey = Some (File (Raw d))
    /\ files s' !! (object_path this bucketName objectKey +:+ ".meta")
       = Some (File (Sidecar (sidecar_of metadata d (clock s)))).
Proof.
  unfold StorageProvider.putObject, StorageProvider._ensureDirectory,
    pipeline_to_file, object_path, sidecar_of, StorageProvider._calculateHash.
  set (objectPath := StorageProvider._getObjectPath this _).
  intros Hput. unfold_monad.
  unfold fs_access, fs_mkdir_recursive, fs_writeFile in Hput.
  destruct data as [d|chunks|]; simpl in Hput.
  all: repeat (break_match; simpl in *; try discriminate).
  all: inversion Hput; subst; clear Hput; simpl.
  all: eexists; repeat split; try reflexivity.
  all: try (rewrite lookup_insert_ne by apply sidecar_path_differs;
            apply lookup_insert_eq).
  all: try apply lookup_insert_eq.
Qed.

Lemma StorageProvider_getObject_stored (bucketName objectKey : string)
  (c : FileContent) (doc : Metadata.t) (s : State) :
  files s !! object_path this bucketName objectKey = Some (File c) ->
  files s !! (object_path this bucketName objectKey +:+ ".meta")
    = Some (File (Sidecar doc)) ->
  StorageProvider.getObject this bucketName objectKey s
  = (Return (get_result (StreamOf (file_bytes c)) doc), s).
Proof.
  intros Hobj Hmeta. unfold StorageProvider.getObject. unfold object_path in *.
  unfold try_catch, bind, fs_access, read_sidecar, try_catch, bind, fs_readFile,
    createReadStream, ret.
  rewrite Hobj, Hmeta. simpl. rewrite Hobj. reflexivity.
Qed.

(** X11: what [putObject] of the storage provider stores, its other
    operations give back: [getObject] delivers the same bytes with the MD5
    digest as etag, the size and the content type (the default one when
    none was given), [objectExists] answers [true], and [getObjectMetadata]
    returns the sidecar document with those values. *)
Theorem StorageProvider_roundtrip (bucketName objectKey : string) (data : Data)
  (metadata : Metadata.t) (s s' : State) (r : StorageProvider.PutResult) :
  StorageProvider.putObject this bucketName objectKey data metadata s
    = (Return r, s') ->
  exists d g doc,
    payload data = Some d
    /\ StorageProvider.etag r = md5_hex d
    /\ StorageProvider.getObject this bucketName objectKey s' = (Return g, s')
    /\ GetResult.stream g = StreamOf d
    /\ GetResult.etag g = md5_hex d
    /\ (d <> [] -> GetResult.size g = N.of_nat (length d))
    /\ GetResult.contentType g
       = or_str (Metadata.contentType metadata) "application/octet-stream"
    /\ StorageProvider.objectExists this bucketName objectKey s' = (Return true, s')
    /\ StorageProvider.getObjectMetadata this bucketName objectKey s'
       = (Return doc, s')
    /\ Metadata.size doc = Some (N.of_nat (length d))
    /\ Metadata.etag doc = Some (md5_hex d)
    /\ Metadata.userMetadata doc = Metadata.userMetadata metadata.
Proof.
  intros Hput.
  destruct (StorageProvider_putObject_stores _ _ _ _ _ _ _ Hput)
    as (d & Hdata & -> & Hclock & Hobj & Hmeta).
  exists d, (get_result (StreamOf d) (sidecar_of metadata d (clock s))),
    (sidecar_of metadata d (clock s)).
  split; [exact Hdata|]. split; [reflexivity|]. split.
  { apply (StorageProvider_getObject_stored _ _ (Raw d)); assumption. }
  split; [reflexivity|]. split; [apply or_str_empty|]. split.
  { intros Hd. simpl. unfold or_num.
    destruct (N.eqb_spec (N.of_nat (length d)) 0) as [E|E]; [|reflexivity].
    destruct d; [congruence | simpl in E; lia]. }
  split; [apply or_str_twice|]. split.
  { unfold StorageProvider.objectExists, try_catch, bind, fs_access.
    fold (object_path this bucketName objectKey). rewrite Hobj. reflexivity. }
  split.
  { unfold StorageProvider.getObjectMetadata, try_catch, bind, fs_readFile.
    fold (object_path this bucketName objectKey). rewrite Hmeta. reflexivity. }
  repeat split.
Qed.

(** X12: after [putObject] has stored an object, [deleteObject] returns
    [true] and the object is gone: [getObject] throws the error [Object not
    found], [objectExists] answers [false], [getObjectMetadata] throws
    [Object metadata not found], and a second [deleteObject] returns [true]
    again and changes nothing. *)
Theorem StorageProvider_delete_after_put (bucketName objectKey : string)
  (data : Data) (metadata : Metadata.t) (s s1 : State)
  (r : StorageProvider.PutResult) :
  StorageProvider.putObject this bucketName objectKey data metadata s
    = (Return r, s1) ->
  exists s2,
    StorageProvider.deleteObject this bucketName objectKey s1 = (Return true, s2)
    /\ StorageProvider.getObject this bucketName objectKey s2
       = (Throw (Error ("Object not found: " +:+ bucketName +:+ "/" +:+ objectKey)),
          s2)
    /\ StorageProvider.objectExists this bucketName objectKey s2 = (Return false, s2)
    /\ StorageProvider.getObjectMetadata this bucketName objectKey s2
       = (Throw (Error ("Object metadata not found: " +:+ bucketName +:+ "/"
                        +:+ objectKey)), s2)
    /\ StorageProvider.deleteObject this bucketName objectKey s2 = (Return true, s2).
Proof.
  intros Hput.
  destruct (StorageProvider_putObject_stores _ _ _ _ _ _ _ Hput)
    as (d & _ & _ & _ & Hobj & Hmeta).
  set (p := object_path this bucketName objectKey) in *.
  set (s2 := set_files (delete (p +:+ ".meta")) (set_files (delete p) s1)).
  assert (Hgone : files s2 !! p = None).
  { unfold s2. simpl. rewrite lookup_delete_ne by apply sidecar_path_differs.
    apply lookup_delete_eq. }
  assert (Hgone' : files s2 !! (p +:+ ".meta") = None).
  { unfold s2. simpl. apply lookup_delete_eq. }
  exists s2. split; [|split; [|split; [|split]]].
  - unfold StorageProvider.deleteObject, unlink_object_and_sidecar.
    fold (object_path this bucketName objectKey). fold p.
    unfold bind at 1, try_catch at 1, fs_unlink at 1. rewrite Hobj.
    unfold bind at 1, try_catch at 1, fs_unlink at 1. simpl files.
    rewrite lookup_delete_ne by (intros E; symmetry in E; revert E; apply sidecar_path_differs).
    rewrite Hmeta. reflexivity.
  - unfold StorageProvider.getObject, try_catch, bind, fs_access.
    fold (object_path this bucketName objectKey). fold p. rewrite Hgone. reflexivity.
  - unfold StorageProvider.objectExists, try_catch, bind, fs_access.
    fold (object_path this bucketName objectKey). fold p. rewrite Hgone. reflexivity.
  - unfold StorageProvider.getObjectMetadata, try_catch, bind, fs_readFile.
    fold (object_path this bucketName objectKey). fold p. rewrite Hgone'. reflexivity.
  - unfold StorageProvider.deleteObject, unlink_object_and_sidecar.
    fold (object_path this bucketName objectKey). fold p.
    unfold bind at 1, try_catch at 1, fs_unlink at 1. rewrite Hgone.
    cbv beta iota. unfold ret at 1. cbv beta iota.
    unfold bind at 1, try_catch at 1, fs_unlink at 1. rewrite Hgone'.
    reflexivity.
Qed.
End DefaultProvider.

Lemma StorageProvider_roundtrip_witness :
  let s := initial demo_clock in
  let put :=
    @StorageProvider.putObject reference_platform default_storage "my-bucket"
      "a.txt" (Readable [text "h"; text "i"]) Metadata.empty s in
  exists g,
    @StorageProvider.getObject reference_platform default_storage "my-bucket"
      "a.txt" (snd put) = (Return g, snd put)
    /\ GetResult.stream g = StreamOf (text "hi")
    /\ GetResult.etag g = "49f68a5c8493ec2c0bf489821c21fc3b".
Proof.
  intros s put.
  destruct (@StorageProvider_roundtrip reference_platform default_storage
              "my-bucket" "a.txt" (Readable [text "h"; text "i"]) Metadata.empty
              s (snd put)
              (StorageProvider.mkPutResult "49f68a5c8493ec2c0bf489821c21fc3b" 2
                 demo_clock "my-bucket/a.txt"))
    as (d & g & doc & Hd & _ & Hget & Hstream & Hetag & _).
  - vm_compute. reflexivity.
  - injection Hd as <-. exists g. split; [exact Hget|]. split; [exact Hstream|].
    rewrite Hetag. vm_compute. reflexivity.
Defined.

Lemma StorageProvider_delete_after_put_witness :
  let s := initial demo_clock in
  let put :=
    @StorageProvider.putObject reference_platform default_storage "my-bucket"
      "a.txt" (Buffer (text "hi")) Metadata.empty s in
  exists s2,
    @StorageProvider.deleteObject reference_platform default_storage "my-bucket"
      "a.txt" (snd put) = (Return true, s2)
    /\ @StorageProvider.getObject reference_platform default_storage "my-bucket"
         "a.txt" s2
       = (Throw (Error "Object not found: my-bucket/a.txt"), s2).
Proof.
  intros s put.
  destruct (@StorageProvider_delete_after_put reference_platform default_storage
              "my-bucket" "a.txt" (Buffer (text "hi")) Metadata.empty
              s (snd put)
              (StorageProvider.mkPutResult "49f68a5c8493ec2c0bf489821c21fc3b" 2
                 demo_clock "my-bucket/a.txt"))
    as (s2 & Hdelete & Hget & _).
  - vm_compute. reflexivity.
  - exists s2. split; [exact Hdelete | exact Hget].
Defined.

(** ** Keys that leave their bucket *)

(** A path segment that [path.join] keeps as it is. *)
Definition plain_segment (seg : string) : Prop :=
  seg <> "" /\ seg <> "." /\ seg <> ".."
  /\ ~ In "/"%char (list_ascii_of_string seg).

Lemma append_empty (a : string) : a +:+ "" = a.
Proof.
  induction a as [|c a IH]; [reflexivity|].
  change (String c (a +:+ "") = String c a). f_equal. exact IH.
Qed.

Lemma resolve_plain (allowAboveRoot : bool) (seg : string) (rest kept : list string) :
  plain_segment seg ->
  Posix.resolve allowAboveRoot (seg :: rest) kept
  = Posix.resolve allowAboveRoot rest (seg :: kept).
Proof.
  intros (H0 & H1 & H2 & _). simpl.
  apply String.eqb_neq in H0, H1, H2. rewrite H0, H1, H2. reflexivity.
Qed.

Lemma resolve_parent (allowAboveRoot : bool) (top : string) (rest below : list string) :
  top <> ".." ->
  Posix.resolve allowAboveRoot (".." :: rest) (top :: below)
  = Posix.resolve allowAboveRoot rest below.
Proof.
  intros Htop. simpl. apply String.eqb_neq in Htop. rewrite Htop. reflexivity.
Qed.

Lemma last_is_slash_plain (a seg : string) :
  plain_segment seg -> Posix.last_is_slash (a +:+ seg) = false.
Proof.
  intros (H0 & _ & _ & Hslash). unfold Posix.last_is_slash.
  rewrite list_ascii_of_append, rev_app_distr.
  destruct (rev (list_ascii_of_string seg)) as [|c l] eqn:Hrev.
  - destruct seg; [congruence|]. simpl in Hrev.
    apply (f_equal (@length ascii)) in Hrev. rewrite length_app in Hrev.
    simpl in Hrev. lia.
  - simpl. unfold Posix.is_slash. apply Ascii.eqb_neq. intros ->.
    apply Hslash. apply in_rev. rewrite Hrev. left. reflexivity.
Qed.

Lemma not_absolute_plain (seg rest : string) :
  plain_segment seg -> startsWith (seg +:+ rest) "/" = false.
Proof.
  intros (H0 & _ & _ & Hslash). destruct seg as [|c seg]; [congruence|].
  change (String c seg +:+ rest) with (String c (seg +:+ rest)). simpl.
  replace (Ascii.eqb c "/"%char) with false; [reflexivity|].
  symmetry. apply Ascii.eqb_neq. intros ->. apply Hslash. left. reflexivity.
Qed.

Lemma nonempty_plain (seg rest : string) :
  plain_segment seg -> String.eqb (seg +:+ rest) "" = false.
Proof.
  intros (H0 & _). destruct seg as [|c seg]; [congruence | reflexivity].
Qed.

Lemma split_plain (seg : string) :
  plain_segment seg -> split_on "/"%char seg = [seg].
Proof. intros (_ & _ & _ & Hslash). apply split_on_without. exact Hslash. Qed.

(** [path.join] of a bucket name and a key that are plain segments. *)
Lemma join_plain (b k : string) :
  plain_segment b -> plain_segment k -> Posix.join [b; k] = b +:+ "/" +:+ k.
Proof.
  intros Hb Hk. unfold Posix.join. cbn [List.filter].
  replace (String.eqb b "") with false
    by (symmetry; apply String.eqb_neq; apply Hb).
  replace (String.eqb k "") with false
    by (symmetry; apply String.eqb_neq; apply Hk).
  cbn [negb String.concat].
  change (b +:+ "/" +:+ k) with (b +:+ String "/"%char k).
  rewrite nonempty_plain by assumption.
  unfold Posix.normalize. rewrite nonempty_plain by assumption.
  rewrite not_absolute_plain by assumption.
  rewrite split_on_append, !split_plain by assumption.
  cbn [app]. rewrite !resolve_plain by assumption. cbn [Posix.resolve rev app].
  cbn [String.concat]. rewrite nonempty_plain by assumption.
  replace (Posix.last_is_slash _) with false.
  - change ("" +:+ ?x) with x. apply append_empty.
  - symmetry. change (b +:+ String "/"%char k) with (b +:+ ("/" +:+ k)).
    rewrite <- append_associative. apply last_is_slash_plain. exact Hk.
Qed.

(** A key that begins with [../] and names another bucket is joined to the
    storage key of an object of that bucket. *)
Lemma join_parent (b1 b2 k : string) :
  plain_segment b1 -> plain_segment b2 -> plain_segment k ->
  Posix.join [b1; "../" +:+ b2 +:+ "/" +:+ k] = b2 +:+ "/" +:+ k.
Proof.
  intros H1 H2 Hk. unfold Posix.join. cbn [List.filter].
  replace (String.eqb b1 "") with false
    by (symmetry; apply String.eqb_neq; apply H1).
  change (String.eqb ("../" +:+ b2 +:+ "/" +:+ k) "") with false.
  cbn [negb String.concat].
  change (b1 +:+ "/" +:+ "../" +:+ b2 +:+ "/" +:+ k)
    with (b1 +:+ String "/"%char (".." +:+ String "/"%char (b2 +:+ String "/"%char k))).
  rewrite nonempty_plain by assumption.
  unfold Posix.normalize. rewrite nonempty_plain by assumption.
  rewrite not_absolute_plain by assumption.
  rewrite !split_on_append.
  rewrite (split_plain b1), (split_plain b2), (split_plain k) by assumption.
  change (split_on "/"%char "..") with [".."]. cbn [app].
  rewrite resolve_plain by assumption.
  rewrite resolve_parent by apply H1.
  rewrite !resolve_plain by assumption. cbn [Posix.resolve rev app].
  cbn [String.concat]. rewrite nonempty_plain by assumption.
  replace (Posix.last_is_slash _) with false.
  - cbn [negb]. change ("" +:+ ?x) with x. apply append_empty.
  - symmetry.
    change (b1 +:+ String "/"%char (".." +:+ String "/"%char (b2 +:+ String "/"%char k)))
      with (b1 +:+ ("/../" +:+ (b2 +:+ ("/" +:+ k)))).
    rewrite <- !append_associative. apply last_is_slash_plain. exact Hk.
Qed.

(** X13: the storage provider that the services use joins the key to the
    bucket name as it is.  With the POSIX [path.join], an object put under
    the key [../b2/k] in a bucket [b1] gets the storage key of [k] in bucket
    [b2]: [getObject] of that bucket and key returns its bytes. *)
Theorem key_with_parent_segment_crosses_buckets (this : StorageProvider.t)
  (b1 b2 k : string) (data : Data) (metadata : Metadata.t) (s s' : State)
  (r : StorageProvider.PutResult) :
  plain_segment b1 -> plain_segment b2 -> plain_segment k ->
  @StorageProvider.putObject reference_platform this b1
    ("../" +:+ b2 +:+ "/" +:+ k) data metadata s = (Return r, s') ->
  exists d g,
    payload data = Some d
    /\ StorageProvider.storageKey r = b2 +:+ "/" +:+ k
    /\ @StorageProvider._generateStorageKey reference_platform b2 k
       = b2 +:+ "/" +:+ k
    /\ @StorageProvider.getObject reference_platform this b2 k s' = (Return g, s')
    /\ GetResult.stream g = StreamOf d.
Proof.
  intros H1 H2 Hk Hput.
  destruct (@StorageProvider_putObject_stores reference_platform this _ _ _ _ _ _ _
              Hput) as (d & Hdata & -> & _ & Hobj & Hmeta).
  assert (Hkey : @StorageProvider._generateStorageKey reference_platform b1
                   ("../" +:+ b2 +:+ "/" +:+ k)
                 = @StorageProvider._generateStorageKey reference_platform b2 k).
  { unfold StorageProvider._generateStorageKey. simpl path_join.
    rewrite join_parent, join_plain by assumption. reflexivity. }
  unfold object_path in Hobj, Hmeta. rewrite Hkey in Hobj, Hmeta.
  exists d, (get_result (StreamOf d) (@sidecar_of reference_platform metadata d (clock s))).
  split; [exact Hdata|]. split.
  { simpl. unfold StorageProvider._generateStorageKey. simpl path_join.
    apply join_parent; assumption. }
  split.
  { unfold StorageProvider._generateStorageKey. simpl path_join.
    apply join_plain; assumption. }
  split; [|reflexivity].
  apply (@StorageProvider_getObject_stored reference_platform this b2 k (Raw d));
    assumption.
Qed.

Lemma key_with_parent_segment_crosses_buckets_witness :
  let s := initial demo_clock in
  let put :=
    @StorageProvider.putObject reference_platform default_storage "my-bucket"
      "../your-bucket/a.txt" (Buffer (text "hi")) Metadata.empty s in
  exists g,
    @StorageProvider.getObject reference_platform default_storage "your-bucket"
      "a.txt" (snd put) = (Return g, snd put)
    /\ GetResult.stream g = StreamOf (text "hi").
Proof.
  intros s put.
  assert (Hplain : forall seg,
            In seg ["my-bucket"; "your-bucket"; "a.txt"] -> plain_segment seg).
  { intros seg Hin. simpl in Hin.
    destruct Hin as [<- | [<- | [<- | []]]]; repeat split; try discriminate;
      simpl; intuition discriminate. }
  destruct (key_with_parent_segment_crosses_buckets default_storage "my-bucket"
              "your-bucket" "a.txt" (Buffer (text "hi")) Metadata.empty s (snd put)
              (StorageProvider.mkPutResult "49f68a5c8493ec2c0bf489821c21fc3b" 2
                 demo_clock "your-bucket/a.txt"))
    as (d & g & Hd & _ & _ & Hget & Hstream).
  - apply Hplain. simpl. auto.
  - apply Hplain. simpl. auto.
  - apply Hplain. simpl. auto.
  - vm_compute. reflexivity.
  - injection Hd as <-. exists g. split; [exact Hget | exact Hstream].
Defined.

(** ** Copying in the sanitising provider *)

Section FileSystemCopy.
Context `{Platform} (this : FileSystemProvider.t).

(** The sidecar block of [getObject] never throws and changes nothing. *)
Lemma read_sidecar_value (metadataPath : string) (s : State) :
  read_sidecar metadataPath s
  = (Return match files s !! metadataPath with
            | Some (File c) => or_obj (file_json c) Metadata.empty
            | _ => Metadata.empty
            end, s).
Proof.
  unfold read_sidecar, try_catch, bind, fs_readFile, ret, throw.
  destruct (files s !! metadataPath) as [[c|]|]; try reflexivity.
  destruct (file_json c); reflexivity.
Qed.

(** [getObject] of an object whose file is in place. *)
Lemma FileSystemProvider_getObject_run (bucketName objectKey : string)
  (c : FileContent) (s : State) :
  files s !! FileSystemProvider.getObjectPath this bucketName objectKey
    = Some (File c) ->
  FileSystemProvider.getObject this bucketName objectKey s
  = (Return
       (get_result (StreamOf (file_bytes c))
          match files s !! (FileSystemProvider.getObjectPath this bucketName objectKey
                            +:+ ".meta") with
          | Some (File m) => or_obj (file_json m) Metadata.empty
          | _ => Metadata.empty
          end), s).
Proof.
  intros Hobj. unfold FileSystemProvider.getObject, try_catch, bind, fs_access.
  rewrite Hobj, read_sidecar_value, createReadStream_run.
  unfold stream_at. rewrite Hobj. reflexivity.
Qed.

(** X14: when [copyObject] of the sanitising provider returns, it returns
    [true], the source was readable, and [getObject] of the destination
    delivers the bytes of the source.  When the source has a sidecar file,
    distinct from the destination path, and nothing but a file is in the way
    of the destination sidecar, the whole result of [getObject] (metadata,
    size, etag, modification time, content type) is the one of the source. *)
Theorem FileSystemProvider_copyObject_copies
  (sourceBucket sourceKey destBucket destKey : string) (s s' : State) (r : bool) :
  FileSystemProvider.copyObject this sourceBucket sourceKey destBucket destKey s
    = (Return r, s') ->
  r = true
  /\ exists g g' d,
       FileSystemProvider.getObject this sourceBucket sourceKey s = (Return g, s)
       /\ GetResult.stream g = StreamOf d
       /\ FileSystemProvider.getObject this destBucket destKey s' = (Return g', s')
       /\ GetResult.stream g' = StreamOf d
       /\ (forall m,
             files s !! (FileSystemProvider.getObjectPath this sourceBucket sourceKey
                         +:+ ".meta") = Some (File m) ->
             FileSystemProvider.getObjectPath this destBucket destKey
               <> FileSystemProvider.getObjectPath this sourceBucket sourceKey
                  +:+ ".meta" ->
             files s' !! (FileSystemProvider.getObjectPath this destBucket destKey
                          +:+ ".meta") <> Some Directory ->
             g' = g).
Proof.
  unfold FileSystemProvider.copyObject.
  set (sourcePath := FileSystemProvider.getObjectPath this sourceBucket sourceKey).
  set (destPath := FileSystemProvider.getObjectPath this destBucket destKey).
  set (destDir := path_dirname destPath).
  intros Hcopy.
  unfold bind at 1 in Hcopy.
  destruct (fs_mkdir_recursive destDir s) as [[[]|e] s1] eqn:Hmk; [|discriminate].
  unfold bind at 1 in Hcopy.
  destruct (fs_copyFile sourcePath destPath s1) as [[[]|e] s2] eqn:Hcp;
    [|discriminate].
  unfold bind at 1 in Hcopy.
  destruct (try_catch (fs_copyFile (sourcePath +:+ ".meta") (destPath +:+ ".meta"))
              (fun _ => ret tt) s2) as [[[]|e] s3] eqn:Hcm; [|discriminate].
  unfold ret in Hcopy. injection Hcopy as <- <-.
  split; [reflexivity|].
  (* the first copy *)
  unfold fs_copyFile in Hcp.
  destruct (files s1 !! sourcePath) as [[c|]|] eqn:Hsrc1; try discriminate.
  assert (Hdest1 : files s1 !! destPath <> Some Directory)
    by (intros E; rewrite E in Hcp; discriminate).
  assert (Hs2 : s2 = set_files (insert destPath (File c)) s1).
  { destruct (files s1 !! destPath) as [[?|]|]; try congruence;
      injection Hcp as <-; reflexivity. }
  clear Hcp.
  (* the directory of the destination *)
  assert (Hfs1 : forall p, p <> destDir -> files s1 !! p = files s !! p).
  { intros p Hp. unfold fs_mkdir_recursive in Hmk.
    destruct (files s !! destDir) as [[?|]|]; try discriminate;
      injection Hmk as <-; [reflexivity|].
    simpl. apply lookup_insert_ne. congruence. }
  assert (Hdir1 : files s1 !! destDir = Some Directory).
  { unfold fs_mkdir_recursive in Hmk.
    destruct (files s !! destDir) as [[?|]|] eqn:Hd; try discriminate;
      injection Hmk as <-; [exact Hd|].
    simpl. apply lookup_insert_eq. }
  assert (Hsd : sourcePath <> destDir) by congruence.
  assert (Hsrc : files s !! sourcePath = Some (File c))
    by (rewrite <- Hfs1 by exact Hsd; exact Hsrc1).
  (* the second copy *)
  assert (Hdest3 : files s3 !! destPath = Some (File c)).
  { unfold try_catch, fs_copyFile, ret in Hcm. subst s2. simpl in Hcm.
    repeat (break_match; simpl in *; try discriminate);
      injection Hcm as <-; simpl;
      try (rewrite lookup_insert_ne by apply sidecar_path_differs);
      apply lookup_insert_eq. }
  exists (get_result (StreamOf (file_bytes c))
            match files s !! (sourcePath +:+ ".meta") with
            | Some (File m) => or_obj (file_json m) Metadata.empty
            | _ => Metadata.empty
            end),
         (get_result (StreamOf (file_bytes c))
            match files s3 !! (destPath +:+ ".meta") with
            | Some (File m) => or_obj (file_json m) Metadata.empty
            | _ => Metadata.empty
            end),
         (file_bytes c).
  split; [apply FileSystemProvider_getObject_run; exact Hsrc|].
  split; [reflexivity|].
  split; [apply FileSystemProvider_getObject_run; exact Hdest3|].
  split; [reflexivity|].
  intros m Hm Hne Hnodir. rewrite Hm.
  assert (Hm2 : files s2 !! (sourcePath +:+ ".meta") = Some (File m)).
  { subst s2. simpl. rewrite lookup_insert_ne by exact Hne.
    rewrite Hfs1; [exact Hm|]. intros E. rewrite E in Hm.
    unfold fs_mkdir_recursive in Hmk. rewrite Hm in Hmk. discriminate. }
  unfold try_catch, fs_copyFile, ret in Hcm. rewrite Hm2 in Hcm.
  destruct (files s2 !! (destPath +:+ ".meta")) as [[?|]|] eqn:Hdm;
    injection Hcm as <-; simpl in *.
  - rewrite lookup_insert_eq. reflexivity.
  - congruence.
  - rewrite lookup_insert_eq. reflexivity.
Qed.
End FileSystemCopy.


Lemma FileSystemProvider_copyObject_copies_witness :
  let this := FileSystemProvider.mk "./storage" in
  let s :=
    snd (@FileSystemProvider.putObject reference_platform this "my-bucket" "a.txt"
           (Buffer (text "hi")) Metadata.empty (initial demo_clock)) in
  let copy :=
    @FileSystemProvider.copyObject reference_platform this "my-bucket" "a.txt"
      "your-bucket" "b.txt" s in
  exists g,
    @FileSystemProvider.getObject reference_platform this "my-bucket" "a.txt" s
      = (Return g, s)
    /\ @FileSystemProvider.getObject reference_platform this "your-bucket" "b.txt"
         (snd copy) = (Return g, snd copy)
    /\ GetResult.stream g = StreamOf (text "hi").
Proof.
  intros this s copy.
  destruct (@FileSystemProvider_copyObject_copies reference_platform this
              "my-bucket" "a.txt" "your-bucket" "b.txt" s (snd copy) true)
    as (_ & g & g' & d & Hg & Hd & Hg' & Hd' & Hsame).
  - vm_compute. reflexivity.
  - assert (Hm : files s !! (@FileSystemProvider.getObjectPath reference_platform
                               this "my-bucket" "a.txt" +:+ ".meta")
                 = Some (File (Sidecar (@fullMetadata Metadata.empty 2
                                  "49f68a5c8493ec2c0bf489821c21fc3b" demo_clock))))
      by (vm_compute; reflexivity).
    assert (Hne : @FileSystemProvider.getObjectPath reference_platform this
                    "your-bucket" "b.txt"
                  <> @FileSystemProvider.getObjectPath reference_platform this
                       "my-bucket" "a.txt" +:+ ".meta")
      by (intros E; vm_compute in E; discriminate E).
    assert (Hfile : files (snd copy)
                      !! (@FileSystemProvider.getObjectPath reference_platform this
                            "your-bucket" "b.txt" +:+ ".meta")
                    <> Some Directory)
      by (intros E; vm_compute in E; discriminate E).
    rewrite (Hsame _ Hm Hne Hfile) in Hg'.
    exists g. split; [exact Hg|]. split; [exact Hg'|].
    clear Hsame Hm Hne Hfile Hg' Hd Hd'.
    pose proof (f_equal (fun r : Result GetResult.t * State =>
                           match fst r with
                           | Return g0 => GetResult.stream g0
                           | Throw _ => StreamError ENOENT
                           end) Hg) as E.
    vm_compute in E. symmetry. exact E.
Defined.

(** ** Upload, then read *)

Lemma find_app_fresh {A : Type} (p : A -> bool) (l : list A) (o : A) :
  (forall x, In x l -> p x = false) -> p o = true -> find p (l ++ [o]) = Some o.
Proof.
  intros Hl Ho. induction l as [|x l IH]; simpl.
  - rewrite Ho. reflexivity.
  - rewrite (Hl x) by (left; reflexivity). apply IH.
    intros y Hy. apply Hl. right. exact Hy.
Qed.

Section UploadThenRead.
Context `{Platform} (iamService : IAMService.t) (storageProvider : StorageProvider.t).

Lemma holds_version_condition_iff (bucket : Bucket.t) (key : string)
  (versionId : option uuid) (x : S3Object.t) :
  holds (ObjectService.version_condition bucket key versionId) x = true
  <-> live x = true /\ S3Object.bucketId x = Bucket.id bucket
      /\ S3Object.key x = key
      /\ match versionId with
         | Some v => S3Object.versionId x = v
         | None => S3Object.isLatest x = true
         end.
Proof.
  unfold holds, ObjectService.version_condition.
  destruct versionId as [v|]; simpl;
    rewrite ?andb_true_r, !andb_true_iff, Nat.eqb_eq, String.eqb_eq.
  - rewrite Nat.eqb_eq. tauto.
  - destruct (S3Object.isLatest x); simpl; intuition congruence.
Qed.

(** What a returning [uploadObject] leaves in the physical store, and the
    fields of the row that it returns. *)
Lemma uploadObject_stores (bucketName key : string) (data : bytes)
  (metadata : Metadata.t) (userId : string) (s s' : State) (o : S3Object.t) :
  ObjectService.uploadObject iamService storageProvider bucketName key data
    metadata userId s = (Return o, s') ->
  files s' !! object_path storageProvider bucketName key = Some (File (Raw data))
  /\ files s' !! (object_path storageProvider bucketName key +:+ ".meta")
     = Some (File (Sidecar (sidecar_of (ObjectService.put_metadata metadata) data
                              (clock s))))
  /\ S3Object.size o = N.of_nat (length data)
  /\ S3Object.etag o = md5_hex data
  /\ S3Object.contentType o
     = or_str (Metadata.contentType metadata) "application/octet-stream"
  /\ S3Object.metadata o = or_obj (Metadata.userMetadata metadata) []
  /\ S3Object.updatedAt o = clock s
  /\ S3Object.ownerId o = userId.
Proof.
  intros Hrun. unfold ObjectService.uploadObject in Hrun.
  unfold bind at 1 in Hrun. rewrite Bucket_findOne_run in Hrun.
  destruct (find_bucket s bucketName) as [bucket|]; [|discriminate].
  unfold bind at 1 in Hrun. unfold IAMService.checkPermission, ret at 1 in Hrun.
  destruct (denied _); [discriminate|].
  unfold bind at 1 in Hrun.
  destruct (StorageProvider.putObject _ _ _ _ _ s) as [[result|e] s1] eqn:Hput;
    [|discriminate].
  apply StorageProvider_putObject_stores in Hput
    as (d & Hd & -> & Hclock & Hobj & Hmeta).
  injection Hd as <-.
  unfold bind at 1 in Hrun.
  destruct (Bucket.versioningEnabled bucket).
  - unfold S3Object_update_isLatest at 1 in Hrun. unfold bind at 1 in Hrun.
    unfold S3Object_create at 1 in Hrun. simpl in Hrun.
    destruct (negb _); simpl in Hrun; [discriminate|].
    injection Hrun as <- <-. simpl. rewrite Hclock. auto 10.
  - unfold bind at 1, S3Object_findOne at 1 in Hrun.
    destruct (find _ (objects s1)); [discriminate|].
    unfold ret at 1 in Hrun. unfold bind at 1 in Hrun.
    unfold S3Object_create at 1 in Hrun.
    destruct (negb _); simpl in Hrun; [discriminate|].
    injection Hrun as <- <-. simpl. rewrite Hclock. auto 10.
Qed.

(** After a returning [uploadObject], the returned row is the one that the
    catalogue resolves for the key, by its version id and as the latest. *)
Lemma uploaded_row_found (bucketName key : string) (data : bytes)
  (metadata : Metadata.t) (userId : string) (s s' : State) (o : S3Object.t)
  (versionId : option uuid) :
  well_formed s ->
  ObjectService.uploadObject iamService storageProvider bucketName key data
    metadata userId s = (Return o, s') ->
  versionId = None \/ versionId = Some (S3Object.versionId o) ->
  exists bucket,
    find_bucket s' bucketName = Some bucket
    /\ find (holds (ObjectService.version_condition bucket key versionId))
         (objects s') = Some o.
Proof.
  intros Hwf Hrun Hv.
  apply uploadObject_effect in Hrun as (Hbuckets & bucket & Hfound & _ & Hnew & Hrows).
  exists bucket. split; [rewrite (find_bucket_same _ _ Hbuckets); exact Hfound|].
  destruct Hnew as (Hid & Hversion & Hkey & Hbid & Hname & Hlatest & Hlive).
  assert (Ho : holds (ObjectService.version_condition bucket key versionId) o = true).
  { apply holds_version_condition_iff. repeat split; try assumption.
    destruct Hv as [-> | ->]; [exact Hlatest | reflexivity]. }
  assert (Hold : forall x, In x (objects s) ->
            holds (ObjectService.version_condition bucket key
                     (Some (S3Object.versionId o))) x = false).
  { intros x Hx. apply not_true_is_false. intros Hh.
    apply holds_version_condition_iff in Hh as (_ & _ & _ & Hxv).
    destruct (wf_rows s Hwf x Hx) as (_ & Hlt & _). lia. }
  destruct (Bucket.versioningEnabled bucket) eqn:Hon.
  - rewrite Hrows. apply find_app_fresh; [|exact Ho].
    intros x' Hin. apply in_map_iff in Hin as (x & <- & Hx).
    apply not_true_is_false. intros Hh.
    destruct Hv as [-> | ->].
    + apply holds_version_condition_iff in Hh as (Hl & Hb & Hk & Hlat).
      unfold mark_not_latest in *.
      destruct (holds (versions_condition bucket key) x) eqn:Hvc;
        [simpl in Hlat; discriminate|].
      assert (holds (versions_condition bucket key) x = true)
        by (apply holds_versions_condition; auto).
      congruence.
    + specialize (Hold x Hx).
      assert (holds (ObjectService.version_condition bucket key
                       (Some (S3Object.versionId o))) x = true); [|congruence].
      apply holds_version_condition_iff.
      apply holds_version_condition_iff in Hh as (Hl & Hb & Hk & Hxv).
      unfold mark_not_latest in *.
      destruct (holds (versions_condition bucket key) x); simpl in *; auto.
  - destruct Hrows as [Hrows Hnone]. rewrite Hrows.
    apply find_app_fresh; [|exact Ho].
    intros x Hx. destruct Hv as [-> | ->]; [|apply Hold; exact Hx].
    apply not_true_is_false. intros Hh.
    apply holds_version_condition_iff in Hh as (Hl & Hb & Hk & _).
    apply find_bucket_some in Hfound as [Hin Hn].
    pose proof (wf_coherent s Hwf x bucket Hx Hin Hb) as Hcoh.
    rewrite Hn in Hcoh.
    pose proof (find_none _ _ Hnone x Hx) as Hno.
    assert (holds (existing_condition bucketName key) x = true); [|congruence].
    apply holds_existing_condition. auto.
Qed.

Lemma or_str_same (x : string) : or_str (Some x) x = x.
Proof. unfold or_str. destruct (String.eqb x ""); reflexivity. Qed.

Lemma or_num_zero (n : N) : or_num (Some n) 0 = n.
Proof.
  unfold or_num. destruct (N.eqb n 0) eqn:E; [|reflexivity].
  apply N.eqb_eq in E. congruence.
Qed.

Lemma or_num_same (n : N) : or_num (Some n) n = n.
Proof. unfold or_num. destruct (N.eqb n 0); reflexivity. Qed.

(** The result of [getObject] right after a returning [uploadObject]. *)
Lemma getObject_after_upload (bucketName key : string) (data : bytes)
  (metadata : Metadata.t) (userId : string) (s s' : State) (o : S3Object.t) :
  ObjectService.uploadObject iamService storageProvider bucketName key data
    metadata userId s = (Return o, s') ->
  StorageProvider.getObject storageProvider bucketName key s'
  = (Return (get_result (StreamOf data)
               (sidecar_of (ObjectService.put_metadata metadata) data (clock s))), s').
Proof.
  intros Hrun. apply uploadObject_stores in Hrun as (Hobj & Hmeta & _).
  apply (StorageProvider_getObject_stored storageProvider bucketName key (Raw data));
    assumption.
Qed.

(** The download that follows a returning upload, in a well-formed
    catalogue. *)
Lemma downloadObject_after_upload (bucketName key : string) (data : bytes)
  (metadata : Metadata.t) (userId reader : string) (s s' : State)
  (o : S3Object.t) (versionId : option uuid) :
  well_formed s ->
  ObjectService.uploadObject iamService storageProvider bucketName key data
    metadata userId s = (Return o, s') ->
  denied (object_check iamService reader "read" bucketName key) = false ->
  versionId = None \/ versionId = Some (S3Object.versionId o) ->
  ObjectService.downloadObject iamService storageProvider bucketName key reader
    versionId s'
  = (Return
       (Download.mk (StreamOf data)
          (or_str (Metadata.contentType metadata) "application/octet-stream")
          (N.of_nat (length data)) (md5_hex data) (clock s)
          (or_obj (Metadata.userMetadata metadata) []) None), s').
Proof.
  intros Hwf Hrun Hperm Hv.
  destruct (uploaded_row_found _ _ _ _ _ _ _ _ versionId Hwf Hrun Hv)
    as (bucket & Hbucket & Hfind).
  rewrite (downloadObject_run _ _ _ _ _ _ bucket _ Hbucket Hperm), Hfind.
  rewrite (getObject_after_upload _ _ _ _ _ _ _ _ Hrun).
  apply uploadObject_stores in Hrun
    as (_ & _ & Hsize & Hetag & Htype & Hmeta & Htime & _).
  rewrite Hsize, Hetag, Htype, Htime.
  unfold get_result, sidecar_of, fullMetadata, ObjectService.put_metadata.
  cbn [GetResult.stream GetResult.contentType GetResult.size GetResult.etag
       GetResult.lastModified GetResult.metadata Metadata.contentType
       Metadata.size Metadata.etag Metadata.lastModified Metadata.userMetadata
       or_obj].
  rewrite !or_str_twice, !or_str_empty, !or_str_same, or_num_zero, or_num_same.
  reflexivity.
Qed.

(** X15: what [uploadObject] has stored, [downloadObject] gives back.  In a
    state between requests, after an upload that returns, a caller who may
    read gets, for the latest version and for the version id of the returned
    row, the uploaded bytes with their length, their MD5 digest as etag, the
    content type (the default one when none was given), the user metadata
    and the time of the upload; the download changes nothing. *)
Theorem upload_then_download (bucketName key : string) (data : bytes)
  (metadata : Metadata.t) (userId reader : string) (s s' : State)
  (o : S3Object.t) (versionId : option uuid) :
  reachable iamService storageProvider s ->
  ObjectService.uploadObject iamService storageProvider bucketName key data
    metadata userId s = (Return o, s') ->
  denied (object_check iamService reader "read" bucketName key) = false ->
  versionId = None \/ versionId = Some (S3Object.versionId o) ->
  ObjectService.downloadObject iamService storageProvider bucketName key reader
    versionId s'
  = (Return
       (Download.mk (StreamOf data)
          (or_str (Metadata.contentType metadata) "application/octet-stream")
          (N.of_nat (length data)) (md5_hex data) (clock s)
          (or_obj (Metadata.userMetadata metadata) []) None), s').
Proof.
  intros Hreach. apply downloadObject_after_upload.
  apply (reachable_well_formed _ _ _ Hreach).
Qed.

(** X16: the versions of a key share one file.  After an upload that
    returns, [downloadObject] streams the bytes of this upload for every
    version id that the catalogue resolves for the key, the ids of older
    versions included. *)
Theorem versions_share_one_file (bucketName key : string) (data : bytes)
  (metadata : Metadata.t) (userId reader : string) (s s' : State)
  (o row : S3Object.t) (bucket : Bucket.t) (versionId : option uuid) :
  ObjectService.uploadObject iamService storageProvider bucketName key data
    metadata userId s = (Return o, s') ->
  denied (object_check iamService reader "read" bucketName key) = false ->
  find_bucket s' bucketName = Some bucket ->
  find (holds (ObjectService.version_condition bucket key versionId)) (objects s')
    = Some row ->
  exists d,
    ObjectService.downloadObject iamService storageProvider bucketName key reader
      versionId s' = (Return d, s')
    /\ Download.stream d = StreamOf data.
Proof.
  intros Hrun Hperm Hbucket Hfind.
  rewrite (downloadObject_run _ _ _ _ _ _ bucket _ Hbucket Hperm), Hfind.
  rewrite (getObject_after_upload _ _ _ _ _ _ _ _ Hrun).
  eexists. split; reflexivity.
Qed.

(** X17: the catalogue alone answers [getObjectMetadata].  After an upload
    that returns, a caller who may read gets the fields of the new row, for
    the latest version and for its version id, whatever has happened to the
    files since. *)
Theorem head_after_upload (bucketName key : string) (data : bytes)
  (metadata : Metadata.t) (userId reader : string) (s s' : State)
  (o : S3Object.t) (versionId : option uuid)
  (f : gmap string FsNode -> gmap string FsNode) :
  reachable iamService storageProvider s ->
  ObjectService.uploadObject iamService storageProvider bucketName key data
    metadata userId s = (Return o, s') ->
  denied (object_check iamService reader "read" bucketName key) = false ->
  versionId = None \/ versionId = Some (S3Object.versionId o) ->
  ObjectService.getObjectMetadata iamService bucketName key reader versionId
    (set_files f s')
  = (Return
       (ObjectMetadata.mk
          (or_str (Metadata.contentType metadata) "application/octet-stream")
          (N.of_nat (length data)) (md5_hex data) (clock s)
          (or_obj (Metadata.userMetadata metadata) [])
          (S3Object.versionId o) true), set_files f s').
Proof.
  intros Hreach Hrun Hperm Hv.
  destruct (uploaded_row_found _ _ _ _ _ _ _ _ versionId
              (reachable_well_formed _ _ _ Hreach) Hrun Hv)
    as (bucket & Hbucket & Hfind).
  unfold ObjectService.getObjectMetadata.
  unfold bind at 1. rewrite Bucket_findOne_run.
  change (find_bucket (set_files f s') bucketName) with (find_bucket s' bucketName).
  rewrite Hbucket.
  unfold bind at 1. unfold IAMService.checkPermission, ret at 1.
  fold (object_check iamService reader "read" bucketName key). rewrite Hperm.
  unfold bind at 1, S3Object_findOne.
  change (objects (set_files f s')) with (objects s'). rewrite Hfind.
  pose proof (uploadObject_effect _ _ _ _ _ _ _ _ _ _ Hrun)
    as (_ & b & _ & _ & Hnew & _).
  destruct Hnew as (_ & _ & _ & _ & _ & Hlatest & _).
  apply uploadObject_stores in Hrun
    as (_ & _ & Hsize & Hetag & Htype & Hmeta & Htime & _).
  unfold ret. rewrite Hsize, Hetag, Htype, Hmeta, Htime, Hlatest. reflexivity.
Qed.

(** [unlink_object_and_sidecar] returns only with the object file gone. *)
Lemma unlink_returns_absent (objectPath metadataPath : string) (s s' : State)
  (b : bool) :
  unlink_object_and_sidecar objectPath metadataPath s = (Return b, s') ->
  files s' !! objectPath = None.
Proof.
  intros Hrun.
  destruct (files s !! objectPath) as [[c|]|] eqn:Hobj.
  - unfold unlink_object_and_sidecar in Hrun.
    unfold bind at 1, try_catch at 1, fs_unlink at 1 in Hrun. rewrite Hobj in Hrun.
    unfold bind, try_catch, fs_unlink, ret in Hrun. simpl in Hrun.
    destruct (delete objectPath (files s) !! metadataPath) as [[c'|]|] eqn:Hm;
      injection Hrun as _ <-; simpl.
    + destruct (decide (metadataPath = objectPath)) as [->|Hne];
        [apply lookup_delete_eq|].
      rewrite lookup_delete_ne by assumption. apply lookup_delete_eq.
    + apply lookup_delete_eq.
    + apply lookup_delete_eq.
  - unfold unlink_object_and_sidecar in Hrun.
    unfold bind at 1, try_catch at 1, fs_unlink at 1 in Hrun. rewrite Hobj in Hrun.
    discriminate.
  - pose proof (unlink_absent_object_returns objectPath metadataPath s Hobj)
      as [_ Hgone].
    rewrite Hrun in Hgone. exact Hgone.
Qed.

Lemma delete_each_absent (bucketName key : string) (l : list S3Object.t) :
  forall s,
    files s !! object_path storageProvider bucketName key = None ->
    files (snd (ObjectService.delete_each storageProvider bucketName key l s))
      !! object_path storageProvider bucketName key = None.
Proof.
  induction l as [|x l IH]; intros s Hgone; [exact Hgone|].
  cbn [ObjectService.delete_each]. unfold bind at 1.
  unfold StorageProvider.deleteObject.
  fold (object_path storageProvider bucketName key).
  pose proof (unlink_absent_object_returns
                (object_path storageProvider bucketName key)
                (object_path storageProvider bucketName key +:+ ".meta") s Hgone)
    as [Hret Hgone1].
  destruct (unlink_object_and_sidecar _ _ s) as [[b|e] s1]; simpl in Hret, Hgone1;
    [|discriminate].
  unfold bind at 1. unfold S3Object_destroy at 1. apply IH. exact Hgone1.
Qed.

Lemma delete_each_removes_file (bucketName key : string) (x : S3Object.t)
  (l : list S3Object.t) (s s' : State) (u : unit) :
  ObjectService.delete_each storageProvider bucketName key (x :: l) s
    = (Return u, s') ->
  files s' !! object_path storageProvider bucketName key = None.
Proof.
  cbn [ObjectService.delete_each]. unfold bind at 1.
  destruct (StorageProvider.deleteObject storageProvider bucketName key s)
    as [[b|e] s1] eqn:Hdel; [|discriminate].
  apply unlink_returns_absent in Hdel.
  fold (object_path storageProvider bucketName key) in Hdel.
  unfold bind at 1, S3Object_destroy at 1. intros Hrun.
  match type of Hrun with
  | ObjectService.delete_each _ _ _ l ?st = _ =>
      pose proof (delete_each_absent bucketName key l st Hdel) as Hgone
  end.
  rewrite Hrun in Hgone. exact Hgone.
Qed.

(** A returning [deleteObject] leaves no file of the key. *)
Lemma deleteObject_removes_file (bucketName key userId : string)
  (versionId : option uuid) (s s' : State) (u : unit) :
  ObjectService.deleteObject iamService storageProvider bucketName key userId
    versionId s = (Return u, s') ->
  files s' !! object_path storageProvider bucketName key = None
  /\ buckets s' = buckets s.
Proof.
  intros Hrun.
  unfold ObjectService.deleteObject in Hrun.
  unfold bind at 1 in Hrun. rewrite Bucket_findOne_run in Hrun.
  destruct (find_bucket s bucketName) as [bucket|]; [|discriminate].
  unfold bind at 1 in Hrun. unfold IAMService.checkPermission, ret at 1 in Hrun.
  destruct (denied _); [discriminate|].
  unfold bind at 1, S3Object_findAll at 1 in Hrun.
  destruct (List.filter _ (objects s)) as [|x l]; [discriminate|].
  unfold bind at 1 in Hrun.
  destruct (ObjectService.delete_each storageProvider bucketName key (x :: l) s)
    as [[[]|e] s1] eqn:Heach; [|discriminate].
  rewrite _logAccess_run in Hrun. injection Hrun as Hs. subst s1.
  split.
  - eapply delete_each_removes_file. exact Heach.
  - apply delete_each_effect in Heach as (Hb & _). exact Hb.
Qed.

(** X18: deleting any version of a key removes the one file of the key.
    After a [deleteObject] that returns, a download by a caller who may read
    throws: the [404] error of the service when the catalogue resolves no
    row for the asked version, and otherwise, for every version that is
    still in the catalogue, the plain error [Object not found] of the
    storage provider. *)
Theorem download_after_delete (bucketName key userId reader : string)
  (deleted asked : option uuid) (s s' : State) (u : unit) :
  ObjectService.deleteObject iamService storageProvider bucketName key userId
    deleted s = (Return u, s') ->
  denied (object_check iamService reader "read" bucketName key) = false ->
  exists bucket,
    find_bucket s' bucketName = Some bucket
    /\ ObjectService.downloadObject iamService storageProvider bucketName key
         reader asked s'
       = (Throw
            match find (holds (ObjectService.version_condition bucket key asked))
                    (objects s') with
            | Some _ =>
                Error ("Object not found: " +:+ bucketName +:+ "/" +:+ key)
            | None => AppError "Object not found" 404 "OBJECT_NOT_FOUND"
            end, s').
Proof.
  intros Hrun Hperm.
  destruct (deleteObject_removes_file _ _ _ _ _ _ _ Hrun) as [Hgone Hb].
  assert (Hfound : exists bucket, find_bucket s bucketName = Some bucket).
  { unfold ObjectService.deleteObject in Hrun.
    unfold bind at 1 in Hrun. rewrite Bucket_findOne_run in Hrun.
    destruct (find_bucket s bucketName) as [bucket|]; [eauto | discriminate]. }
  destruct Hfound as [bucket Hbucket].
  rewrite <- (find_bucket_same _ _ Hb) in Hbucket.
  exists bucket. split; [exact Hbucket|].
  rewrite (downloadObject_run _ _ _ _ _ _ bucket _ Hbucket Hperm).
  destruct (find _ (objects s')) as [row|]; [|reflexivity].
  unfold StorageProvider.getObject.
  fold (object_path storageProvider bucketName key).
  unfold try_catch, bind, fs_access. rewrite Hgone. reflexivity.
Qed.
End UploadThenRead.

Lemma upload_then_download_witness :
  let s :=
    demo_serve [CreateBucket "my-bucket" None true "admin-user"] (initial demo_clock) in
  let upload :=
    @ObjectService.uploadObject reference_platform simulated_iamService
      default_storage "my-bucket" "a.txt" (text "hi") Metadata.empty "admin-user" s in
  @ObjectService.downloadObject reference_platform simulated_iamService
    default_storage "my-bucket" "a.txt" "admin-user" None (snd upload)
  = (Return
       (Download.mk (StreamOf (text "hi"))
          (or_str (Metadata.contentType Metadata.empty) "application/octet-stream")
          (N.of_nat (length (text "hi"))) (@md5_hex reference_platform (text "hi"))
          (clock s) (or_obj (Metadata.userMetadata Metadata.empty) []) None),
     snd upload).
Proof.
  intros s upload.
  apply (@upload_then_download reference_platform simulated_iamService
            default_storage "my-bucket" "a.txt" (text "hi") Metadata.empty
            "admin-user" "admin-user" s (snd upload)
            (S3Object.mk 1 "a.txt" 0 (Some "my-bucket") 2 true 2
               "application/octet-stream" "49f68a5c8493ec2c0bf489821c21fc3b" []
               None "my-bucket/a.txt" "admin-user" demo_clock None) None).
  - exact (reachable_serve_all simulated_iamService default_storage
             [CreateBucket "my-bucket" None true "admin-user"] (initial demo_clock)
             (reachable_initial simulated_iamService default_storage demo_clock)).
  - vm_compute. reflexivity.
  - vm_compute. reflexivity.
  - left. reflexivity.
Defined.

(** The first version of [a.txt], asked for after the second upload. *)
Lemma versions_share_one_file_witness :
  let s :=
    demo_serve
      [CreateBucket "my-bucket" None true "admin-user";
       UploadObject "my-bucket" "a.txt" (text "v1") Metadata.empty "admin-user"]
      (initial demo_clock) in
  let upload :=
    @ObjectService.uploadObject reference_platform simulated_iamService
      default_storage "my-bucket" "a.txt" (text "v2") Metadata.empty "admin-user" s in
  exists d,
    @ObjectService.downloadObject reference_platform simulated_iamService
      default_storage "my-bucket" "a.txt" "admin-user" (Some 2) (snd upload)
    = (Return d, snd upload)
    /\ Download.stream d = StreamOf (text "v2").
Proof.
  intros s upload.
  eapply (@versions_share_one_file reference_platform simulated_iamService
            default_storage "my-bucket" "a.txt" (text "v2") Metadata.empty
            "admin-user" "admin-user" s (snd upload)).
  - vm_compute. reflexivity.
  - vm_compute. reflexivity.
  - vm_compute. reflexivity.
  - vm_compute. reflexivity.
Defined.

Lemma head_after_upload_witness :
  let s :=
    demo_serve [CreateBucket "my-bucket" None true "admin-user"] (initial demo_clock) in
  let upload :=
    @ObjectService.uploadObject reference_platform simulated_iamService
      default_storage "my-bucket" "a.txt" (text "hi") Metadata.empty "admin-user" s in
  @ObjectService.getObjectMetadata reference_platform simulated_iamService
    "my-bucket" "a.txt" "admin-user" None (set_files (fun _ => ∅) (snd upload))
  = (Return
       (ObjectMetadata.mk
          (or_str (Metadata.contentType Metadata.empty) "application/octet-stream")
          (N.of_nat (length (text "hi"))) (@md5_hex reference_platform (text "hi"))
          (clock s) (or_obj (Metadata.userMetadata Metadata.empty) []) 2 true),
     set_files (fun _ => ∅) (snd upload)).
Proof.
  intros s upload.
  eapply (@head_after_upload reference_platform simulated_iamService
            default_storage "my-bucket" "a.txt" (text "hi") Metadata.empty
            "admin-user" "admin-user" s (snd upload)
            (S3Object.mk 1 "a.txt" 0 (Some "my-bucket") 2 true 2
               "application/octet-stream" "49f68a5c8493ec2c0bf489821c21fc3b" []
               None "my-bucket/a.txt" "admin-user" demo_clock None)).
  - exact (reachable_serve_all simulated_iamService default_storage
             [CreateBucket "my-bucket" None true "admin-user"] (initial demo_clock)
             (reachable_initial simulated_iamService default_storage demo_clock)).
  - vm_compute. reflexivity.
  - vm_compute. reflexivity.
  - left. reflexivity.
Defined.

(** The latest version of [a.txt] is deleted; the first one is asked for. *)
Lemma download_after_delete_witness :
  let deletion :=
    @ObjectService.deleteObject reference_platform simulated_iamService
      default_storage "my-bucket" "a.txt" "admin-user" None versioned_demo in
  @ObjectService.downloadObject reference_platform simulated_iamService
    default_storage "my-bucket" "a.txt" "admin-user" (Some 2) (snd deletion)
  = (Throw (Error "Object not found: my-bucket/a.txt"), snd deletion).
Proof.
  intros deletion.
  destruct (@download_after_delete reference_platform simulated_iamService
              default_storage "my-bucket" "a.txt" "admin-user" "admin-user" None
              (Some 2) versioned_demo (snd deletion) tt)
    as (bucket & Hbucket & Hdownload).
  - vm_compute. reflexivity.
  - vm_compute. reflexivity.
  - refine (eq_trans Hdownload _).
    vm_compute in Hbucket. injection Hbucket as <-.
    vm_compute. reflexivity.
Defined.

(** ** Bucket names *)




Section BucketNames.
Context `{Platform} (iamService : IAMService.t) (storageProvider : StorageProvider.t).


End BucketNames.


(** ** The two validators of bucket names *)

Lemma includes_first_char (str sub : string) (c : ascii) (rest : string) :
  sub = String c rest -> includes str sub = true -> In c (list_ascii_of_string str).
Proof.
  intros -> Hin. apply includes_iff in Hin as (a & b & ->).
  rewrite !list_ascii_of_append. apply in_or_app. right.
  apply in_or_app. left. left. reflexivity.
Qed.

Lemma is_name_char_not_dot (c : ascii) : is_name_char c = true -> c <> "."%char.
Proof. intros Hc ->. discriminate Hc. Qed.

Lemma is_name_char_storage (c : ascii) :
  is_name_char c = true -> StorageUtils.is_storage_name_char c = true.
Proof.
  unfold is_name_char, StorageUtils.is_storage_name_char.
  intros Hc. apply orb_true_iff in Hc as [-> | ->]; [reflexivity|].
  apply orb_true_r.
Qed.

(** What the expression of [utils/helpers] says about the characters. *)
Lemma bucketNameRegex_chars (name : string) :
  bucketNameRegex_test name = true ->
  Forall (fun c => is_name_char c = true) (list_ascii_of_string name)
  /\ StorageUtils.startRegex_test name = true
  /\ StorageUtils.endRegex_test name = true.
Proof.
  unfold bucketNameRegex_test, StorageUtils.startRegex_test,
    StorageUtils.endRegex_test.
  destruct name as [|first rest]; [discriminate|]. cbn [list_ascii_of_string].
  intros Hre. apply andb_true_iff in Hre as [Hfirst Hre].
  destruct (rev (list_ascii_of_string rest)) as [|last middle] eqn:Hrev;
    [discriminate|].
  apply andb_true_iff in Hre as [Hlast Hmiddle].
  split; [|split].
  - apply List.Forall_forall. intros c [<- | Hc];
      [unfold is_name_char; rewrite Hfirst; reflexivity|].
    apply in_rev in Hc. rewrite Hrev in Hc. destruct Hc as [<- | Hc].
    + unfold is_name_char. rewrite Hlast. reflexivity.
    + exact (proj1 (forallb_forall _ _) Hmiddle c Hc).
  - exact Hfirst.
  - cbn [rev]. rewrite Hrev. exact Hlast.
Qed.

(** X20: every bucket name that [validateBucketName] of the helpers
    accepts, the validator of the storage utilities accepts too: it returns
    [true] and throws none of its errors. *)
Theorem accepted_names_are_storage_names (name : string) :
  validateBucketName name = true ->
  StorageUtils.validateBucketName name = Return true.
Proof.
  unfold validateBucketName. intros Hvalid.
  destruct (String.eqb name "" || (String.length name <? 3)%nat
            || (63 <? String.length name)%nat) eqn:Hlen; [discriminate|].
  destruct (bucketNameRegex_test name) eqn:Hre; [|discriminate].
  apply orb_false_elim in Hlen as [Hlen H63].
  apply orb_false_elim in Hlen as [Hempty H3].
  apply bucketNameRegex_chars in Hre as (Hchars & Hstart & Hend).
  assert (Hdot : ~ In "."%char (list_ascii_of_string name)).
  { intros Hin. rewrite List.Forall_forall in Hchars.
    exact (is_name_char_not_dot _ (Hchars _ Hin) eq_refl). }
  unfold StorageUtils.validateBucketName.
  rewrite Hempty, H3, H63. cbn [orb].
  replace (StorageUtils.charsetRegex_test name) with true.
  2: { symmetry. unfold StorageUtils.charsetRegex_test. rewrite Hempty.
       apply forallb_forall. intros c Hc. apply is_name_char_storage.
       rewrite List.Forall_forall in Hchars. auto. }
  rewrite Hstart, Hend. cbn [negb orb].
  replace (StorageUtils.ipRegex_test name) with false
    by (unfold StorageUtils.ipRegex_test; rewrite split_on_without by exact Hdot;
        reflexivity).
  assert (Hnone : forall sub rest, sub = String "."%char rest ->
                    includes name sub = false).
  { intros sub rest Hsub. apply not_true_is_false. intros Hin.
    apply Hdot. exact (includes_first_char _ _ _ _ Hsub Hin). }
  rewrite (Hnone ".." "." eq_refl), (Hnone ".-" "-" eq_refl). cbn [orb].
  replace (includes name "-.") with false; [reflexivity|].
  symmetry. apply not_true_is_false. intros Hin.
  apply includes_iff in Hin as (a & b & Hname). apply Hdot. rewrite Hname.
  rewrite !list_ascii_of_append. apply in_or_app. right.
  apply in_or_app. left. right. left. reflexivity.
Qed.

Lemma accepted_names_are_storage_names_witness :
  StorageUtils.validateBucketName "my-bucket" = Return true.
Proof. apply accepted_names_are_storage_names. reflexivity. Defined.

(** ** The bearer token *)

Lemma split_on_concat (c : ascii) (str : string) :
  String.concat (String c "") (split_on c str) = str.
Proof.
  induction str as [|d str IH]; [reflexivity|]. cbn [split_on].
  destruct (Ascii.eqb d c) eqn:E.
  - apply Ascii.eqb_eq in E. subst d.
    pose proof (split_on_nonempty c str) as Hne.
    destruct (split_on c str) as [|p ps]; [congruence|].
    cbn [String.concat] in *. rewrite IH. reflexivity.
  - pose proof (split_on_nonempty c str) as Hne.
    destruct (split_on c str) as [|p ps]; [congruence|].
    destruct ps as [|q qs]; cbn [String.concat] in *; rewrite <- IH; reflexivity.
Qed.

Lemma split_on_parts (c : ascii) (str : string) :
  Forall (fun part => ~ In c (list_ascii_of_string part)) (split_on c str).
Proof.
  induction str as [|d str IH]; cbn [split_on].
  - constructor; [intros []|constructor].
  - destruct (Ascii.eqb d c) eqn:E.
    + constructor; [intros []|exact IH].
    + destruct (split_on c str) as [|p ps]; [constructor; [|constructor]|].
      * intros [-> | []]. rewrite Ascii.eqb_refl in E. discriminate.
      * inversion IH as [|? ? Hp Hps]; subst. constructor; [|exact Hps].
        intros [-> | Hin]; [rewrite Ascii.eqb_refl in E; discriminate|].
        exact (Hp Hin).
Qed.

(** X21: [extractToken] returns a token exactly for a header that is the
    word [Bearer], one space, and a token without a space (the empty token
    included); for any other header, and without a header, it returns
    null. *)
Theorem extractToken_bearer (authorization : option string) (token : string) :
  AuthMiddleware.extractToken authorization = Some token
  <-> authorization = Some ("Bearer " +:+ token)
      /\ ~ In " "%char (list_ascii_of_string token).
Proof.
  unfold AuthMiddleware.extractToken, truthy. split.
  - destruct authorization as [authHeader|]; [|discriminate].
    destruct (String.eqb authHeader ""); [discriminate|].
    pose proof (split_on_concat " " authHeader) as Hjoin.
    pose proof (split_on_parts " " authHeader) as Hparts.
    destruct (split_on " "%char authHeader) as [|scheme [|t [|x rest]]];
      try discriminate.
    destruct (String.eqb scheme "Bearer") eqn:Hscheme; [|discriminate].
    apply String.eqb_eq in Hscheme. subst scheme. intros [= ->].
    split.
    + rewrite <- Hjoin. reflexivity.
    + inversion Hparts as [|? ? _ Hrest]; subst.
      inversion Hrest; subst. assumption.
  - intros [-> Hnospace].
    change (String.eqb ("Bearer " +:+ token) "") with false. cbv iota.
    change ("Bearer " +:+ token) with ("Bearer" +:+ String " "%char token).
    rewrite split_on_append, (split_on_without _ token Hnospace).
    reflexivity.
Qed.

(** X22: with the simulated identity client, [requireAdmin] calls [next]
    exactly for an authenticated user who is one of the administrators;
    it always answers and changes nothing. *)
Theorem requireAdmin_lets_administrators (user : option string)
  (params : list (string * string)) (ip userAgent : string) (s : State) :
  exists reply,
    AuthorizationMiddleware.requireAdmin simulated_iamService user params ip
      userAgent s = (Return reply, s)
    /\ ((exists a t p d, reply = AuthorizationMiddleware.Next a t p d)
        <-> exists userId, user = Some userId /\ IAMClient.is_admin userId = true).
Proof.
  unfold AuthorizationMiddleware.requireAdmin,
    AuthorizationMiddleware.requirePermission.
  destruct user as [userId|].
  - rewrite substituteParams_no_colon by (simpl; intuition discriminate).
    unfold bind at 1, get_state at 1. unfold bind at 1.
    unfold IAMService.checkPermission, ret at 1.
    destruct (IAMClient.is_admin userId) eqn:Hadmin.
    + rewrite administrators_allowed by assumption. simpl.
      eexists. split; [reflexivity|]. split; eauto.
    + assert (Hdenied :
        denied (IAMService.answer simulated_iamService userId "admin:*" "*"
                  (ContextRequest ip userAgent (clock s))) = true).
      { apply others_denied; [assumption | reflexivity|].
        simpl. intuition discriminate. }
      destruct (IAMService.answer simulated_iamService userId "admin:*" "*" _)
        as [d|].
      * simpl in Hdenied. rewrite Hdenied. simpl.
        eexists. split; [reflexivity|]. split.
        -- intros (a & t & p & d' & Hreply). discriminate Hreply.
        -- intros (u & [= <-] & Hu). congruence.
      * eexists. split; [reflexivity|]. split.
        -- intros (a & t & p & d' & Hreply). discriminate Hreply.
        -- intros (u & [= <-] & Hu). congruence.
  - eexists. split; [reflexivity|]. split.
    + intros (a & t & p & d & Hreply). discriminate Hreply.
    + intros (u & Hu & _). discriminate Hu.
Qed.

(** ** Object keys made safe for storage *)

Lemma includes_pair_head (a b c : ascii) (r : string) :
  includes (String c r) (String a (String b ""))
  = (Ascii.eqb c a
     && match r with
        | String d _ => Ascii.eqb d b
        | EmptyString => false
        end)
    || includes r (String a (String b "")).
Proof.
  rewrite includes_cons. f_equal. simpl. destruct r as [|d r]; [reflexivity|].
  simpl. rewrite startsWith_empty, andb_true_r. reflexivity.
Qed.

(** A text that is part of another holds no pair that the other lacks. *)
Lemma includes_part (pre t post sub : string) :
  includes (pre +:+ t +:+ post) sub = false -> includes t sub = false.
Proof.
  intros Hno. apply not_true_is_false. intros Hin.
  apply includes_iff in Hin as (a & b & ->).
  assert (includes (pre +:+ (a +:+ sub +:+ b) +:+ post) sub = true); [|congruence].
  apply includes_iff. exists (pre +:+ a), (b +:+ post).
  rewrite !append_associative. reflexivity.
Qed.

Lemma collapse_slashes_head (c : ascii) (r : string) :
  exists t, StorageUtils.collapse_slashes (String c r) = String c t.
Proof.
  revert c. induction r as [|d r IH]; intros c; [exists ""; reflexivity|].
  cbn [StorageUtils.collapse_slashes].
  destruct (Ascii.eqb c "/"%char && Ascii.eqb d "/"%char) eqn:E; [|eauto].
  apply andb_true_iff in E as [Hc Hd].
  apply Ascii.eqb_eq in Hc, Hd. subst. apply IH.
Qed.

Lemma collapse_slashes_cons (c d : ascii) (r : string) :
  StorageUtils.collapse_slashes (String c (String d r))
  = if Ascii.eqb c "/"%char && Ascii.eqb d "/"%char
    then StorageUtils.collapse_slashes (String d r)
    else String c (StorageUtils.collapse_slashes (String d r)).
Proof. reflexivity. Qed.

Lemma collapse_slashes_chars (s : string) (x : ascii) :
  In x (list_ascii_of_string (StorageUtils.collapse_slashes s)) ->
  In x (list_ascii_of_string s).
Proof.
  induction s as [|c r IH]; [tauto|]. destruct r as [|d r]; [tauto|].
  rewrite collapse_slashes_cons.
  destruct (Ascii.eqb c "/"%char && Ascii.eqb d "/"%char).
  - intros Hin. right. apply IH. exact Hin.
  - intros [<- | Hin]; [left; reflexivity|]. right. apply IH. exact Hin.
Qed.

(** Collapsing the slashes brings no two characters together, slashes
    apart. *)
Lemma collapse_slashes_keeps (a b : ascii) (s : string) :
  includes s (String a (String b "")) = false ->
  includes (StorageUtils.collapse_slashes s) (String a (String b "")) = false.
Proof.
  induction s as [|c r IH]; [reflexivity|].
  destruct r as [|d r]; [intros Hno; exact Hno|].
  rewrite includes_pair_head. intros Hno.
  apply orb_false_elim in Hno as [Hhead Hrest].
  rewrite collapse_slashes_cons.
  destruct (Ascii.eqb c "/"%char && Ascii.eqb d "/"%char); [exact (IH Hrest)|].
  rewrite includes_pair_head, (IH Hrest), orb_false_r.
  destruct (collapse_slashes_head d r) as [t ->]. exact Hhead.
Qed.

Lemma collapse_slashes_clean (s : string) :
  includes (StorageUtils.collapse_slashes s) "//" = false.
Proof.
  induction s as [|c r IH]; [reflexivity|]. destruct r as [|d r].
  - simpl. rewrite andb_false_r. reflexivity.
  - rewrite collapse_slashes_cons.
    destruct (Ascii.eqb c "/"%char && Ascii.eqb d "/"%char) eqn:E; [exact IH|].
    change "//" with (String "/"%char (String "/"%char "")).
    rewrite includes_pair_head.
    change (String "/"%char (String "/"%char "")) with "//". rewrite IH, orb_false_r.
    destruct (collapse_slashes_head d r) as [t ->]. exact E.
Qed.

Lemma collapse_slashes_fixed (s : string) :
  includes s "//" = false -> StorageUtils.collapse_slashes s = s.
Proof.
  induction s as [|c r IH]; [reflexivity|]. destruct r as [|d r]; [reflexivity|].
  change "//" with (String "/"%char (String "/"%char "")).
  rewrite includes_pair_head. intros Hno.
  apply orb_false_elim in Hno as [Hhead Hrest].
  rewrite collapse_slashes_cons, Hhead. f_equal. apply IH. exact Hrest.
Qed.

Lemma trimStart_suffix (s : string) : exists pre, s = pre +:+ StorageUtils.trimStart s.
Proof.
  induction s as [|c r [pre IH]]; [exists ""; reflexivity|].
  cbn [StorageUtils.trimStart]. destruct (StorageUtils.is_space c).
  - exists (String c pre). change (String c pre +:+ ?x) with (String c (pre +:+ x)).
    f_equal. exact IH.
  - exists "". reflexivity.
Qed.

Lemma trimEnd_cons (c : ascii) (r : string) :
  StorageUtils.trimEnd (String c r)
  = match StorageUtils.trimEnd r with
    | EmptyString => if StorageUtils.is_space c then EmptyString else String c EmptyString
    | String e t => String c (String e t)
    end.
Proof. reflexivity. Qed.

Lemma trimEnd_prefix (s : string) : exists post, s = StorageUtils.trimEnd s +:+ post.
Proof.
  induction s as [|c r [post IH]]; [exists ""; reflexivity|].
  rewrite trimEnd_cons. destruct (StorageUtils.trimEnd r) as [|e t].
  - destruct (StorageUtils.is_space c).
    + exists (String c r). reflexivity.
    + exists r. reflexivity.
  - exists post.
    change (String c (String e t) +:+ post) with (String c (String e t +:+ post)).
    f_equal. exact IH.
Qed.

Lemma trim_part (s : string) :
  exists pre post, s = pre +:+ StorageUtils.trim s +:+ post.
Proof.
  unfold StorageUtils.trim.
  destruct (trimStart_suffix s) as [pre Hpre].
  destruct (trimEnd_prefix (StorageUtils.trimStart s)) as [post Hpost].
  exists pre, post. rewrite <- Hpost. exact Hpre.
Qed.

Lemma trimEnd_twice (s : string) :
  StorageUtils.trimEnd (StorageUtils.trimEnd s) = StorageUtils.trimEnd s.
Proof.
  induction s as [|c r IH]; [reflexivity|].
  rewrite trimEnd_cons. destruct (StorageUtils.trimEnd r) as [|e t] eqn:Hr.
  - destruct (StorageUtils.is_space c) eqn:Hc; [reflexivity|].
    rewrite trimEnd_cons. cbn [StorageUtils.trimEnd]. rewrite Hc. reflexivity.
  - rewrite trimEnd_cons, IH. reflexivity.
Qed.

Lemma trimStart_trimEnd (s : string) :
  StorageUtils.trimStart (StorageUtils.trimEnd (StorageUtils.trimStart s))
  = StorageUtils.trimEnd (StorageUtils.trimStart s).
Proof.
  assert (Hhead : forall t,
            match t with
            | String c _ => StorageUtils.is_space c = false
            | EmptyString => True
            end ->
            StorageUtils.trimStart (StorageUtils.trimEnd t) = StorageUtils.trimEnd t).
  { intros [|c r] Hc; [reflexivity|]. rewrite trimEnd_cons.
    destruct (StorageUtils.trimEnd r); rewrite ?Hc;
      cbn [StorageUtils.trimStart]; rewrite Hc; reflexivity. }
  apply Hhead. induction s as [|c r IH]; [exact I|].
  cbn [StorageUtils.trimStart].
  destruct (StorageUtils.is_space c) eqn:Hc; [exact IH | exact Hc].
Qed.

Lemma trim_twice (s : string) :
  StorageUtils.trim (StorageUtils.trim s) = StorageUtils.trim s.
Proof.
  unfold StorageUtils.trim. rewrite trimStart_trimEnd. apply trimEnd_twice.
Qed.

(** X23: the key that [sanitizeObjectKey] returns holds none of the
    characters that file systems reserve, no two dots in a row and no two
    slashes in a row, and has no white space at either end; sanitizing it
    again changes nothing. *)
Theorem sanitizeObjectKey_clean (objectKey : string) :
  let key := StorageUtils.sanitizeObjectKey objectKey in
  forallb (fun c => negb (FileSystemProvider.reserved c)) (list_ascii_of_string key)
    = true
  /\ includes key ".." = false
  /\ includes key "//" = false
  /\ StorageUtils.trim key = key
  /\ StorageUtils.sanitizeObjectKey key = key.
Proof.
  intros key. unfold StorageUtils.sanitizeObjectKey in key.
  set (replaced := FileSystemProvider.replace_dotdot
                     (FileSystemProvider.replace_reserved objectKey)) in key.
  set (collapsed := StorageUtils.collapse_slashes replaced) in key.
  destruct (trim_part collapsed) as (pre & post & Hpart). fold key in Hpart.
  assert (Hreserved : forallb (fun c => negb (FileSystemProvider.reserved c))
                        (list_ascii_of_string key) = true).
  { apply forallb_forall. intros x Hx.
    assert (Hin : In x (list_ascii_of_string collapsed)).
    { rewrite Hpart, !list_ascii_of_append. apply in_or_app. right.
      apply in_or_app. left. exact Hx. }
    apply collapse_slashes_chars in Hin.
    pose proof (replace_dotdot_keeps_clean _ (replace_reserved_clean objectKey))
      as Hclean.
    exact (proj1 (forallb_forall _ _) Hclean x Hin). }
  assert (Hdots : includes key ".." = false).
  { apply (includes_part pre key post). rewrite <- Hpart.
    apply (collapse_slashes_keeps "." "."). apply replace_dotdot_clean. }
  assert (Hslashes : includes key "//" = false).
  { apply (includes_part pre key post). rewrite <- Hpart.
    apply collapse_slashes_clean. }
  assert (Htrim : StorageUtils.trim key = key) by apply trim_twice.
  repeat split; try assumption.
  unfold StorageUtils.sanitizeObjectKey.
  rewrite (replace_reserved_fixed _ Hreserved), (replace_dotdot_fixed _ Hdots),
    (collapse_slashes_fixed _ Hslashes).
  exact Htrim.
Qed.

(** ** Copies *)

Section CopyThenRead.
Context `{Platform} (iamService : IAMService.t) (storageProvider : StorageProvider.t).


End CopyThenRead.


(** ** Buckets *)

Section Buckets.
Context `{Platform} (iamService : IAMService.t) (storageProvider : StorageProvider.t).


Lemma find_map_same {A : Type} (p : A -> bool) (f : A -> A) (l : list A) :
  (forall x, p (f x) = p x) -> find p (map f l) = option_map f (find p l).
Proof.
  intros Hp. induction l as [|x l IH]; [reflexivity|].
  simpl. rewrite Hp. destruct (p x); [reflexivity | exact IH].
Qed.

(** X26: switching the versioning of a bucket.  When
    [updateBucketVersioning] returns in a state between requests, the bucket
    is found under its name with the new setting, it is the returned one, the
    other buckets are found as before, and the objects and the files are
    untouched. *)
Theorem versioning_switched (bucketName : string) (enabled : bool)
  (userId : string) (s s' : State) (b : Bucket.t) :
  reachable iamService storageProvider s ->
  BucketService.updateBucketVersioning iamService bucketName enabled userId s
    = (Return b, s') ->
  find_bucket s' bucketName = Some b
  /\ Bucket.versioningEnabled b = enabled
  /\ (forall other, other <> bucketName ->
        find_bucket s' other = find_bucket s other)
  /\ objects s' = objects s
  /\ files s' = files s.
Proof.
  intros Hreach Hrun. apply reachable_well_formed in Hreach.
  unfold BucketService.updateBucketVersioning in Hrun.
  unfold bind at 1 in Hrun. rewrite Bucket_findOne_run in Hrun.
  destruct (find_bucket s bucketName) as [bucket|] eqn:Hfound; [|discriminate].
  unfold bind at 1 in Hrun. unfold IAMService.checkPermission, ret at 1 in Hrun.
  destruct (denied _); [discriminate|].
  unfold Bucket_save_versioning in Hrun. injection Hrun as <- <-.
  set (f := fun x => if Nat.eqb (Bucket.id x) (Bucket.id bucket)
                     then Bucket.set_versioningEnabled enabled x else x).
  assert (Hfind : forall n,
            find_bucket (set_buckets (map f) s) n = option_map f (find_bucket s n)).
  { intros n. unfold find_bucket. simpl. apply find_map_same.
    intros x. unfold f. destruct (Nat.eqb _ _); reflexivity. }
  split; [|split; [reflexivity|split; [|split; reflexivity]]].
  - rewrite Hfind, Hfound. simpl. unfold f. rewrite Nat.eqb_refl. reflexivity.
  - intros other Hother. rewrite Hfind.
    destruct (find_bucket s other) as [x|] eqn:Hx; [|reflexivity].
    simpl. f_equal. unfold f.
    destruct (Nat.eqb (Bucket.id x) (Bucket.id bucket)) eqn:Hid; [|reflexivity].
    apply Nat.eqb_eq in Hid.
    apply find_bucket_some in Hx as [Hinx Hnamex].
    apply find_bucket_some in Hfound as [Hinb Hnameb].
    pose proof (wf_names s Hreach x bucket Hinx Hinb Hid). congruence.
Qed.
End Buckets.


Lemma versioning_switched_witness :
  let s :=
    demo_serve [CreateBucket "my-bucket" None false "admin-user"] (initial demo_clock) in
  let switch :=
    BucketService.updateBucketVersioning simulated_iamService "my-bucket" true
      "admin-user" s in
  find_bucket (snd switch) "my-bucket"
  = Some (Bucket.mk 0 "my-bucket" "us-east-1" true "admin-user" None).
Proof.
  intros s switch.
  apply (@versioning_switched reference_platform simulated_iamService
           default_storage "my-bucket" true "admin-user" s (snd switch)
           (Bucket.mk 0 "my-bucket" "us-east-1" true "admin-user" None)).
  - exact (reachable_serve_all simulated_iamService default_storage
             [CreateBucket "my-bucket" None false "admin-user"] (initial demo_clock)
             (reachable_initial simulated_iamService default_storage demo_clock)).
  - vm_compute. reflexivity.
Defined.

(** ** Access control lists *)

Section StoredAcl.
Context `{Platform} (iamService : IAMService.t).

End StoredAcl.


(** ** The copy source *)

Lemma span_not_slash_spec (str : string) :
  let (a, b) := objectController.span_not_slash str in
  str = a +:+ b
  /\ ~ In "/"%char (list_ascii_of_string a)
  /\ match b with
     | String c _ => c = "/"%char
     | EmptyString => True
     end.
Proof.
  induction str as [|c str IH]; [simpl; tauto|].
  cbn [objectController.span_not_slash].
  destruct (Ascii.eqb_spec c "/"%char) as [->|Hc]; [simpl; tauto|].
  destruct (objectController.span_not_slash str) as [a b].
  destruct IH as (-> & Ha & Hb). split; [reflexivity|]. split; [|exact Hb].
  simpl. intros [E | Hin]; [congruence | exact (Ha Hin)].
Qed.

Lemma span_not_slash_join (a b : string) :
  ~ In "/"%char (list_ascii_of_string a) ->
  objectController.span_not_slash (a +:+ String "/"%char b)
  = (a, String "/"%char b).
Proof.
  induction a as [|c a IH]; intros Ha; [reflexivity|].
  change (String c a +:+ String "/"%char b) with (String c (a +:+ String "/"%char b)).
  cbn [objectController.span_not_slash].
  replace (Ascii.eqb c "/"%char) with false.
  - rewrite IH; [reflexivity|]. intros Hin. apply Ha. right. exact Hin.
  - symmetry. apply Ascii.eqb_neq. intros ->. apply Ha. left. reflexivity.
Qed.

(** X28: the copy source that the controller accepts is a slash, a bucket
    name without a slash, a slash, and a key without a line break, neither
    of them empty; the two parts are what it hands to the service. *)
Theorem copySource_match_parts (copySource sourceBucket sourceKey : string) :
  objectController.copySource_match copySource = Some (sourceBucket, sourceKey)
  <-> copySource = "/" +:+ sourceBucket +:+ "/" +:+ sourceKey
      /\ sourceBucket <> "" /\ sourceKey <> ""
      /\ ~ In "/"%char (list_ascii_of_string sourceBucket)
      /\ forallb (fun x => negb (objectController.line_terminator x))
           (list_ascii_of_string sourceKey) = true.
Proof.
  unfold objectController.copySource_match. split.
  - destruct copySource as [|c rest]; [discriminate|].
    destruct (Ascii.eqb_spec c "/"%char) as [->|Hc]; [|discriminate].
    pose proof (span_not_slash_spec rest) as Hspan.
    destruct (objectController.span_not_slash rest) as [a b].
    destruct Hspan as (-> & Ha & Hb).
    destruct b as [|d k]; [discriminate|]. subst d.
    destruct (String.eqb a "") eqn:Eb; [discriminate|].
    destruct (String.eqb k "") eqn:Ek; [discriminate|].
    cbn [negb andb].
    destruct (forallb _ (list_ascii_of_string k)) eqn:Hk; [|discriminate].
    intros [= <- <-]. apply String.eqb_neq in Eb, Ek. auto.
  - intros (-> & Hb & Hk & Hslash & Hline).
    change ("/" +:+ sourceBucket +:+ "/" +:+ sourceKey)
      with (String "/"%char (sourceBucket +:+ String "/"%char sourceKey)).
    cbv beta iota. change (Ascii.eqb "/"%char "/"%char) with true. cbv iota.
    rewrite span_not_slash_join by assumption.
    apply String.eqb_neq in Hb, Hk. rewrite Hb, Hk, Hline. reflexivity.
Qed.

(** ** Delete, then read *)






Section DeleteThenRead.
Context `{Platform} (iamService : IAMService.t) (storageProvider : StorageProvider.t).


End DeleteThenRead.


(** ** The sidecar file and the keys that end in [.meta] *)

Section SidecarKeys.
Context `{Platform} (this : StorageProvider.t).

(** X30: the sidecar of a key is the object file of the key with [.meta]
    appended.  Where the path of the key [k.meta] is the path of [k]
    followed by [.meta] (as [path.join] gives for a plain key), a
    [putObject] of [k] that returns leaves the metadata document of [k] as
    the content of the object [k.meta]: [getObject] of [k.meta] returns and
    streams that document, whatever was stored under [k.meta] before. *)
Theorem sidecar_is_object_of_meta_key (bucketName objectKey : string)
  (data : Data) (metadata : Metadata.t) (s s' : State)
  (r : StorageProvider.PutResult) :
  object_path this bucketName (objectKey +:+ ".meta")
    = object_path this bucketName objectKey +:+ ".meta" ->
  StorageProvider.putObject this bucketName objectKey data metadata s
    = (Return r, s') ->
  exists d g,
    payload data = Some d
    /\ StorageProvider.getObject this bucketName (objectKey +:+ ".meta") s'
       = (Return g, s')
    /\ GetResult.stream g
       = StreamOf (file_bytes (Sidecar (sidecar_of metadata d (clock s)))).
Proof.
  intros Hpath Hput.
  apply StorageProvider_putObject_stores in Hput as (d & Hd & _ & _ & _ & Hmeta).
  rewrite <- Hpath in Hmeta.
  destruct (StorageProvider_getObject_present this bucketName (objectKey +:+ ".meta")
              s') as [g Hget]; [rewrite Hmeta; eauto|].
  exists d, g. split; [exact Hd|]. split; [exact Hget|].
  apply StorageProvider_getObject_returns in Hget as (_ & -> & _).
  unfold stream_at. rewrite Hmeta. reflexivity.
Qed.
End SidecarKeys.

(** The object [a.txt.meta] is stored first, then the object [a.txt]. *)
Lemma sidecar_is_object_of_meta_key_witness :
  let s :=
    snd (@StorageProvider.putObject reference_platform default_storage "my-bucket"
           "a.txt.meta" (Buffer (text "v1")) Metadata.empty (initial demo_clock)) in
  let put :=
    @StorageProvider.putObject reference_platform default_storage "my-bucket"
      "a.txt" (Buffer (text "hi")) Metadata.empty s in
  exists g,
    @StorageProvider.getObject reference_platform default_storage "my-bucket"
      "a.txt.meta" (snd put) = (Return g, snd put)
    /\ GetResult.stream g
       = StreamOf (@file_bytes reference_platform
                     (Sidecar (@sidecar_of reference_platform Metadata.empty
                                 (text "hi") (clock s)))).
Proof.
  intros s put.
  destruct (@sidecar_is_object_of_meta_key reference_platform default_storage
              "my-bucket" "a.txt" (Buffer (text "hi")) Metadata.empty s (snd put)
              (StorageProvider.mkPutResult "49f68a5c8493ec2c0bf489821c21fc3b" 2
                 demo_clock "my-bucket/a.txt"))
    as (d & g & Hd & Hget & Hstream).
  - vm_compute. reflexivity.
  - vm_compute. reflexivity.
  - injection Hd as <-. exists g. split; [exact Hget | exact Hstream].
Defined.
